(** * ContentTwin: the API routes and their AI helpers, embedded in Rocq

    The development follows the TypeScript sources:
    - [src/lib/utils/formatting.ts]          (calculateEngagementRate, truncate)
    - [src/lib/ai/claude-client.ts]          (generateText, generateJSON)
    - [src/lib/ai/voice-analyzer.ts]         (analyzeVoice)
    - [src/lib/ai/pillar-discovery.ts]       (discoverPillars, suggestTopics,
                                              scoreTrendRelevance)
    - [src/lib/ai/content-generator.ts]      (generateContent, scoreVoiceMatch)
    - [src/lib/ai/deck-analyzer.ts]          (analyzeDeck, analyzeMultipleDecks)
    - [src/lib/trends/scanner.ts]            (scoreAndFilterTrends, getMockTrends,
                                              scanTrends, generateTrendSources)
    - [src/lib/decks/extractor.ts]           (parsePastedDeckText)
    - [src/app/api/**/route.ts]              (the four POST handlers)

    JavaScript strings are sequences of UTF-16 code units, numbers are IEEE
    754 doubles (Rocq's primitive floats), and values that come back from
    the remote model are untyped JSON: reading a member of null or
    undefined, calling a method a value does not have, or converting to
    a string or a number a value that has no primitive, throws a
    TypeError.  A request body has the fields of the route's TypeScript
    interface, each possibly left out; the fields a handler validates at
    run time ([topic], [posts]) are kept as raw JSON values. *)

From Stdlib Require Import List String Ascii NArith ZArith Bool Arith Lia.
From Stdlib Require Import Floats DecimalString.
Import ListNotations.

Set Implicit Arguments.
Set Warnings "-register-all".

(* ================================================================== *)
(** ** JavaScript strings *)
(* ================================================================== *)

Module JsString.

(** A string is its list of UTF-16 code units. *)
Definition code_unit := N.
Definition jsstring := list code_unit.

(** ASCII literals of the source, as code units. *)
Definition lit (s : string) : jsstring :=
  map N_of_ascii (list_ascii_of_string s).

Definition eqb (a b : jsstring) : bool :=
  if list_eq_dec N.eq_dec a b then true else false.

(** [String.prototype.length]. *)
Definition length (s : jsstring) : nat := List.length s.

(** ECMAScript WhiteSpace and LineTerminator code points; the class [\s]
    of regular expressions and the characters [trim] removes. *)
Definition is_whitespace (c : code_unit) : bool :=
  ((9 <=? c) && (c <=? 13) || (c =? 32) || (c =? 160) || (c =? 5760)
   || ((8192 <=? c) && (c <=? 8202)) || (c =? 8232) || (c =? 8233)
   || (c =? 8239) || (c =? 8287) || (c =? 12288) || (c =? 65279))%N.

Fixpoint trimStart (s : jsstring) : jsstring :=
  match s with
  | c :: s' => if is_whitespace c then trimStart s' else s
  | [] => []
  end.

Definition trimEnd (s : jsstring) : jsstring := rev (trimStart (rev s)).

(** [String.prototype.trim]. *)
Definition trim (s : jsstring) : jsstring := trimEnd (trimStart s).

(** [s.startsWith(p)], and the rest of [s] after [p]. *)
Fixpoint strip_prefix (p s : jsstring) : option jsstring :=
  match p, s with
  | [], _ => Some s
  | a :: p', b :: s' => if (a =? b)%N then strip_prefix p' s' else None
  | _ :: _, [] => None
  end.

(** The first occurrence of [p] in [s]: what precedes it and what follows. *)
Fixpoint split_at_first (p s : jsstring) : option (jsstring * jsstring) :=
  match strip_prefix p s with
  | Some rest => Some ([], rest)
  | None =>
      match s with
      | [] => None
      | c :: s' =>
          match split_at_first p s' with
          | Some (before, after) => Some (c :: before, after)
          | None => None
          end
      end
  end.

(** [s.includes(p)]. *)
Definition includes (p s : jsstring) : bool :=
  match split_at_first p s with Some _ => true | None => false end.

(** [String.prototype.toLowerCase] on the ASCII letters. *)
Definition toLowerCase_ascii (s : jsstring) : jsstring :=
  map (fun c => if ((65 <=? c) && (c <=? 90))%N then (c + 32)%N else c) s.

End JsString.
Import JsString.

(* ================================================================== *)
(** ** src/lib/utils/formatting.ts *)
(* ================================================================== *)

Module Formatting.

Open Scope float_scope.

(** [calculateEngagementRate(likes, comments, reposts, impressions)]:
    [if (impressions === 0) return 0], otherwise
    [((likes + comments + reposts) / impressions) * 100]. *)
Definition calculateEngagementRate
    (likes comments reposts impressions : float) : float :=
  if impressions =? 0 then 0
  else ((likes + comments + reposts) / impressions) * 100.

End Formatting.

(* ================================================================== *)
(** ** JSON values and the JavaScript operations applied to them *)
(* ================================================================== *)

Module Json.

(** What [JSON.parse] returns.  An object keeps its members as an
    association list; a member is read with [lookup], the first binding
    of a key. *)
Inductive json : Type :=
| JNull
| JBool (b : bool)
| JNumber (x : float)
| JString (s : jsstring)
| JArray (items : list json)
| JObject (members : list (jsstring * json)).

(** A JavaScript value read out of a JSON value: [None] is [undefined]. *)
Definition jsval := option json.

(** The members of a JavaScript object. *)
Definition object := list (jsstring * json).

Fixpoint lookup (k : jsstring) (o : object) : jsval :=
  match o with
  | [] => None
  | (k', v) :: o' => if JsString.eqb k k' then Some v else lookup k o'
  end.

(** ToBoolean. *)
Definition truthy (v : json) : bool :=
  match v with
  | JNull => false
  | JBool b => b
  | JNumber x => negb (PrimFloat.eqb x 0) && negb (PrimFloat.is_nan x)
  | JString s => match s with [] => false | _ => true end
  | JArray _ | JObject _ => true
  end.

Definition truthy_val (v : jsval) : bool :=
  match v with None => false | Some j => truthy j end.

(** [x === null || x === undefined]. *)
Definition nullish (v : jsval) : bool :=
  match v with None | Some JNull => true | _ => false end.

(** The own enumerable members an object spread [{...v}] copies: the
    members of an object, the indexed elements of an array or a string,
    nothing for the other values. *)
Definition index_key (n : nat) : jsstring :=
  lit (NilZero.string_of_uint (Nat.to_uint n)).

Definition indexed {A} (f : A -> json) (l : list A) : object :=
  map (fun p => (index_key (fst p), f (snd p))) (combine (seq 0 (List.length l)) l).

Definition own_members (v : json) : object :=
  match v with
  | JObject o => o
  | JArray l => indexed (fun x => x) l
  | JString s => indexed (fun c => JString [c]) s
  | JNull | JBool _ | JNumber _ => []
  end.

(** [{ ...a, ...b }]: the members of [b] take precedence; the order of
    the members of the result is not modelled, [lookup] reads it. *)
Definition spread (a b : object) : object :=
  b ++ a.

(** The values ToPrimitive throws a TypeError on.  A value read out of
    JSON holds no function: an object with an own member [toString] has
    no callable [toString] (and its [valueOf], its own or the inherited
    one, gives no primitive), and an array is converted by joining its
    elements, each converted in turn.  Every other value has a
    primitive. *)
Fixpoint no_primitive (v : json) : bool :=
  match v with
  | JObject o =>
      match lookup (lit "toString") o with Some _ => true | None => false end
  | JArray l => existsb no_primitive l
  | JNull | JBool _ | JNumber _ | JString _ => false
  end.

End Json.
Import Json.

(* ================================================================== *)
(** ** Thrown errors *)
(* ================================================================== *)

Inductive exn : Type :=
| TypeError            (* a member read on null/undefined, a call of a non-function *)
| ApiError             (* anthropic.messages.create rejected *)
| BodyError            (* request.json() rejected *)
| Error (msg : jsstring). (* throw new Error(msg) *)

Inductive result (A : Type) : Type :=
| Ok (a : A)
| Throw (e : exn).
Arguments Ok {A} a.
Arguments Throw {A} e.

(** Member access [v.k] for the field names [k] of the sources (none of
    them is a built-in member of strings, arrays, numbers or booleans):
    it throws on null and undefined, finds own members of an object and is
    undefined on every other value. *)
Definition member (v : jsval) (k : string) : result jsval :=
  match v with
  | None | Some JNull => Throw TypeError
  | Some (JObject o) => Ok (lookup (lit k) o)
  | Some _ => Ok None
  end.

(** [`${v}`] in a template literal, and [v > x] for a number [x]: both
    convert [v] to a primitive first, which throws for the values of
    [no_primitive] and for no other. *)
Definition interpolate (v : jsval) : result unit :=
  match v with
  | Some j => if no_primitive j then Throw TypeError else Ok tt
  | None => Ok tt
  end.

(** [v.join(sep)]: only arrays have a [join]; it converts every element
    to a string. *)
Definition join_ok (v : jsval) : result unit :=
  match v with
  | Some (JArray l) => if existsb no_primitive l then Throw TypeError else Ok tt
  | _ => Throw TypeError
  end.

(** [v.map(f)]: defined on arrays only. *)
Definition as_array (v : jsval) : result (list json) :=
  match v with
  | Some (JArray l) => Ok l
  | _ => Throw TypeError
  end.

(** [v.slice(0, n)]: arrays and strings have a [slice]. *)
Definition slice0 (n : nat) (v : jsval) : result jsval :=
  match v with
  | Some (JArray l) => Ok (Some (JArray (firstn n l)))
  | Some (JString s) => Ok (Some (JString (firstn n s)))
  | _ => Throw TypeError
  end.

Definition rbind {A B} (r : result A) (f : A -> result B) : result B :=
  match r with Ok a => f a | Throw e => Throw e end.

Fixpoint rforall {A B} (f : A -> result B) (l : list A) : result unit :=
  match l with
  | [] => Ok tt
  | a :: l' => rbind (f a) (fun _ => rforall f l')
  end.

Declare Scope result_scope.
Delimit Scope result_scope with result.
Notation "x <-- r ;; k" := (rbind r (fun x => k))
  (at level 100, r at next level, right associativity) : result_scope.
Notation "r ;;- k" := (rbind r (fun _ => k))
  (at level 100, right associativity) : result_scope.

(* ================================================================== *)
(** ** Data of the requests and of the prompts *)
(* ================================================================== *)

(** [ContentType] of src/types/database.ts. *)
Inductive ContentType : Type := short | long | article.

(** A content pillar as the discover routes receive it. *)
Record Pillar : Type := mkPillar {
  pillar_name : jsstring;
  pillar_description : jsstring;
  pillar_example_topics : list jsstring
}.

(** [ExtractedDeck] of src/lib/decks/extractor.ts. *)
Record ExtractedDeck : Type := mkDeck {
  fileName : jsstring;
  slideCount : nat;
  extractedText : jsstring;
  slides : list (float * jsstring * bool)
}.

(** [ScannedTrend] of src/lib/trends/scanner.ts. *)
Record ScannedTrend : Type := mkTrend {
  title : jsstring;
  summary : jsstring;
  source_url : jsstring;
  source_name : jsstring;
  keywords : list jsstring;
  discovered_at : jsstring
}.

(** A prompt is a template of the sources together with the values it
    interpolates; the text itself is not spelled out, the remote model
    being free to answer anything to any prompt. *)
Inductive prompt : Type :=
| AnalyzeVoicePrompt (posts : list jsstring)
| DiscoverPillarsPrompt (posts : list jsstring)
| SuggestTopicsPrompt (pillars : list Pillar) (voiceSummary : jsstring)
    (recentTopics : list jsstring) (count : float)
| ScoreTrendPrompt (trendTitle trendSummary : jsstring)
    (pillars : list (jsstring * jsstring)) (voiceSummary : jsstring)
| GenerateContentPrompt (topic : jsstring) (contentType : ContentType)
    (creativityLevel : float) (voiceProfile : json)
    (samplePosts trends : list jsstring)
| ScoreVoiceMatchPrompt (content : jsval) (voiceProfile : json)
| AnalyzeDeckPrompt (deck : ExtractedDeck)
| AnalyzeDecksPrompt (narratives : list json).

(** A block of [response.content]. *)
Inductive content_block : Type :=
| TextBlock (text : jsstring)
| OtherBlock.

(** The outcome of one [anthropic.messages.create] call. *)
Inductive reply : Type :=
| Message (content : list content_block)
| Rejected.

(** Everything outside the repository that the code calls. *)
Record World : Type := mkWorld {
  (** the remote model: its answer to the [n]-th call of a request *)
  model : nat -> prompt -> reply;
  (** [JSON.parse]; [None] when it throws a SyntaxError *)
  JSON_parse : jsstring -> option json;
  (** ToNumber on a string, or on an array that has a primitive *)
  ToNumber_other : json -> float;
  (** [Date.now()] after [n] model calls *)
  Date_now : nat -> float;
  (** [new Date().toISOString()] *)
  toISOString_now : jsstring
}.

(* ================================================================== *)
(** ** Asynchronous code: a state-and-error monad over the call trace *)
(* ================================================================== *)

(** The state is the list of prompts sent so far, oldest first. *)
Definition trace := list prompt.

Definition M (A : Type) : Type := trace -> result A * trace.

Definition ret {A} (a : A) : M A := fun t => (Ok a, t).

Definition throw {A} (e : exn) : M A := fun t => (Throw e, t).

Definition bind {A B} (m : M A) (f : A -> M B) : M B :=
  fun t => match m t with
           | (Ok a, t') => f a t'
           | (Throw e, t') => (Throw e, t')
           end.

(** A synchronous step that may throw. *)
Definition lift {A} (r : result A) : M A := fun t => (r, t).

(** [try { m } catch { h }]. *)
Definition try_catch {A} (m : M A) (h : exn -> M A) : M A :=
  fun t => match m t with
           | (Ok a, t') => (Ok a, t')
           | (Throw e, t') => h e t'
           end.

Declare Scope monad_scope.
Delimit Scope monad_scope with monad.
Notation "x <- m ;; k" := (bind m (fun x => k))
  (at level 100, m at next level, right associativity) : monad_scope.
Notation "m ;;; k" := (bind m (fun _ => k))
  (at level 100, right associativity) : monad_scope.
Open Scope monad_scope.

(** [Promise.all(l)]: every promise of [l] has been started, in order,
    before the first result is awaited; the whole rejects with the first
    rejection. *)
Fixpoint promise_all {A} (l : list (M A)) : M (list A) :=
  match l with
  | [] => ret []
  | m :: l' =>
      fun t =>
        match m t with
        | (r, t1) =>
            match promise_all l' t1 with
            | (rs, t2) =>
                (match r, rs with
                 | Ok a, Ok al => Ok (a :: al)
                 | Throw e, _ => Throw e
                 | Ok _, Throw e => Throw e
                 end, t2)
            end
        end
  end.

(* ================================================================== *)
(** ** src/lib/ai/claude-client.ts *)
(* ================================================================== *)

Module ClaudeClient.
Section WithWorld.

Variable w : World.

(** [response.content.find((block) => block.type === 'text')], then
    [textBlock?.type === 'text' ? textBlock.text : ''] *)
Fixpoint first_text (content : list content_block) : jsstring :=
  match content with
  | [] => []
  | TextBlock s :: _ => s
  | OtherBlock :: rest => first_text rest
  end.

(** [generateText(prompt, options)]: one call of the remote model. *)
Definition generateText (p : prompt) : M jsstring :=
  fun t =>
    match model w (List.length t) p with
    | Message content => (Ok (first_text content), t ++ [p])
    | Rejected => (Throw ApiError, t ++ [p])
    end.

Definition fence : jsstring := lit "```".

(** [text.match(/```(?:json)?\s*([\s\S]*?)```/)], its capture group 1,
    for every text.  A match needs an opening fence and a fence after
    it, and the leftmost match is returned: it opens at the first fence
    of the text, and there is none when no fence follows the first one
    (a later opening would need a later closing fence still).  After the
    opening fence an optional [json] and then all white space are
    skipped: neither contains a backquote, so giving characters back
    never finds a match that the greedy choice misses.  The lazy group
    then stops at the first fence that follows. *)
Definition code_block (text : jsstring) : option jsstring :=
  match split_at_first fence text with
  | None => None
  | Some (_, after_open) =>
      let after_lang :=
        match strip_prefix (lit "json") after_open with
        | Some rest => rest
        | None => after_open
        end in
      match split_at_first fence (trimStart after_lang) with
      | Some (captured, _) => Some captured
      | None => None
      end
  end.

(** The two [try { JSON.parse } catch] steps of [generateJSON], applied
    to the text of the reply; [JNull] is the [null] of the source. *)
Definition parse_reply (text : jsstring) : json :=
  match JSON_parse w text with
  | Some v => v
  | None =>
      match code_block text with
      | Some captured =>
          match JSON_parse w (trim captured) with
          | Some v => v
          | None => JNull
          end
      | None => JNull
      end
  end.

(** [generateJSON<T>(prompt, options)] *)
Definition generateJSON (p : prompt) : M json :=
  text <- generateText p ;;
  ret (parse_reply text).

End WithWorld.
End ClaudeClient.
Import ClaudeClient.

(* ================================================================== *)
(** ** src/lib/ai/voice-analyzer.ts *)
(* ================================================================== *)

Module VoiceAnalyzer.
Section WithWorld.

Variable w : World.

(** [analyzeVoice(posts)] *)
Definition analyzeVoice (posts : list jsstring) : M json :=
  match posts with
  | [] => ret JNull
  | _ => generateJSON w (AnalyzeVoicePrompt posts)
  end.

End WithWorld.
End VoiceAnalyzer.
Import VoiceAnalyzer.

(* ================================================================== *)
(** ** src/lib/ai/pillar-discovery.ts *)
(* ================================================================== *)

Module PillarDiscovery.
Section WithWorld.

Variable w : World.

(** [discoverPillars(posts)]: [if (posts.length < 3) return null]. *)
Definition discoverPillars (posts : list jsstring) : M json :=
  if List.length posts <? 3 then ret JNull
  else generateJSON w (DiscoverPillarsPrompt posts).

(** [suggestTopics(pillars, voiceSummary, recentTopics, count)]; the
    value returned is [result?.topics || []]. *)
Definition suggestTopics (pillars : list Pillar) (voiceSummary : jsstring)
    (recentTopics : list jsstring) (count : float) : M json :=
  match pillars with
  | [] => ret (JArray [])
  | _ =>
      result <- generateJSON w
                  (SuggestTopicsPrompt pillars voiceSummary recentTopics count) ;;
      match result with
      | JNull => ret (JArray [])
      | _ =>
          topics <- lift (member (Some result) "topics") ;;
          match topics with
          | Some v => if truthy v then ret v else ret (JArray [])
          | None => ret (JArray [])
          end
      end
  end.

(** The object [scoreTrendRelevance] falls back to. *)
Definition default_scoring : json :=
  JObject [ (lit "relevanceScore", JNumber 0);
            (lit "matchedPillars", JArray []);
            (lit "hasConflict", JBool false);
            (lit "conflictReason", JNull);
            (lit "suggestedAngle", JNull) ].

(** [scoreTrendRelevance(trendTitle, trendSummary, pillars, voiceSummary)]:
    [return result || { relevanceScore: 0, ... }]. *)
Definition scoreTrendRelevance (trendTitle trendSummary : jsstring)
    (pillars : list (jsstring * jsstring)) (voiceSummary : jsstring) : M json :=
  result <- generateJSON w
              (ScoreTrendPrompt trendTitle trendSummary pillars voiceSummary) ;;
  ret (if truthy result then result else default_scoring).

End WithWorld.
End PillarDiscovery.
Import PillarDiscovery.

(* ================================================================== *)
(** ** src/lib/ai/content-generator.ts *)
(* ================================================================== *)

Module ContentGenerator.

(** [VoiceMatchBreakdown]; a field the model's reply lacks is [undefined]. *)
Record Breakdown : Type := mkBreakdown {
  structure : jsval;
  tone : jsval;
  vocabulary : jsval
}.

Record Score : Type := mkScore {
  overall : jsval;
  breakdown : Breakdown
}.

(** [GeneratedVariation], as [generateContent] builds it. *)
Record Variation : Type := mkVariation {
  id : jsval;
  content : jsval;
  voice_match_score : jsval;
  voice_match_breakdown : Breakdown
}.

Record GenerationInput : Type := mkInput {
  topic : jsstring;
  contentType : ContentType;
  creativityLevel : float;
  voiceProfile : json;          (* [JNull] when there is none *)
  samplePosts : list jsstring;
  trends : list jsstring
}.

Record GenerationOutput : Type := mkOutput {
  variations : list Variation;
  generationTimeMs : float
}.

Definition num (x : float) : jsval := Some (JNumber x).

(** [{ overall: 75, breakdown: { structure: 75, tone: 75, vocabulary: 75 } }] *)
Definition score_without_profile : Score :=
  mkScore (num 75) (mkBreakdown (num 75) (num 75) (num 75)).

(** [{ overall: 70, breakdown: { structure: 70, tone: 70, vocabulary: 70 } }] *)
Definition score_fallback : Score :=
  mkScore (num 70) (mkBreakdown (num 70) (num 70) (num 70)).

Open Scope result_scope.

(** [buildVoiceContext(profile)]: the member reads, conversions and
    method calls of the template, in order; the text they produce goes
    into the prompt.  Any of them throws a TypeError on a profile of
    another shape. *)
Definition buildVoiceContext (profile : json) : result unit :=
  structural <-- member (Some profile) "structural" ;;
  linguistic <-- member (Some profile) "linguistic" ;;
  content <-- member (Some profile) "content" ;;
  summary <-- member (Some profile) "summary" ;;
  interpolate summary ;;-
  (avg_sentence_length <-- member structural "avg_sentence_length" ;;
   interpolate avg_sentence_length) ;;-
  member structural "uses_lists" ;;-
  (hook_patterns <-- member structural "hook_patterns" ;; join_ok hook_patterns) ;;-
  (post_structure <-- member structural "post_structure" ;; join_ok post_structure) ;;-
  (cta_patterns <-- member structural "cta_patterns" ;; join_ok cta_patterns) ;;-
  (tone_markers <-- member linguistic "tone_markers" ;;
   formal <-- member tone_markers "formal" ;;
   interpolate formal) ;;-
  (tone_markers <-- member linguistic "tone_markers" ;;
   humorous <-- member tone_markers "humorous" ;;
   interpolate humorous) ;;-
  (common_phrases <-- member linguistic "common_phrases" ;;
   l <-- as_array common_phrases ;;
   rforall (fun p => phrase <-- member (Some p) "phrase" ;; interpolate phrase) l) ;;-
  (emoji_usage <-- member linguistic "emoji_usage" ;;
   uses_emoji <-- member emoji_usage "uses_emoji" ;;
   if truthy_val uses_emoji
   then (emoji_usage' <-- member linguistic "emoji_usage" ;;
         common_emoji <-- member emoji_usage' "common_emoji" ;;
         join_ok common_emoji)
   else Ok tt) ;;-
  (punctuation_style <-- member linguistic "punctuation_style" ;;
   member punctuation_style "uses_ellipsis") ;;-
  (punctuation_style <-- member linguistic "punctuation_style" ;;
   member punctuation_style "uses_dashes") ;;-
  (topics <-- member content "topics" ;; join_ok topics) ;;-
  (values <-- member content "values" ;; join_ok values) ;;-
  (frameworks <-- member content "frameworks" ;; join_ok frameworks) ;;-
  (opinions <-- member content "opinions" ;;
   l <-- as_array opinions ;;
   rforall (fun o => (topic <-- member (Some o) "topic" ;; interpolate topic) ;;-
                     (stance <-- member (Some o) "stance" ;; interpolate stance)) l).

(** [v[0]]: the first element of an array, the first character of a
    string, the member [0] of an object; it throws on null and
    undefined. *)
Definition first_element (v : jsval) : result jsval :=
  match v with
  | None | Some JNull => Throw TypeError
  | Some j => Ok (lookup (index_key 0) (own_members j))
  end.

(** The member reads, conversions and method calls of the prompt
    template of [scoreVoiceMatch], in order. *)
Definition scoreVoiceMatch_prompt (content : jsval) (voiceProfile : json)
    : result unit :=
  (summary <-- member (Some voiceProfile) "summary" ;; interpolate summary) ;;-
  (linguistic <-- member (Some voiceProfile) "linguistic" ;;
   tone_markers <-- member linguistic "tone_markers" ;;
   formal <-- member tone_markers "formal" ;;
   interpolate formal) ;;-
  (linguistic <-- member (Some voiceProfile) "linguistic" ;;
   common_phrases <-- member linguistic "common_phrases" ;;
   first3 <-- slice0 3 common_phrases ;;
   l <-- as_array first3 ;;
   (* [.map(p => p.phrase).join(', ')]: every phrase is read, then
      converted to a string *)
   rforall (fun p => member (Some p) "phrase") l ;;-
   rforall (fun p => phrase <-- member (Some p) "phrase" ;; interpolate phrase) l) ;;-
  (structural <-- member (Some voiceProfile) "structural" ;;
   hook_patterns <-- member structural "hook_patterns" ;;
   first <-- first_element hook_patterns ;;
   interpolate first) ;;-
  (content' <-- member (Some voiceProfile) "content" ;;
   topics <-- member content' "topics" ;;
   first5 <-- slice0 5 topics ;;
   join_ok first5) ;;-
  interpolate content.

Close Scope result_scope.

Section WithWorld.

Variable w : World.

(** [scoreVoiceMatch(content, voiceProfile)] *)
Definition scoreVoiceMatch (content : jsval) (voiceProfile : json) : M Score :=
  lift (scoreVoiceMatch_prompt content voiceProfile) ;;;
  result <- generateJSON w (ScoreVoiceMatchPrompt content voiceProfile) ;;
  if negb (truthy result) then ret score_fallback
  else
    overall <- lift (member (Some result) "overall") ;;
    structure <- lift (member (Some result) "structure") ;;
    tone <- lift (member (Some result) "tone") ;;
    vocabulary <- lift (member (Some result) "vocabulary") ;;
    ret (mkScore overall (mkBreakdown structure tone vocabulary)).

(** The body of the [async (v) => ...] passed to [result.variations.map]. *)
Definition score_variation (voiceProfile : json) (v : json) : M Variation :=
  score <- (if truthy voiceProfile
            then (content <- lift (member (Some v) "content") ;;
                  scoreVoiceMatch content voiceProfile)
            else ret score_without_profile) ;;
  id <- lift (member (Some v) "id") ;;
  content <- lift (member (Some v) "content") ;;
  ret (mkVariation id content (overall score) (breakdown score)).

(** [generateContent(input)] *)
Definition generateContent (input : GenerationInput) : M GenerationOutput :=
  fun t0 =>
    let startTime := Date_now w (List.length t0) in
    ((if truthy (voiceProfile input)
      then lift (buildVoiceContext (voiceProfile input))
      else ret tt) ;;;
     result <- generateJSON w
                 (GenerateContentPrompt (topic input) (contentType input)
                    (creativityLevel input) (voiceProfile input)
                    (samplePosts input) (trends input)) ;;
     if negb (truthy result)
     then throw (Error (lit "Failed to generate content variations"))
     else
       vs <- lift (member (Some result) "variations") ;;
       if negb (truthy_val vs)
       then throw (Error (lit "Failed to generate content variations"))
       else
         items <- lift (as_array vs) ;;
         scoredVariations <-
           promise_all (map (score_variation (voiceProfile input)) items) ;;
         fun t1 =>
           (Ok (mkOutput scoredVariations
                  (PrimFloat.sub (Date_now w (List.length t1)) startTime)), t1))
      t0.

End WithWorld.
End ContentGenerator.
Import ContentGenerator.

(* ================================================================== *)
(** ** src/lib/trends/scanner.ts *)
(* ================================================================== *)

Module Scanner.

(** A [ScannedTrend] as a JavaScript object. *)
Definition trend_members (t : ScannedTrend) : object :=
  [ (lit "title", JString (title t));
    (lit "summary", JString (summary t));
    (lit "source_url", JString (source_url t));
    (lit "source_name", JString (source_name t));
    (lit "keywords", JArray (map JString (keywords t)));
    (lit "discovered_at", JString (discovered_at t)) ].

(** [Array.prototype.sort(comparefn)] as a stable insertion sort:
    [x] moves behind [y] when [comparefn(x, y) > 0]; a NaN counts as 0,
    and a [comparefn] that throws makes the sort throw.  ECMAScript fixes
    the result for a consistent [comparefn] only, and there every stable
    sort returns this list.  For an inconsistent one (NaN on some pairs
    and not on others) the order is the engine's own and need not be the
    one computed here, so the properties stated of [sort] are either of a
    consistent [comparefn] or independent of the order (length, members,
    whether it throws).  With two or more elements every element is
    compared at least once, here as in any engine. *)
Section Sort.
Variable A : Type.
Variable comparefn : A -> A -> result float.

Fixpoint insert_sorted (x : A) (l : list A) : result (list A) :=
  match l with
  | [] => Ok [x]
  | y :: l' =>
      rbind (comparefn x y) (fun c =>
        if PrimFloat.ltb 0 c
        then rbind (insert_sorted x l') (fun l'' => Ok (y :: l''))
        else Ok (x :: l))
  end.

Definition sort (l : list A) : result (list A) :=
  fold_right (fun x sorted => rbind sorted (insert_sorted x)) (Ok []) l.
End Sort.

Section WithWorld.

Variable w : World.

(** ToNumber: an object or an array is first converted to a primitive,
    which throws for the values of [no_primitive]; an object that has a
    primitive has the string [[object Object]], which is not a number. *)
Definition ToNumber (v : jsval) : result float :=
  match v with
  | None => Ok PrimFloat.nan
  | Some JNull => Ok 0%float
  | Some (JBool b) => Ok (if b then 1%float else 0%float)
  | Some (JNumber x) => Ok x
  | Some (JString s) => Ok (ToNumber_other w (JString s))
  | Some (JArray l) =>
      if no_primitive (JArray l) then Throw TypeError
      else Ok (ToNumber_other w (JArray l))
  | Some (JObject o) =>
      if no_primitive (JObject o) then Throw TypeError else Ok PrimFloat.nan
  end.

(** [v >= bound] for a number [bound]. *)
Definition ge_number (v : jsval) (bound : float) : result bool :=
  rbind (ToNumber v) (fun x => Ok (PrimFloat.leb bound x)).

(** [getMockTrends()] *)
Definition getMockTrends : list ScannedTrend :=
  [ mkTrend (lit "AI agents are replacing junior developers in 2026")
      (lit "Major tech companies report 40% reduction in junior developer hiring as AI coding assistants become more capable")
      (lit "https://example.com/ai-developers") (lit "Tech News")
      [lit "AI"; lit "hiring"; lit "developers"] (toISOString_now w);
    mkTrend (lit "Remote work exodus: Companies mandate 4-day office returns")
      (lit "Wave of return-to-office mandates hits tech industry, sparking debate about productivity and culture")
      (lit "https://example.com/remote-work") (lit "LinkedIn News")
      [lit "remote work"; lit "culture"; lit "productivity"] (toISOString_now w);
    mkTrend (lit "Startup funding hits 5-year low in Q1 2026")
      (lit "VC funding drops 60% year-over-year as investors focus on profitability over growth")
      (lit "https://example.com/funding") (lit "Business News")
      [lit "startup"; lit "funding"; lit "VC"] (toISOString_now w);
    mkTrend (lit "LinkedIn introduces AI-powered content scoring")
      (lit "New algorithm ranks content based on authenticity and expertise, not just engagement")
      (lit "https://example.com/linkedin-ai") (lit "LinkedIn News")
      [lit "LinkedIn"; lit "content"; lit "AI"] (toISOString_now w);
    mkTrend (lit "Four-day work week trials show 91% success rate")
      (lit "Global study finds productivity increased while burnout decreased in 4-day week pilots")
      (lit "https://example.com/4-day-week") (lit "Work Culture")
      [lit "work culture"; lit "productivity"; lit "leadership"] (toISOString_now w) ].

(** One turn of the [for (const trend of trends)] loop: the [try] block
    pushes the scored trend or not, the [catch] skips the trend. *)
Definition score_one (pillars : list (jsstring * jsstring))
    (voiceSummary : jsstring) (minRelevanceScore : float)
    (scoredTrends : list object) (trend : ScannedTrend) : M (list object) :=
  try_catch
    (scoring <- scoreTrendRelevance w (title trend) (summary trend)
                  pillars voiceSummary ;;
     relevanceScore <- lift (member (Some scoring) "relevanceScore") ;;
     relevant <- lift (ge_number relevanceScore minRelevanceScore) ;;
     if (relevant : bool)
     then ret (scoredTrends ++
               [spread (spread (trend_members trend) (own_members scoring))
                  [(lit "trending_score", JNumber 75)]])
     else ret scoredTrends)
    (fun _ => ret scoredTrends).

Fixpoint score_loop (pillars : list (jsstring * jsstring))
    (voiceSummary : jsstring) (minRelevanceScore : float)
    (scoredTrends : list object) (trends : list ScannedTrend) : M (list object) :=
  match trends with
  | [] => ret scoredTrends
  | trend :: rest =>
      scoredTrends' <- score_one pillars voiceSummary minRelevanceScore
                         scoredTrends trend ;;
      score_loop pillars voiceSummary minRelevanceScore scoredTrends' rest
  end.

(** [(a, b) => b.relevance_score - a.relevance_score] *)
Definition by_relevance_score (a b : object) : result float :=
  rbind (ToNumber (lookup (lit "relevance_score") b)) (fun y =>
  rbind (ToNumber (lookup (lit "relevance_score") a)) (fun x =>
  Ok (PrimFloat.sub y x))).

(** [scoreAndFilterTrends(trends, pillars, voiceSummary, minRelevanceScore = 60)];
    [None] is an argument left out. *)
Definition scoreAndFilterTrends (trends : list ScannedTrend)
    (pillars : list (jsstring * jsstring)) (voiceSummary : jsstring)
    (minRelevanceScore : option float) : M (list object) :=
  let minRelevanceScore :=
    match minRelevanceScore with Some m => m | None => 60%float end in
  scoredTrends <- score_loop pillars voiceSummary minRelevanceScore [] trends ;;
  lift (sort by_relevance_score scoredTrends).

End WithWorld.
End Scanner.
Import Scanner.

(* ================================================================== *)
(** ** src/lib/ai/deck-analyzer.ts *)
(* ================================================================== *)

Module DeckAnalyzer.
Section WithWorld.

Variable w : World.

(** [analyzeDeck(deck)] *)
Definition analyzeDeck (deck : ExtractedDeck) : M json :=
  if List.length (extractedText deck) <? 100 then ret JNull
  else generateJSON w (AnalyzeDeckPrompt deck).

(** The [for (const deck of decks)] loop collecting the narratives. *)
Fixpoint collect_narratives (narratives : list json) (decks : list ExtractedDeck)
    : M (list json) :=
  match decks with
  | [] => ret narratives
  | deck :: rest =>
      narrative <- analyzeDeck deck ;;
      collect_narratives
        (if truthy narrative then narratives ++ [narrative] else narratives) rest
  end.

(** The template of [narrativeSummary] for one narrative:
    [n.mainTheme], [n.keyPoints.join(', ')], [n.storytellingStyle]. *)
Definition narrative_summary (n : json) : result unit :=
  ((mainTheme <-- member (Some n) "mainTheme" ;; interpolate mainTheme) ;;-
   (keyPoints <-- member (Some n) "keyPoints" ;; join_ok keyPoints) ;;-
   (storytellingStyle <-- member (Some n) "storytellingStyle" ;;
    interpolate storytellingStyle))%result.

(** [analyzeMultipleDecks(decks)]; the analysis returned is the object
    [{ narratives, ...result }]. *)
Definition analyzeMultipleDecks (decks : list ExtractedDeck) : M (option object) :=
  match decks with
  | [] => ret None
  | _ =>
      narratives <- collect_narratives [] decks ;;
      match narratives with
      | [] => ret None
      | _ =>
          lift (rforall narrative_summary narratives) ;;;
          result <- generateJSON w (AnalyzeDecksPrompt narratives) ;;
          if negb (truthy result) then ret None
          else ret (Some (spread [(lit "narratives", JArray narratives)]
                            (own_members result)))
      end
  end.

End WithWorld.
End DeckAnalyzer.
Import DeckAnalyzer.

(* ================================================================== *)
(** ** The API routes *)
(* ================================================================== *)

(** What a handler puts in [data]. *)
Inductive payload : Type :=
| PNull                                   (* data: null *)
| PJson (j : json)                        (* a value of the model, as it is *)
| PGenerate (variations : list Variation) (generationTimeMs : float)
    (voiceProfileUsed : bool)             (* the object of /api/generate *)
| PEnriched (pillars : list json) (resultSummary contentDNA : jsval)
                                          (* { pillars, summary } *)
| PTrends (trends : list object).         (* the array of scored trends *)

(** Whether the [data] field of the response body is [null].
    [NextResponse.json] serialises its argument with [JSON.stringify],
    which writes [null] for [null] and for a number that is not finite;
    the objects and arrays of the other payloads are never [null]. *)
Definition is_null (p : payload) : bool :=
  match p with
  | PNull | PJson JNull => true
  | PJson (JNumber x) => PrimFloat.is_nan x || PrimFloat.is_infinity x
  | _ => false
  end.

(** [NextResponse.json({ data, error }, { status })] *)
Record HttpResponse : Type := mkResponse {
  status : nat;
  data : payload;
  error : option jsstring                 (* [None] is [error: null] *)
}.

Definition respond (st : nat) (d : payload) : HttpResponse := mkResponse st d None.

Definition fail (st : nat) (msg : string) : HttpResponse :=
  mkResponse st PNull (Some (lit msg)).

(** [await request.json()], then the first read of a field of the body:
    [None] is a body that is not JSON, or that is [null]; either throws. *)
Definition request_json {Body} (request : option Body) : M Body :=
  match request with
  | Some body => ret body
  | None => throw BodyError
  end.

(** A destructuring default [field = d], and [field || d] on an array. *)
Definition default {A} (d : A) (o : option A) : A :=
  match o with Some a => a | None => d end.

(** *** src/app/api/generate/route.ts *)
Module GenerateRoute.

(** The body, as the handler destructures it; [None] is a field left
    out.  [topic] is kept as the raw value, the handler tests it. *)
Record Body : Type := mkBody {
  topic : jsval;
  contentType : option ContentType;
  creativityLevel : option float;
  samplePosts : option (list jsstring);
  trends : option (list jsstring)
}.

Section WithWorld.

Variable w : World.

Definition handler (request : option Body) : M HttpResponse :=
  body <- request_json request ;;
  let contentType := default long (contentType body) in
  let creativityLevel := default 30%float (creativityLevel body) in
  let samplePosts := default [] (samplePosts body) in
  let trends := default [] (trends body) in
  (* the topic once [!topic] is false; [.trim] exists on strings only *)
  let with_topic (k : jsstring -> M HttpResponse) : M HttpResponse :=
    match topic body with
    | None => ret (fail 400 "Topic is required")
    | Some v =>
        if negb (truthy v) then ret (fail 400 "Topic is required")
        else match v with
             | JString s =>
                 if JsString.length (trim s) =? 0
                 then ret (fail 400 "Topic is required")
                 else k (trim s)
             | _ => throw TypeError
             end
    end in
  with_topic (fun trimmed =>
    voiceProfile <- (if 0 <? List.length samplePosts
                     then analyzeVoice w samplePosts
                     else ret JNull) ;;
    result <- generateContent w
                (mkInput trimmed contentType creativityLevel voiceProfile
                   samplePosts trends) ;;
    ret (respond 200
           (PGenerate (variations result) (generationTimeMs result)
              (truthy voiceProfile)))).

Definition POST (request : option Body) : M HttpResponse :=
  try_catch (handler request)
    (fun _ => ret (fail 500 "Failed to generate content")).

End WithWorld.
End GenerateRoute.

(** Two functions of the repository that the pillars route calls and
    whose results it only passes on: [parsePastedDeckText]
    (src/lib/decks/extractor.ts, a regular-expression split of the pasted
    text) and [enrichPillarsWithDecks] (src/lib/ai/deck-analyzer.ts; it
    calls no model, and either throws or returns the enriched pillars,
    ordered by the engine's sort under Unicode case mapping).  The
    properties below hold whatever they compute. *)
Record DeckOps : Type := mkDeckOps {
  parsePastedDeckText : jsstring -> jsstring -> ExtractedDeck;
  enrichPillarsWithDecks : jsval -> object -> result (list json)
}.

(** *** src/app/api/discover/pillars/route.ts *)
Module PillarsRoute.

(** [posts] is kept as the raw value, the handler tests it. *)
Record Body : Type := mkBody {
  posts : jsval;
  decks : option (list jsstring)
}.

(** [body.posts.filter((p) => p.trim().length > 50)] *)
Fixpoint filter_posts (posts : list json) : result (list jsstring) :=
  match posts with
  | [] => Ok []
  | JString p :: rest =>
      rbind (filter_posts rest) (fun valid =>
        Ok (if 50 <? JsString.length (trim p) then p :: valid else valid))
  | _ :: _ => Throw TypeError
  end.

(** [`Deck ${i + 1}`] *)
Definition deck_name (i : nat) : jsstring := lit "Deck " ++ index_key (i + 1).

Section WithWorld.

Variable w : World.
Variable ops : DeckOps.

Definition parse_decks (decks : list jsstring) : list ExtractedDeck :=
  filter (fun d => 100 <? List.length (extractedText d))
    (map (fun p => parsePastedDeckText ops (snd p) (deck_name (fst p)))
       (combine (seq 0 (List.length decks)) decks)).

(** The [if (body.decks && body.decks.length > 0)] block: a response,
    or [None] when the handler goes on to the last [return]. *)
Definition with_decks (result : json) (decks : option (list jsstring))
    : M (option HttpResponse) :=
  match decks with
  | None | Some [] => ret None
  | Some decks =>
      match parse_decks decks with
      | [] => ret None
      | parsedDecks =>
          deckAnalysis <- analyzeMultipleDecks w parsedDecks ;;
          match deckAnalysis with
          | None => ret None
          | Some analysis =>
              pillars <- lift (member (Some result) "pillars") ;;
              enrichedPillars <- lift (enrichPillarsWithDecks ops pillars analysis) ;;
              resultSummary <- lift (member (Some result) "summary") ;;
              lift (interpolate resultSummary) ;;;
              contentDNA <- lift (member (lookup (lit "overallVoice") analysis)
                                    "contentDNA") ;;
              lift (interpolate contentDNA) ;;;
              ret (Some (respond 200
                           (PEnriched enrichedPillars resultSummary contentDNA)))
          end
      end
  end.

Definition handler (request : option Body) : M HttpResponse :=
  body <- request_json request ;;
  match posts body with
  | Some (JArray submitted) =>
      if List.length submitted <? 3
      then ret (fail 400 "Please provide at least 3 posts for pillar discovery")
      else
        validPosts <- lift (filter_posts submitted) ;;
        if List.length validPosts <? 3
        then ret (fail 400
               "Posts are too short. Each post should be at least 50 characters.")
        else
          let postsToAnalyze := firstn 20 validPosts in
          result <- discoverPillars w postsToAnalyze ;;
          if negb (truthy result)
          then ret (fail 500 "Failed to discover pillars. Please try again.")
          else
            early <- with_decks result (decks body) ;;
            match early with
            | Some response => ret response
            | None => ret (respond 200 (PJson result))
            end
  | _ => ret (fail 400 "Please provide at least 3 posts for pillar discovery")
  end.

Definition POST (request : option Body) : M HttpResponse :=
  try_catch (handler request)
    (fun _ => ret (fail 500 "Failed to discover pillars. Please try again.")).

End WithWorld.
End PillarsRoute.

(** *** src/app/api/discover/topics/route.ts *)
Module TopicsRoute.

Record Body : Type := mkBody {
  pillars : option (list Pillar);
  voiceSummary : option jsstring;
  recentTopics : option (list jsstring);
  count : option float
}.

(** [body.count || 10] *)
Definition count_or_10 (count : option float) : float :=
  match count with
  | Some c => if truthy (JNumber c) then c else 10%float
  | None => 10%float
  end.

Section WithWorld.

Variable w : World.

Definition handler (request : option Body) : M HttpResponse :=
  body <- request_json request ;;
  match pillars body with
  | None | Some [] => ret (fail 400 "Please provide at least one content pillar")
  | Some pillars =>
      match voiceSummary body with
      | None | Some [] => ret (fail 400 "Voice summary is required")
      | Some voiceSummary =>
          topics <- suggestTopics w pillars voiceSummary
                      (default [] (recentTopics body))
                      (count_or_10 (count body)) ;;
          ret (respond 200 (PJson topics))
      end
  end.

Definition POST (request : option Body) : M HttpResponse :=
  try_catch (handler request)
    (fun _ => ret (fail 500
                     "Failed to generate topic suggestions. Please try again.")).

End WithWorld.
End TopicsRoute.

(** *** src/app/api/discover/trends/route.ts *)
Module TrendsRoute.

Record Body : Type := mkBody {
  pillars : option (list (jsstring * jsstring));
  voiceSummary : option jsstring;
  minRelevanceScore : option float
}.

(** [body.minRelevanceScore || 60] *)
Definition min_or_60 (minRelevanceScore : option float) : float :=
  match minRelevanceScore with
  | Some m => if truthy (JNumber m) then m else 60%float
  | None => 60%float
  end.

Section WithWorld.

Variable w : World.

Definition handler (request : option Body) : M HttpResponse :=
  body <- request_json request ;;
  match pillars body with
  | None | Some [] => ret (fail 400 "Please provide at least one content pillar")
  | Some pillars =>
      match voiceSummary body with
      | None | Some [] => ret (fail 400 "Voice summary is required")
      | Some voiceSummary =>
          let rawTrends := getMockTrends w in
          scoredTrends <- scoreAndFilterTrends w rawTrends pillars voiceSummary
                            (Some (min_or_60 (minRelevanceScore body))) ;;
          ret (respond 200 (PTrends scoredTrends))
      end
  end.

Definition POST (request : option Body) : M HttpResponse :=
  try_catch (handler request)
    (fun _ => ret (fail 500 "Failed to discover trends. Please try again.")).

End WithWorld.
End TrendsRoute.

(* ================================================================== *)
(** ** A concrete world for the examples *)
(* ================================================================== *)

(** [JSON.parse] on the fragment of JSON the examples use: the literals,
    unsigned integers of at most 15 digits (which a double holds
    exactly), strings without escapes, arrays and objects, with white
    space between tokens.  A text outside the fragment is rejected (no
    example relies on such a text being accepted). *)
Module JsonText.

Definition is_json_space (c : code_unit) : bool :=
  ((c =? 32) || (c =? 9) || (c =? 10) || (c =? 13))%N.

Fixpoint skip_space (s : jsstring) : jsstring :=
  match s with
  | c :: s' => if is_json_space c then skip_space s' else s
  | [] => []
  end.

Definition is_digit (c : code_unit) : bool := ((48 <=? c) && (c <=? 57))%N.

Definition digit_value (c : code_unit) : float :=
  match (c - 48)%N with
  | 0%N => 0 | 1%N => 1 | 2%N => 2 | 3%N => 3 | 4%N => 4
  | 5%N => 5 | 6%N => 6 | 7%N => 7 | 8%N => 8 | _ => 9
  end%float.

(** The digits at the head of [s], read as a number, and the rest. *)
Fixpoint digits (acc : float) (s : jsstring) : float * jsstring :=
  match s with
  | c :: s' =>
      if is_digit c
      then digits (PrimFloat.add (PrimFloat.mul acc 10) (digit_value c)) s'
      else (acc, s)
  | [] => (acc, [])
  end.

(** The characters of a string literal up to its closing quote. *)
Fixpoint string_body (s : jsstring) : option (jsstring * jsstring) :=
  match s with
  | [] => None
  | c :: s' =>
      if (c =? 34)%N then Some ([], s')
      else if ((c =? 92) || (c <? 32))%N then None
      else match string_body s' with
           | Some (body, rest) => Some (c :: body, rest)
           | None => None
           end
  end.

(** [o[k] = v]: a later member of the same name replaces the earlier. *)
Fixpoint set_member (k : jsstring) (v : json) (o : object) : object :=
  match o with
  | [] => [(k, v)]
  | (k', v') :: o' =>
      if JsString.eqb k k' then (k, v) :: o' else (k', v') :: set_member k v o'
  end.

Fixpoint value (fuel : nat) (s : jsstring) : option (json * jsstring) :=
  match fuel with
  | O => None
  | S fuel' =>
      match skip_space s with
      | [] => None
      | c :: s' =>
          if (c =? 34)%N then
            match string_body s' with
            | Some (body, rest) => Some (JString body, rest)
            | None => None
            end
          else if (c =? 91)%N then
            match skip_space s' with
            | 93%N :: rest => Some (JArray [], rest)
            | _ => items fuel' [] s'
            end
          else if (c =? 123)%N then
            match skip_space s' with
            | 125%N :: rest => Some (JObject [], rest)
            | _ => members fuel' [] s'
            end
          else if (c =? 48)%N then
            match s' with
            | d :: _ => if is_digit d then None else Some (JNumber 0, s')
            | [] => Some (JNumber 0, [])
            end
          else if is_digit c then
            let (x, rest) := digits 0 (c :: s') in
            if 15 <? List.length (c :: s') - List.length rest then None
            else Some (JNumber x, rest)
          else
            match strip_prefix (lit "null") (c :: s'),
                  strip_prefix (lit "true") (c :: s'),
                  strip_prefix (lit "false") (c :: s') with
            | Some rest, _, _ => Some (JNull, rest)
            | _, Some rest, _ => Some (JBool true, rest)
            | _, _, Some rest => Some (JBool false, rest)
            | _, _, _ => None
            end
      end
  end
with items (fuel : nat) (acc : list json) (s : jsstring)
    : option (json * jsstring) :=
  match fuel with
  | O => None
  | S fuel' =>
      match value fuel' s with
      | Some (v, rest) =>
          match skip_space rest with
          | 44%N :: rest' => items fuel' (acc ++ [v]) rest'
          | 93%N :: rest' => Some (JArray (acc ++ [v]), rest')
          | _ => None
          end
      | None => None
      end
  end
with members (fuel : nat) (acc : object) (s : jsstring)
    : option (json * jsstring) :=
  match fuel with
  | O => None
  | S fuel' =>
      match skip_space s with
      | 34%N :: s' =>
          match string_body s' with
          | Some (k, rest) =>
              match skip_space rest with
              | 58%N :: rest' =>
                  match value fuel' rest' with
                  | Some (v, rest'') =>
                      match skip_space rest'' with
                      | 44%N :: r => members fuel' (set_member k v acc) r
                      | 125%N :: r => Some (JObject (set_member k v acc), r)
                      | _ => None
                      end
                  | None => None
                  end
              | _ => None
              end
          | None => None
          end
      | _ => None
      end
  end.

Definition parse (text : jsstring) : option json :=
  match value (2 * List.length text + 2) text with
  | Some (v, rest) =>
      match skip_space rest with [] => Some v | _ => None end
  | None => None
  end.

End JsonText.

Module Examples.

(** A JSON text written with ['] where the text has a double quote. *)
Definition text (s : string) : jsstring :=
  map (fun c => if (c =? 39)%N then 34%N else c) (lit s).

(** A world whose model answers by [replies].  The replies of the
    examples hold numbers where numbers are compared, so [ToNumber_other]
    is never consulted; the clock stands still. *)
Definition world (replies : nat -> prompt -> reply) : World :=
  mkWorld replies JsonText.parse (fun _ => PrimFloat.nan) (fun _ => 0%float)
    (lit "2026-01-01T00:00:00.000Z").

Definition says (s : string) : reply := Message [TextBlock (text s)].

(** The model is down. *)
Definition offline : World := world (fun _ _ => Rejected).

(** The model answers a generation prompt with a single variation. *)
Definition one_variation : World :=
  world (fun _ _ =>
    says "{'variations':[{'id':'var-1','content':'Hello','approach':'direct'}]}").

Definition topic_only (s : string) : GenerateRoute.Body :=
  GenerateRoute.mkBody (Some (JString (lit s))) None None None None.

(** A reply with two fenced blocks, the second one holding JSON. *)
Definition two_blocks : jsstring :=
  text "Draft: ```oops``` Final: ```json {'variations':[]} ```".

(** A post of [n] characters. *)
Definition post_of_length (n : nat) : jsstring := repeat 97%N n.

(** No deck is ever enriched. *)
Definition no_decks : DeckOps :=
  mkDeckOps (fun content name => mkDeck name 1 content [])
            (fun _ _ => Throw TypeError).

(** The model scores the first trend 60, the second 90 and the others 0. *)
Definition trend_scores : World :=
  world (fun n _ =>
    match n with
    | 0 => says "{'relevanceScore':60}"
    | 1 => says "{'relevanceScore':90}"
    | _ => says "{'relevanceScore':0}"
    end).

Definition one_pillar : TrendsRoute.Body :=
  TrendsRoute.mkBody (Some [(lit "AI", lit "Artificial intelligence at work")])
    (Some (lit "Direct and practical")) None.

(** The model answers every prompt with the text [reply]. *)
Definition answering (reply : jsstring) : World :=
  world (fun _ _ => Message [TextBlock reply]).

(** A reply that wraps its JSON in one fenced block. *)
Definition fenced : jsstring :=
  text "Here you go: ```json {'variations':[]} ``` Enjoy!".

Definition a_prompt : prompt := AnalyzeVoicePrompt [lit "A first post"].

(** Twenty posts of 60 characters and one of 61. *)
Definition twenty_one_posts : list jsstring :=
  repeat (post_of_length 60) 20 ++ [post_of_length 61].

Definition posts_only (posts : list jsstring) : PillarsRoute.Body :=
  PillarsRoute.mkBody (Some (JArray (map JString posts))) None.

Definition one_topic_pillar : TopicsRoute.Body :=
  TopicsRoute.mkBody
    (Some [mkPillar (lit "AI") (lit "Artificial intelligence at work") []])
    (Some (lit "Direct and practical")) None None.

(** A voice profile of the shape the analysis prompt asks for. *)
Definition profile_text : string :=
  "{'structural':{'avg_sentence_length':12,'avg_paragraph_length':3,
     'uses_lists':true,'list_frequency':0,'hook_patterns':['A question'],
     'cta_patterns':['Thoughts?'],'post_structure':['hook','story','cta']},
    'linguistic':{'common_words':[],
     'common_phrases':[{'phrase':'to be fair','frequency':1}],
     'tone_markers':{'formal':0,'casual':1,'humorous':0},
     'emoji_usage':{'uses_emoji':false,'common_emoji':[],'frequency':0},
     'punctuation_style':{'uses_ellipsis':false,'uses_dashes':true,
                          'exclamation_frequency':0}},
    'content':{'topics':['AI'],'opinions':[{'topic':'AI','stance':'useful'}],
     'recurring_stories':[],'frameworks':[],'values':['honesty']},
    'summary':'Direct and practical.'}".

(** The model returns a voice profile, then one variation, then scores
    of 150. *)
Definition generous_scorer : World :=
  world (fun n _ =>
    match n with
    | 0 => says profile_text
    | 1 => says "{'variations':[{'id':'var-1','content':'Hello','approach':'direct'}]}"
    | _ => says "{'structure':150,'tone':150,'vocabulary':150,'overall':150}"
    end).

Definition topic_with_sample (s : string) : GenerateRoute.Body :=
  GenerateRoute.mkBody (Some (JString (lit s))) None None
    (Some [lit "A post I wrote earlier."]) None.

(** [JSON.parse] reads the number [1e999], which is beyond the doubles,
    as Infinity. *)
Definition parse_with_overflow (text : jsstring) : option json :=
  if JsString.eqb text (lit "1e999") then Some (JNumber PrimFloat.infinity)
  else JsonText.parse text.

(** The model answers every prompt with the text [1e999]. *)
Definition overflowing : World :=
  mkWorld (fun _ _ => says "1e999") parse_with_overflow
    (fun _ => PrimFloat.nan) (fun _ => 0%float) (lit "2026-01-01T00:00:00.000Z").

(** Three posts of 60 characters. *)
Definition three_posts : PillarsRoute.Body :=
  posts_only (repeat (post_of_length 60) 3).

End Examples.

(* ================================================================== *)
(** ** Vocabulary of the properties *)
(* ================================================================== *)

Module Props.

(** A topic that is missing, empty or made of white space only. *)
Definition blank_topic (v : jsval) : Prop :=
  v = None \/ exists s, v = Some (JString s) /\ forallb is_whitespace s = true.

(** A [posts] field that is missing, not an array, or an array of fewer
    than 3 elements. *)
Definition too_few_posts (v : jsval) : Prop :=
  match v with
  | Some (JArray l) => List.length l < 3
  | _ => True
  end.

(** A [samplePosts] field that is left out or empty. *)
Definition no_sample_posts (v : option (list jsstring)) : Prop :=
  v = None \/ v = Some [].

(** The 75 the generator gives without a voice profile. *)
Definition scored_75 (v : Variation) : Prop :=
  voice_match_score v = num 75 /\
  voice_match_breakdown v = mkBreakdown (num 75) (num 75) (num 75).

(** The [{ data, error }] envelope: a success carries data and no
    error, an error carries an error message and no data. *)
Definition envelope (r : HttpResponse) : Prop :=
  (status r = 200 /\ error r = None /\ is_null (data r) = false) \/
  (status r <> 200 /\ error r <> None /\ data r = PNull).

(** A success whose data is a number of the model that is not finite (a
    JSON number beyond the doubles, such as [1e999], is read as
    Infinity): the body that goes out has [data: null] and
    [error: null]. *)
Definition overflowed (r : HttpResponse) : Prop :=
  status r = 200 /\ error r = None /\
  exists x, data r = PJson (JNumber x) /\ PrimFloat.is_finite x = false.

(** [before] is what precedes the first occurrence of [p] in [s], and
    [after] what follows it. *)
Definition first_occurrence (p s before after : jsstring) : Prop :=
  s = before ++ p ++ after /\
  forall before' after',
    s = before' ++ p ++ after' -> List.length before <= List.length before'.

(** What follows an optional [json] tag at the head of [s]. *)
Definition after_tag (s : jsstring) : jsstring :=
  match strip_prefix (lit "json") s with Some rest => rest | None => s end.

(** [block] is the content of the first fenced block of [text]: what
    stands between the first fence, an optional [json] tag and the white
    space after it, and the next fence, trimmed. *)
Definition first_fenced_block (text block : jsstring) : Prop :=
  exists before after body rest,
    first_occurrence fence text before after /\
    first_occurrence fence (trimStart (after_tag after)) body rest /\
    block = trim body.

(** The message contains, in any letter case, [please try again]. *)
Definition says_try_again (r : HttpResponse) : bool :=
  match error r with
  | Some msg => includes (lit "please try again") (toLowerCase_ascii msg)
  | None => false
  end.

(** The character of which fences are made. *)
Definition backquote : code_unit := 96%N.

(** The prompts a run has added to the trace [t]. *)
Definition sent (t t' : trace) : list prompt := skipn (List.length t) t'.

(** A computation only ever adds prompts to the trace. *)
Definition extends {A} (m : M A) : Prop :=
  forall t r t', m t = (r, t') -> exists l, t' = t ++ l.

(** The filter of the pillars route: [p.trim().length > 50]. *)
Definition long_enough (p : jsstring) : bool := 50 <? JsString.length (trim p).

(** The voice profile POST /api/generate works with when its first model
    call would be the [k]-th: none without sample posts, otherwise what
    [generateJSON] reads out of the reply to the analysis prompt (a
    rejected call fails the request; [JNull] stands for no profile). *)
Definition analysed (w : World) (k : nat) (posts : list jsstring) : json :=
  match posts with
  | [] => JNull
  | _ :: _ =>
      match model w k (AnalyzeVoicePrompt posts) with
      | Message content => parse_reply w (first_text content)
      | Rejected => JNull
      end
  end.

(** The number of the model call that carries the generation prompt, in
    a request that starts with the trace [t]: the analysis of the sample
    posts, when there are any, comes first. *)
Definition generation_call (t : trace) (posts : list jsstring) : nat :=
  List.length t + match posts with [] => 0 | _ :: _ => 1 end.

(** The score of the variation [v] comes from the [k]-th model call, the
    one that sends the scoring prompt for the content of [v]: the model
    answers it, and the score is the fallback 70 throughout when
    [generateJSON] reads a falsy value out of the reply (null when the
    reply holds no JSON), and otherwise the members [overall],
    [structure], [tone] and [vocabulary] of the value read, as they are. *)
Definition scored_by_model (w : World) (k : nat) (profile : json)
    (v : Variation) : Prop :=
  exists reply_content,
    model w k (ScoreVoiceMatchPrompt (content v) profile) = Message reply_content /\
    let reply := parse_reply w (first_text reply_content) in
    if truthy reply
    then member (Some reply) "overall" = Ok (voice_match_score v) /\
         member (Some reply) "structure" = Ok (structure (voice_match_breakdown v)) /\
         member (Some reply) "tone" = Ok (tone (voice_match_breakdown v)) /\
         member (Some reply) "vocabulary" = Ok (vocabulary (voice_match_breakdown v))
    else voice_match_score v = num 70 /\
         voice_match_breakdown v = mkBreakdown (num 70) (num 70) (num 70).

(** The variation [v] of the response is built from the element [item]
    of the model's [variations] array; with a voice profile its score
    comes from the [k]-th model call. *)
Definition built_from (w : World) (k : nat) (profile : json) (item : json)
    (v : Variation) : Prop :=
  member (Some item) "id" = Ok (id v) /\
  member (Some item) "content" = Ok (content v) /\
  if truthy profile then scored_by_model w k profile v else scored_75 v.

(** The variations are built from the elements of the array one for one,
    in order; with a voice profile the scoring calls are numbered from
    [k] on, one per variation. *)
Fixpoint built_in_order (w : World) (profile : json) (k : nat)
    (items : list json) (vars : list Variation) : Prop :=
  match items, vars with
  | [], [] => True
  | item :: items', v :: vars' =>
      built_from w k profile item v /\ built_in_order w profile (S k) items' vars'
  | _, _ => False
  end.

(** The scoring prompts of the variations [vars], when a profile is used. *)
Definition scoring_prompts (profile : json) (vars : list Variation) : list prompt :=
  if truthy profile
  then map (fun v => ScoreVoiceMatchPrompt (content v) profile) vars
  else [].



(** The object has no member [relevance_score]. *)
Definition lacks_relevance_score (o : object) : Prop :=
  lookup (lit "relevance_score") o = None.

(** No reply of the model, read as JSON, has a member [relevance_score]
    (the scoring prompt asks for [relevanceScore]). *)
Definition replies_lack_relevance_score (w : World) : Prop :=
  forall k p,
    match model w k p with
    | Message content =>
        lacks_relevance_score (own_members (parse_reply w (first_text content)))
    | Rejected => True
    end.

End Props.
Import Props.

(* ================================================================== *)
(** ** More of src/lib/utils/formatting.ts *)
(* ================================================================== *)

Module FormattingText.

(** [s.slice(0, e)] for an integer [e]: a negative [e] counts from the
    end of [s], and the result stays within [s]. *)
Definition slice_to (s : jsstring) (e : Z) : jsstring :=
  let len := Z.of_nat (List.length s) in
  let stop := if (e <? 0)%Z then Z.max (len + e) 0 else Z.min e len in
  firstn (Z.to_nat stop) s.

(** [truncate(text, maxLength)], for an integer [maxLength]:
    [if (text.length <= maxLength) return text], otherwise
    [text.slice(0, maxLength - 3) + '...']. *)
Definition truncate (text : jsstring) (maxLength : Z) : jsstring :=
  if (Z.of_nat (List.length text) <=? maxLength)%Z then text
  else slice_to text (maxLength - 3) ++ lit "...".

End FormattingText.

(* ================================================================== *)
(** ** More of src/lib/trends/scanner.ts *)
(* ================================================================== *)

Module TrendSources.

Inductive Platform : Type := linkedin | instagram.

(** [TrendSource] *)
Record TrendSource : Type := mkSource {
  name : jsstring;
  url : jsstring;
  keywords : list jsstring
}.

(** One result of the search function handed to [scanTrends]. *)
Record SearchResult : Type := mkResult {
  result_title : jsstring;
  result_summary : jsstring;
  result_url : jsstring
}.

(** [pillars.flatMap((pillar) => [pillar.name, ...pillar.example_topics.slice(0, 2)])] *)
Definition pillar_keywords (pillars : list Pillar) : list jsstring :=
  flat_map (fun pillar =>
              pillar_name pillar :: firstn 2 (pillar_example_topics pillar))
           pillars.

(** The [Map] of [scanTrends]: [m.set(k, v)] replaces the value of an
    existing key where it stands and adds a new key at the end. *)
Fixpoint map_set {V} (k : jsstring) (v : V) (m : list (jsstring * V))
    : list (jsstring * V) :=
  match m with
  | [] => [(k, v)]
  | (k', v') :: m' =>
      if JsString.eqb k k' then (k, v) :: m' else (k', v') :: map_set k v m'
  end.

Section WithBuiltins.

(** [String.prototype.toLowerCase] *)
Variable toLowerCase : jsstring -> jsstring.

(** The filter of the 'Tech News' source. *)
Definition is_tech_keyword (k : jsstring) : bool :=
  includes (lit "tech") (toLowerCase k)
  || includes (lit "startup") (toLowerCase k)
  || includes (lit "engineering") (toLowerCase k).

(** [generateTrendSources(pillars, platform = 'linkedin')]; [None] is
    the argument left out. *)
Definition generateTrendSources (pillars : list Pillar)
    (platform : option Platform) : list TrendSource :=
  let keywords := pillar_keywords pillars in
  let linkedinSources :=
    [ mkSource (lit "LinkedIn News") (lit "https://www.linkedin.com/news")
        (firstn 5 keywords);
      mkSource (lit "Tech News") (lit "https://news.ycombinator.com")
        (filter is_tech_keyword keywords) ] in
  let instagramSources :=
    [ mkSource (lit "Instagram Trends") (lit "https://www.instagram.com/explore")
        (firstn 5 keywords) ] in
  match platform with
  | Some instagram => instagramSources
  | Some linkedin | None => linkedinSources
  end.

(** The search function: its answer to the [n]-th search of a scan, or
    [None] when the promise rejects. *)
Variable firecrawlSearch : nat -> jsstring -> option (list SearchResult).

(** [new Date().toISOString()] after [n] searches. *)
Variable toISOString_after : nat -> jsstring.

(** [summary: result.summary || result.title] and the other fields of
    the trend made of one search result. *)
Definition to_trend (source : TrendSource) (keyword : jsstring) (n : nat)
    (r : SearchResult) : ScannedTrend :=
  mkTrend (result_title r)
    (match result_summary r with [] => result_title r | s => s end)
    (result_url r) (name source) [keyword] (toISOString_after n).

(** The loop over [source.keywords.slice(0, 3)] inside the [try]: the
    state is the number of searches made and [allTrends].  A rejected
    search ends the loop for this source (the [catch] logs it and the
    scan goes on with the next source). *)
Fixpoint scan_keywords (source : TrendSource) (keywords : list jsstring)
    (n : nat) (allTrends : list ScannedTrend) : nat * list ScannedTrend :=
  match keywords with
  | [] => (n, allTrends)
  | keyword :: rest =>
      match firecrawlSearch n keyword with
      | None => (S n, allTrends)
      | Some results =>
          scan_keywords source rest (S n)
            (allTrends ++ map (to_trend source keyword (S n)) (firstn 5 results))
      end
  end.

(** The loop [for (const source of sources)]. *)
Fixpoint scan_sources (sources : list TrendSource) (n : nat)
    (allTrends : list ScannedTrend) : nat * list ScannedTrend :=
  match sources with
  | [] => (n, allTrends)
  | source :: rest =>
      let (n', allTrends') :=
        scan_keywords source (firstn 3 (keywords source)) n allTrends in
      scan_sources rest n' allTrends'
  end.

(** [Array.from(new Map(allTrends.map((t) => [t.title.toLowerCase(), t])).values())] *)
Definition uniqueTrends (allTrends : list ScannedTrend) : list ScannedTrend :=
  map snd
    (fold_left (fun m t => map_set (toLowerCase (title t)) t m) allTrends []).

(** [scanTrends(sources, firecrawlSearch)]: the trends found, and the
    number of searches made. *)
Definition scanTrends (sources : list TrendSource) : list ScannedTrend * nat :=
  let (n, allTrends) := scan_sources sources 0 [] in
  (uniqueTrends allTrends, n).

End WithBuiltins.
End TrendSources.

(* ================================================================== *)
(** ** src/lib/decks/extractor.ts *)
(* ================================================================== *)

Module Extractor.

Definition equals_sign : code_unit := 61%N.

Definition is_equals (c : code_unit) : bool := (c =? equals_sign)%N.

Definition is_digit (c : code_unit) : bool := ((48 <=? c) && (c <=? 57))%N.

(** The longest prefix of [s] whose characters satisfy [f], and the rest:
    what a greedy [c*] or [c+] of the delimiter takes (each is followed
    by something no [c] matches, so it never gives characters back). *)
Fixpoint span (f : code_unit -> bool) (s : jsstring) : jsstring * jsstring :=
  match s with
  | c :: s' =>
      if f c then let (run, rest) := span f s' in (c :: run, rest)
      else ([], s)
  | [] => ([], [])
  end.

(** [Slide] under the [i] flag: the ASCII letters in either case. *)
Definition strip_slide (s : jsstring) : option jsstring :=
  match s with
  | c1 :: c2 :: c3 :: c4 :: c5 :: rest =>
      if JsString.eqb (toLowerCase_ascii [c1; c2; c3; c4; c5]) (lit "slide")
      then Some rest else None
  | _ => None
  end.

(** A match of [/={3,}\s*Slide\s+(\d+)\s*={3,}/i] starting at the head
    of [s]: the digits captured and the number of characters matched. *)
Definition match_delimiter (s : jsstring) : option (jsstring * nat) :=
  let (open, s1) := span is_equals s in
  if List.length open <? 3 then None else
  let (space1, s2) := span is_whitespace s1 in
  match strip_slide s2 with
  | None => None
  | Some s3 =>
      let (space2, s4) := span is_whitespace s3 in
      match space2 with
      | [] => None
      | _ =>
          let (digits, s5) := span is_digit s4 in
          match digits with
          | [] => None
          | _ =>
              let (space3, s6) := span is_whitespace s5 in
              let (close, s7) := span is_equals s6 in
              if List.length close <? 3 then None
              else Some (digits,
                         List.length open + List.length space1 + 5
                         + List.length space2 + List.length digits
                         + List.length space3 + List.length close)
          end
      end
  end.

(** [content.split(slideDelimiter)]: the text before the first
    delimiter, then for each delimiter its digits and the text after it.
    [skip] counts the characters of the delimiter just matched that are
    still to be passed over, [pending] is the text since the last
    delimiter. *)
Fixpoint split_loop (skip : nat) (pending : jsstring) (s : jsstring)
    : jsstring * list (jsstring * jsstring) :=
  match s with
  | [] => (pending, [])
  | c :: s' =>
      match skip with
      | S skip' => split_loop skip' pending s'
      | O =>
          match match_delimiter s with
          | Some (digits, matched) =>
              let (text, parts) := split_loop (matched - 1) [] s' in
              (pending, (digits, text) :: parts)
          | None => split_loop O (pending ++ [c]) s'
          end
      end
  end.

Definition split (content : jsstring) : jsstring * list (jsstring * jsstring) :=
  split_loop 0 [] content.

(** [l.join(sep)] on strings. *)
Fixpoint join (sep : jsstring) (l : list jsstring) : jsstring :=
  match l with
  | [] => []
  | [s] => s
  | s :: l' => s ++ sep ++ join sep l'
  end.

Definition paragraph_break : jsstring := [10%N; 10%N].

Section WithBuiltins.

(** [parseInt(digits, 10)] *)
Variable parseInt : jsstring -> float.

(** The loop over the parts: a slide for each part whose trimmed text is
    not empty. *)
Definition slides_of (parts : list (jsstring * jsstring))
    : list (float * jsstring * bool) :=
  flat_map (fun part =>
              match trim (snd part) with
              | [] => []
              | text => [(parseInt (fst part), text, false)]
              end)
           parts.

(** [parsePastedDeckText(content, fileName = 'Manual Entry')] *)
Definition parsePastedDeckText (content : jsstring) (fileName : option jsstring)
    : ExtractedDeck :=
  let fileName := default (lit "Manual Entry") fileName in
  let slides :=
    match slides_of (snd (split content)) with
    | [] => [(1%float, trim content, false)]
    | found => found
    end in
  mkDeck fileName (List.length slides)
    (join paragraph_break (map (fun s => snd (fst s)) slides))
    slides.

End WithBuiltins.

(** A delimiter line as the doc comment of the source shows it. *)
Definition delimiter (number : jsstring) : jsstring :=
  lit "=== Slide " ++ number ++ lit " ===".

(** A deck pasted in the expected format: each slide is its delimiter
    line, its text and an empty line. *)
Fixpoint pasted (slides : list (jsstring * jsstring)) : jsstring :=
  match slides with
  | [] => []
  | (number, text) :: rest =>
      delimiter number ++ [10%N] ++ text ++ paragraph_break ++ pasted rest
  end.

End Extractor.

(* ================================================================== *)
(** ** Vocabulary of the further properties *)
(* ================================================================== *)

Module ExtraProps.

(** A trend found under one of the first three keywords of one of the
    sources, whose summary is empty only if its title is. *)
Definition found_in (sources : list TrendSources.TrendSource) (t : ScannedTrend)
    : Prop :=
  (exists source keyword,
      In source sources /\
      In keyword (firstn 3 (TrendSources.keywords source)) /\
      source_name t = TrendSources.name source /\
      keywords t = [keyword]) /\
  (summary t = [] -> title t = []).

(** A slide as the pasted format expects it: a number made of digits,
    and a text that is trimmed, not empty and free of [=]. *)
Definition slide_ok (s : jsstring * jsstring) : Prop :=
  fst s <> [] /\
  forallb Extractor.is_digit (fst s) = true /\
  ~ In Extractor.equals_sign (snd s) /\
  trim (snd s) = snd s /\
  snd s <> [].

(** The text that follows a delimiter in a pasted deck. *)
Definition padded (text : jsstring) : jsstring :=
  10%N :: text ++ Extractor.paragraph_break.

(** A scored trend as [scoreAndFilterTrends] keeps it: it carries the
    model's [relevanceScore], which is at least the minimum, and the
    fixed [trending_score] 75. *)
Definition kept_trend (w : World) (minimum : float) (o : object) : Prop :=
  exists v,
    lookup (lit "relevanceScore") o = Some v /\
    ge_number w (Some v) minimum = Ok true /\
    lookup (lit "trending_score") o = Some (JNumber 75).

(** The member [relevance_score] of [o], which the sort compares, can be
    converted to a number (it is [undefined] when [o] has none). *)
Definition sortable (o : object) : Prop :=
  match lookup (lit "relevance_score") o with
  | Some v => no_primitive v = false
  | None => True
  end.

(** No reply of the model, read as JSON, has a member [relevance_score]
    that cannot be converted to a number. *)
Definition convertible_replies (w : World) : Prop :=
  forall k p content,
    model w k p = Message content ->
    sortable (own_members (parse_reply w (first_text content))).

(** The scoring prompt of one trend. *)
Definition score_prompt (pillars : list (jsstring * jsstring))
    (voiceSummary : jsstring) (trend : ScannedTrend) : prompt :=
  ScoreTrendPrompt (title trend) (summary trend) pillars voiceSummary.

(** The statuses a handler answers with, and the trace on a 400. *)
Definition answered (t : trace) (resp : HttpResponse) (t' : trace) : Prop :=
  (status resp = 200 \/ status resp = 400 \/ status resp = 500) /\
  (status resp = 400 -> t' = t).

(** A JSON value that is not a string. *)
Definition not_a_string (v : json) : Prop :=
  match v with JString _ => False | _ => True end.

(** The pillars route with the deck reader of src/lib/decks/extractor.ts
    ([parseInt] and the enrichment step are left open). *)
Definition extractor_ops (parseInt : jsstring -> float)
    (enrich : jsval -> object -> result (list json)) : DeckOps :=
  mkDeckOps (fun content fileName =>
               Extractor.parsePastedDeckText parseInt content (Some fileName))
            enrich.

(** A pasted deck without slide delimiter and of at most 100 characters
    once trimmed. *)
Definition short_deck (content : jsstring) : Prop :=
  ~ In Extractor.equals_sign content /\ JsString.length (trim content) <= 100.

(** The model rejects every voice-match scoring call. *)
Definition scoring_rejected (w : World) : Prop :=
  forall k content profile, model w k (ScoreVoiceMatchPrompt content profile) = Rejected.

End ExtraProps.

(** Further example data. *)
Module MoreExamples.

(** The voice profile of [Examples.profile_text], parsed. *)
Definition sample_profile : json :=
  match JsonText.parse (Examples.text Examples.profile_text) with
  | Some profile => profile
  | None => JNull
  end.

Definition sample_input : GenerationInput :=
  mkInput (lit "AI") long 30%float sample_profile [lit "A post I wrote earlier."] [].

(** The model returns a voice profile and one variation, then rejects
    the scoring call. *)
Definition scoring_down : World :=
  Examples.world (fun n p =>
    match p with
    | ScoreVoiceMatchPrompt _ _ => Rejected
    | _ =>
        match n with
        | 0 => Examples.says Examples.profile_text
        | _ => Examples.says
                 "{'variations':[{'id':'var-1','content':'Hello','approach':'direct'}]}"
        end
    end).


(** The model scores every trend 70 and adds a member [relevance_score]
    that has no primitive value. *)
Definition odd_scores : World :=
  Examples.world (fun _ _ =>
    Examples.says "{'relevanceScore':70,'relevance_score':{'toString':1}}").

End MoreExamples.
Import ExtraProps.

(* ================================================================== *)
(** ** Lemmas on strings and on the monad *)
(* ================================================================== *)

Unset Implicit Arguments.

Lemma trimStart_blank (s : jsstring) :
  forallb is_whitespace s = true -> trimStart s = [].
Proof.
  induction s as [|c s IH]; simpl; intro H; [reflexivity|].
  apply andb_true_iff in H as [Hc Hs]. rewrite Hc. auto.
Qed.

Lemma trim_blank (s : jsstring) :
  forallb is_whitespace s = true -> trim s = [].
Proof.
  intro H. unfold trim, trimEnd. rewrite (trimStart_blank s H). reflexivity.
Qed.

Lemma bind_Ok {A B} (m : M A) (f : A -> M B) t b t' :
  bind m f t = (Ok b, t') ->
  exists a t1, m t = (Ok a, t1) /\ f a t1 = (Ok b, t').
Proof.
  unfold bind. destruct (m t) as [[a|e] t1]; intro H; [eauto | discriminate].
Qed.

(* ================================================================== *)
(** ** Properties *)
(* ================================================================== *)

(** C10. [calculateEngagementRate] returns a number for every input: 0
    when [impressions === 0] (the division is guarded), and otherwise
    [(likes + comments + reposts) / impressions * 100]. *)
Theorem calculateEngagementRate_guarded (likes comments reposts impressions : float) :
  (PrimFloat.eqb impressions 0 = true ->
   Formatting.calculateEngagementRate likes comments reposts impressions = 0%float) /\
  (PrimFloat.eqb impressions 0 = false ->
   Formatting.calculateEngagementRate likes comments reposts impressions
   = PrimFloat.mul
       (PrimFloat.div (PrimFloat.add (PrimFloat.add likes comments) reposts)
          impressions) 100).
Proof.
  unfold Formatting.calculateEngagementRate.
  split; intro H; rewrite H; reflexivity.
Qed.

Lemma calculateEngagementRate_guarded_witness :
  Formatting.calculateEngagementRate 5 3 2 0 = 0%float /\
  Formatting.calculateEngagementRate 5 3 2 200 = 5%float.
Proof.
  split.
  - apply (proj1 (calculateEngagementRate_guarded 5 3 2 0)). reflexivity.
  - rewrite (proj2 (calculateEngagementRate_guarded 5 3 2 200)); reflexivity.
Defined.

(** C6. A request to POST /api/generate whose topic is missing, empty or
    white space only is answered 400 [{ data: null, error: 'Topic is
    required' }], and no prompt is sent to the model. *)
Theorem generate_topic_required (w : World) (body : GenerateRoute.Body) (t : trace) :
  blank_topic (GenerateRoute.topic body) ->
  GenerateRoute.POST w (Some body) t
  = (Ok (mkResponse 400 PNull (Some (lit "Topic is required"))), t).
Proof.
  intros [H | (s & H & Hs)];
    unfold GenerateRoute.POST, GenerateRoute.handler, try_catch, bind,
           request_json, ret; rewrite H.
  - reflexivity.
  - destruct s as [|c s]; [reflexivity|].
    cbn [truthy negb]. rewrite (trim_blank _ Hs). reflexivity.
Qed.

Lemma generate_topic_required_witness :
  GenerateRoute.POST Examples.offline (Some (Examples.topic_only "   ")) []
  = (Ok (mkResponse 400 PNull (Some (lit "Topic is required"))), []).
Proof.
  apply generate_topic_required.
  right. exists (lit "   "). split; reflexivity.
Defined.

(** C3. A request to POST /api/discover/pillars whose [posts] is missing,
    not an array or shorter than 3 is answered 400 with 'Please provide
    at least 3 posts for pillar discovery' (no prompt is sent), and
    [discoverPillars] returns null on every list of fewer than 3 posts. *)
Theorem pillars_at_least_three_posts (w : World) (ops : DeckOps) :
  (forall (body : PillarsRoute.Body) (t : trace),
      too_few_posts (PillarsRoute.posts body) ->
      PillarsRoute.POST w ops (Some body) t
      = (Ok (mkResponse 400 PNull
               (Some (lit "Please provide at least 3 posts for pillar discovery"))),
         t)) /\
  (forall (posts : list jsstring) (t : trace),
      List.length posts < 3 ->
      discoverPillars w posts t = (Ok JNull, t)).
Proof.
  split.
  - intros body t H.
    unfold PillarsRoute.POST, PillarsRoute.handler, try_catch, bind,
           request_json, ret.
    unfold too_few_posts in H.
    destruct (PillarsRoute.posts body) as [[| | | |l|]|]; try reflexivity.
    apply Nat.ltb_lt in H. rewrite H. reflexivity.
  - intros posts t H. unfold discoverPillars.
    apply Nat.ltb_lt in H. rewrite H. reflexivity.
Qed.

Lemma pillars_at_least_three_posts_witness :
  PillarsRoute.POST Examples.offline Examples.no_decks
    (Some (PillarsRoute.mkBody
             (Some (JArray [JString (Examples.post_of_length 60);
                            JString (Examples.post_of_length 60)])) None)) []
  = (Ok (mkResponse 400 PNull
           (Some (lit "Please provide at least 3 posts for pillar discovery"))), [])
  /\ discoverPillars Examples.offline
       [Examples.post_of_length 60; Examples.post_of_length 60] []
     = (Ok JNull, []).
Proof.
  split.
  - apply (proj1 (pillars_at_least_three_posts Examples.offline Examples.no_decks)).
    simpl. lia.
  - apply (proj2 (pillars_at_least_three_posts Examples.offline Examples.no_decks)).
    simpl. lia.
Defined.

(* ------------------------------------------------------------------ *)
(** *** The content generator without a voice profile *)

Lemma sent_app (t l : trace) : sent t (t ++ l) = l.
Proof.
  unfold sent. induction t as [|p t IH]; simpl; auto.
Qed.

Lemma generateJSON_run (w : World) (p : prompt) (t : trace) :
  exists r, generateJSON w p t = (r, t ++ [p]).
Proof.
  unfold generateJSON, bind, generateText, ret.
  destruct (model w (List.length t) p); eauto.
Qed.

Lemma score_variation_no_profile (w : World) (profile v : json) (t : trace) :
  truthy profile = false ->
  exists r, score_variation w profile v t = (r, t) /\
            match r with Ok x => scored_75 x | Throw _ => True end.
Proof.
  intro H. unfold score_variation. rewrite H.
  unfold bind, ret, lift.
  destruct (member (Some v) "id") as [i|e]; [|eexists; split; [reflexivity|exact I]].
  destruct (member (Some v) "content") as [c|e];
    eexists; (split; [reflexivity|]); [split; reflexivity | exact I].
Qed.

Lemma promise_all_no_profile (w : World) (profile : json) (items : list json)
    (t : trace) :
  truthy profile = false ->
  exists r, promise_all (map (score_variation w profile) items) t = (r, t) /\
            match r with
            | Ok xs => Forall scored_75 xs /\ List.length xs = List.length items
            | Throw _ => True
            end.
Proof.
  intro H. induction items as [|v items IH]; simpl.
  - eexists; split; [reflexivity|]. split; [constructor | reflexivity].
  - destruct (score_variation_no_profile w profile v t H) as (r & -> & Hr).
    destruct IH as (rs & -> & Hrs).
    eexists; split; [reflexivity|].
    destruct r as [x|e]; [|exact I].
    destruct rs as [xs|e]; [|exact I].
    destruct Hrs as [Hall Hlen]. split; [constructor; assumption | simpl; congruence].
Qed.

Lemma generateContent_no_profile (w : World) (input : GenerationInput) (t : trace) :
  truthy (voiceProfile input) = false ->
  exists r,
    generateContent w input t
    = (r, t ++ [GenerateContentPrompt (ContentGenerator.topic input)
                  (ContentGenerator.contentType input)
                  (ContentGenerator.creativityLevel input) (voiceProfile input)
                  (ContentGenerator.samplePosts input)
                  (ContentGenerator.trends input)]) /\
    match r with
    | Ok out => Forall scored_75 (variations out)
    | Throw _ => True
    end.
Proof.
  intro H. unfold generateContent. rewrite H.
  set (p := GenerateContentPrompt _ _ _ _ _ _).
  unfold bind at 1. unfold ret at 1. unfold bind at 1.
  destruct (generateJSON_run w p t) as (r & ->).
  destruct r as [result|e]; [|eexists; split; [reflexivity|exact I]].
  destruct (truthy result); cbn [negb];
    [|eexists; split; [reflexivity|exact I]].
  unfold bind at 1, lift at 1.
  destruct (member (Some result) "variations") as [vs|e];
    [|eexists; split; [reflexivity|exact I]].
  destruct (truthy_val vs); cbn [negb];
    [|eexists; split; [reflexivity|exact I]].
  unfold bind at 1, lift at 1.
  destruct (as_array vs) as [items|e]; [|eexists; split; [reflexivity|exact I]].
  unfold bind.
  destruct (promise_all_no_profile w _ items (t ++ [p]) H) as (rs & -> & Hrs).
  destruct rs as [xs|e]; eexists; (split; [reflexivity|]); [apply Hrs | exact I].
Qed.

(** C9. With an empty [samplePosts] list, POST /api/generate produces no
    voice profile ([analyzeVoice] is null on the empty list and no voice
    analysis prompt is sent), answers [voiceProfileUsed: false], and
    every variation it returns has score 75 and breakdown 75/75/75. *)
Theorem generate_without_sample_posts (w : World) (body : GenerateRoute.Body)
    (t : trace) :
  no_sample_posts (GenerateRoute.samplePosts body) ->
  analyzeVoice w [] t = (Ok JNull, t) /\
  exists resp t',
    GenerateRoute.POST w (Some body) t = (Ok resp, t') /\
    (forall posts, ~ In (AnalyzeVoicePrompt posts) (sent t t')) /\
    (status resp = 200 ->
     exists vars ms,
       data resp = PGenerate vars ms false /\ Forall scored_75 vars).
Proof.
  intro Hno. split; [reflexivity|].
  assert (Hdef : default [] (GenerateRoute.samplePosts body) = [])
    by (destruct Hno as [-> | ->]; reflexivity).
  unfold GenerateRoute.POST, GenerateRoute.handler, try_catch.
  unfold bind at 1. unfold request_json, ret at 1. rewrite Hdef.
  assert (Hquiet : forall posts, ~ In (AnalyzeVoicePrompt posts) (sent t t)).
  { intros posts. rewrite <- (app_nil_r t) at 2. rewrite sent_app. intros []. }
  assert (H400 : forall msg,
    exists resp t', (Ok (fail 400 msg), t) = (Ok resp, t') /\
      (forall posts, ~ In (AnalyzeVoicePrompt posts) (sent t t')) /\
      (status resp = 200 -> exists vars ms,
         data resp = PGenerate vars ms false /\ Forall scored_75 vars)).
  { intro msg. do 2 eexists. split; [reflexivity|]. split; [exact Hquiet|].
    simpl. discriminate. }
  assert (H500 : forall t1 l, t1 = t ++ l ->
    (forall posts, ~ In (AnalyzeVoicePrompt posts) l) ->
    exists resp t', (Ok (fail 500 "Failed to generate content"), t1) = (Ok resp, t') /\
      (forall posts, ~ In (AnalyzeVoicePrompt posts) (sent t t')) /\
      (status resp = 200 -> exists vars ms,
         data resp = PGenerate vars ms false /\ Forall scored_75 vars)).
  { intros t1 l -> Hl. do 2 eexists. split; [reflexivity|].
    rewrite sent_app. split; [exact Hl|]. simpl. discriminate. }
  destruct (GenerateRoute.topic body) as [v|]; [|apply H400].
  destruct (truthy v); cbn [negb]; [|apply H400].
  destruct v as [| | |s| |];
    try (unfold throw; apply (H500 t []); [symmetry; apply app_nil_r | intros ? []]).
  destruct (JsString.length (trim s) =? 0); [apply H400|].
  cbn [List.length Nat.ltb Nat.leb].
  unfold bind at 1. unfold ret at 1. unfold bind.
  match goal with |- context [generateContent w ?i t] =>
    destruct (generateContent_no_profile w i t eq_refl) as (r & -> & Hr) end.
  cbn [voiceProfile ContentGenerator.topic ContentGenerator.contentType
       ContentGenerator.creativityLevel ContentGenerator.samplePosts
       ContentGenerator.trends] in *.
  destruct r as [out|e].
  - do 2 eexists. split; [reflexivity|]. rewrite sent_app. split.
    + intros posts [Hp|[]]. discriminate Hp.
    + intros _. do 2 eexists. split; [reflexivity|exact Hr].
  - eapply H500; [reflexivity|]. intros posts [Hp|[]]. discriminate Hp.
Qed.

Lemma generate_without_sample_posts_witness :
  exists resp t',
    GenerateRoute.POST Examples.one_variation (Some (Examples.topic_only "AI")) []
    = (Ok resp, t') /\
    (forall posts, ~ In (AnalyzeVoicePrompt posts) (sent [] t')) /\
    (status resp = 200 ->
     exists vars ms,
       data resp = PGenerate vars ms false /\ Forall scored_75 vars).
Proof.
  apply (generate_without_sample_posts Examples.one_variation
           (Examples.topic_only "AI") []).
  left. reflexivity.
Defined.

(* ------------------------------------------------------------------ *)
(** *** Code fences *)

Lemma strip_prefix_head (a b : code_unit) (p s : jsstring) :
  a <> b -> strip_prefix (a :: p) (b :: s) = None.
Proof.
  intro H. simpl. destruct (N.eqb_spec a b); [contradiction | reflexivity].
Qed.

Lemma split_at_first_fence (pre rest : jsstring) :
  ~ In backquote pre ->
  split_at_first fence (pre ++ fence ++ rest) = Some (pre, rest).
Proof.
  induction pre as [|c pre IH]; intro H.
  - reflexivity.
  - assert (Hc : c <> backquote) by (intro E; apply H; left; auto).
    assert (Hpre : ~ In backquote pre) by (intro E; apply H; right; auto).
    change ((c :: pre) ++ fence ++ rest) with (c :: (pre ++ fence ++ rest)).
    cbn [split_at_first].
    assert (Hs : strip_prefix fence (c :: pre ++ fence ++ rest) = None).
    { change fence with (backquote :: [backquote; backquote]).
      apply strip_prefix_head. intro E. apply Hc. symmetry. exact E. }
    rewrite Hs, (IH Hpre). reflexivity.
Qed.

Lemma trimStart_fence (a r : jsstring) :
  trimStart (a ++ fence ++ r) = trimStart a ++ fence ++ r.
Proof.
  induction a as [|c a IH]; [reflexivity|].
  cbn [app trimStart]. destruct (is_whitespace c); [exact IH | reflexivity].
Qed.

Lemma trimStart_In (c : code_unit) (s : jsstring) :
  In c (trimStart s) -> In c s.
Proof.
  induction s as [|d s IH]; simpl; [auto|].
  destruct (is_whitespace d); simpl; auto.
Qed.

Lemma trimStart_idem (s : jsstring) : trimStart (trimStart s) = trimStart s.
Proof.
  induction s as [|c s IH]; [reflexivity|].
  cbn [trimStart]. destruct (is_whitespace c) eqn:E; [exact IH|].
  cbn [trimStart]. rewrite E. reflexivity.
Qed.

Lemma strip_prefix_app_none (p a r : jsstring) :
  ~ In backquote p ->
  strip_prefix p a = None ->
  strip_prefix p (a ++ backquote :: r) = None.
Proof.
  revert a. induction p as [|x p IH]; intros a Hp H; [discriminate|].
  destruct a as [|y a].
  - apply strip_prefix_head. intro E. apply Hp. left. exact E.
  - simpl in *. destruct (N.eqb x y); [|reflexivity].
    apply IH; [|exact H]. intro E. apply Hp. right. exact E.
Qed.

Lemma strip_json_tag (body r : jsstring) :
  strip_prefix (lit "json") body = None ->
  strip_prefix (lit "json") (body ++ fence ++ r) = None.
Proof.
  apply strip_prefix_app_none. unfold backquote. cbn.
  intros [H|[H|[H|[H|[]]]]]; discriminate H.
Qed.

Lemma strip_prefix_Some (p s rest : jsstring) :
  strip_prefix p s = Some rest <-> s = p ++ rest.
Proof.
  revert s. induction p as [|a p IH]; intros s; simpl.
  - split; [intros [= ->]; reflexivity | intros ->; reflexivity].
  - destruct s as [|b s]; [split; discriminate|].
    destruct (N.eqb_spec a b) as [<- | Hne].
    + rewrite IH. split; [intros ->; reflexivity | intros [= ->]; reflexivity].
    + split; [discriminate | intros [= E _]; symmetry in E; contradiction].
Qed.

(** [split_at_first] finds the first occurrence, and only misses when
    there is none. *)
Lemma split_at_first_Some (p s before after : jsstring) :
  split_at_first p s = Some (before, after) -> first_occurrence p s before after.
Proof.
  revert before after. induction s as [|c s IH]; intros before after H.
  - cbn [split_at_first] in H.
    destruct (strip_prefix p []) as [rest|] eqn:E; [|discriminate].
    injection H as <- <-. apply strip_prefix_Some in E.
    split; [exact E | intros; apply Nat.le_0_l].
  - cbn [split_at_first] in H.
    destruct (strip_prefix p (c :: s)) as [rest|] eqn:E.
    + injection H as <- <-. apply strip_prefix_Some in E.
      split; [exact E | intros; apply Nat.le_0_l].
    + destruct (split_at_first p s) as [[b a]|] eqn:Es; [|discriminate].
      injection H as <- <-. destruct (IH b a eq_refl) as [Hs Hmin].
      split; [rewrite Hs; reflexivity|].
      intros [|c' b'] a' Hs'.
      * apply (proj2 (strip_prefix_Some p (c :: s) a')) in Hs'. congruence.
      * injection Hs' as _ Hs'. cbn [List.length]. apply le_n_S.
        apply (Hmin b' a'). exact Hs'.
Qed.

Lemma split_at_first_None (p s : jsstring) :
  split_at_first p s = None -> forall before after, s <> before ++ p ++ after.
Proof.
  induction s as [|c s IH]; intros H before after Hs.
  - cbn [split_at_first] in H.
    destruct (strip_prefix p []) as [rest|] eqn:E; [discriminate|].
    destruct before; [|discriminate Hs].
    apply (proj2 (strip_prefix_Some p [] after)) in Hs. congruence.
  - cbn [split_at_first] in H.
    destruct (strip_prefix p (c :: s)) as [rest|] eqn:E; [discriminate|].
    destruct (split_at_first p s) as [[b a]|] eqn:Es; [discriminate|].
    destruct before as [|c' before].
    + apply (proj2 (strip_prefix_Some p (c :: s) after)) in Hs. congruence.
    + injection Hs as _ Hs. exact (IH eq_refl before after Hs).
Qed.

Lemma app_same_length {A} (a a' b b' : list A) :
  List.length a = List.length a' -> a ++ b = a' ++ b' -> a = a' /\ b = b'.
Proof.
  revert a'. induction a as [|x a IH]; intros [|x' a'] Hlen H; try discriminate Hlen.
  - auto.
  - injection H as -> H. injection Hlen as Hlen.
    destruct (IH a' Hlen H) as [-> ->]. auto.
Qed.

Lemma first_occurrence_unique (p s before after before' after' : jsstring) :
  first_occurrence p s before after ->
  first_occurrence p s before' after' ->
  before = before' /\ after = after'.
Proof.
  intros [Hs Hmin] [Hs' Hmin'].
  assert (Hlen : List.length before = List.length before').
  { apply Nat.le_antisymm; [eapply Hmin | eapply Hmin']; eassumption. }
  rewrite Hs in Hs'. destruct (app_same_length _ _ _ _ Hlen Hs') as [Hb Ha].
  apply app_inv_head in Ha. auto.
Qed.

Lemma first_occurrence_split (p s before after : jsstring) :
  first_occurrence p s before after -> split_at_first p s = Some (before, after).
Proof.
  intro H. destruct (split_at_first p s) as [[b a]|] eqn:E.
  - apply split_at_first_Some in E.
    destruct (first_occurrence_unique _ _ _ _ _ _ E H) as [-> ->]. reflexivity.
  - destruct H as [Hs _]. exfalso. exact (split_at_first_None _ _ E _ _ Hs).
Qed.

(** The capture group is the content of the first fenced block, for
    every text. *)
Lemma code_block_Some (text captured : jsstring) :
  code_block text = Some captured -> first_fenced_block text (trim captured).
Proof.
  unfold code_block. intro H.
  destruct (split_at_first fence text) as [[before after]|] eqn:E1; [|discriminate].
  fold (after_tag after) in H.
  destruct (split_at_first fence (trimStart (after_tag after)))
    as [[body rest]|] eqn:E2; [|discriminate].
  injection H as <-. exists before, after, body, rest.
  split; [apply split_at_first_Some; exact E1|].
  split; [apply split_at_first_Some; exact E2 | reflexivity].
Qed.

Lemma first_fenced_block_code_block (text block : jsstring) :
  first_fenced_block text block ->
  exists captured, code_block text = Some captured /\ block = trim captured.
Proof.
  intros (before & after & body & rest & H1 & H2 & ->).
  exists body. split; [|reflexivity]. unfold code_block.
  rewrite (first_occurrence_split _ _ _ _ H1). fold (after_tag after).
  rewrite (first_occurrence_split _ _ _ _ H2). reflexivity.
Qed.

(** C5, as the code has it, for every reply text.  [generateJSON] calls
    the model once (no retry).  It returns the parse of the whole reply
    when that is valid JSON; otherwise, when the reply has a fenced
    block, the parse of the content of the FIRST fenced block (what
    stands between the first fence, an optional [json] tag and white
    space, and the next fence, trimmed) when that is valid JSON and null
    when it is not; otherwise (no fence, or no fence after the first)
    null. *)
Theorem generateJSON_first_fenced_block (w : World) (p : prompt) (t : trace) :
  match model w (List.length t) p with
  | Rejected => generateJSON w p t = (Throw ApiError, t ++ [p])
  | Message content =>
      let text := first_text content in
      generateJSON w p t = (Ok (parse_reply w text), t ++ [p]) /\
      (forall v, JSON_parse w text = Some v -> parse_reply w text = v) /\
      (JSON_parse w text = None ->
       forall block, first_fenced_block text block ->
         parse_reply w text
         = match JSON_parse w block with Some v => v | None => JNull end) /\
      (JSON_parse w text = None ->
       (forall block, ~ first_fenced_block text block) ->
       parse_reply w text = JNull)
  end.
Proof.
  unfold generateJSON, bind, generateText, ret.
  destruct (model w (List.length t) p) as [content|]; [|reflexivity].
  cbn zeta. split; [reflexivity|]. split; [|split].
  - intros v H. unfold parse_reply. rewrite H. reflexivity.
  - intros Hnone block Hblock. unfold parse_reply. rewrite Hnone.
    destruct (first_fenced_block_code_block _ _ Hblock) as (captured & -> & ->).
    reflexivity.
  - intros Hnone Hno. unfold parse_reply. rewrite Hnone.
    destruct (code_block (first_text content)) as [captured|] eqn:E; [|reflexivity].
    exfalso. exact (Hno _ (code_block_Some _ _ E)).
Qed.

Lemma generateJSON_first_fenced_block_witness :
  first_fenced_block Examples.fenced (Examples.text "{'variations':[]}") /\
  generateJSON (Examples.answering Examples.fenced) Examples.a_prompt []
  = (Ok (JObject [(lit "variations", JArray [])]), [Examples.a_prompt]).
Proof.
  assert (Hblock : first_fenced_block Examples.fenced
                     (Examples.text "{'variations':[]}")).
  { exists (Examples.text "Here you go: "),
           (Examples.text "json {'variations':[]} ``` Enjoy!"),
           (Examples.text "{'variations':[]} "), (Examples.text " Enjoy!").
    split; [apply split_at_first_Some; reflexivity|].
    split; [apply split_at_first_Some; reflexivity | reflexivity]. }
  split; [exact Hblock|].
  pose proof (generateJSON_first_fenced_block
                (Examples.answering Examples.fenced) Examples.a_prompt []) as H.
  cbn [model Examples.answering Examples.world first_text] in H.
  destruct H as (Hrun & _ & Hfence & _).
  rewrite Hrun, (Hfence eq_refl _ Hblock). reflexivity.
Defined.

(** C5 as stated fails: this reply contains a [```json] fence whose
    content is valid JSON, the reply as a whole is not JSON, and
    [generateJSON] returns null, because an earlier fenced block comes
    first. *)
Lemma generateJSON_second_block_lost :
  let w := Examples.answering Examples.two_blocks in
  JSON_parse w Examples.two_blocks = None /\
  Examples.two_blocks
  = Examples.text "Draft: ```oops``` Final: " ++ fence ++ lit "json"
    ++ Examples.text " {'variations':[]} " ++ fence ++ [] /\
  JSON_parse w (Examples.text " {'variations':[]} ")
  = Some (JObject [(lit "variations", JArray [])]) /\
  generateJSON w Examples.a_prompt [] = (Ok JNull, [Examples.a_prompt]).
Proof.
  repeat split.
Qed.

(* ------------------------------------------------------------------ *)
(** *** The trace only grows *)

Lemma extends_ret {A} (a : A) : extends (ret a).
Proof. intros t r t' H. injection H as _ <-. exists []. symmetry. apply app_nil_r. Qed.

Lemma extends_throw {A} (e : exn) : extends (@throw A e).
Proof. intros t r t' H. injection H as _ <-. exists []. symmetry. apply app_nil_r. Qed.

Lemma extends_lift {A} (x : result A) : extends (lift x).
Proof. intros t r t' H. injection H as _ <-. exists []. symmetry. apply app_nil_r. Qed.

Lemma extends_bind {A B} (m : M A) (f : A -> M B) :
  extends m -> (forall a, extends (f a)) -> extends (bind m f).
Proof.
  intros Hm Hf t r t' H. unfold bind in H.
  destruct (m t) as [[a|e] t1] eqn:E; destruct (Hm _ _ _ E) as [l1 ->].
  - destruct (Hf a _ _ _ H) as [l2 ->]. exists (l1 ++ l2). symmetry. apply app_assoc.
  - injection H as _ <-. eauto.
Qed.

Lemma extends_try_catch {A} (m : M A) (h : exn -> M A) :
  extends m -> (forall e, extends (h e)) -> extends (try_catch m h).
Proof.
  intros Hm Hh t r t' H. unfold try_catch in H.
  destruct (m t) as [[a|e] t1] eqn:E; destruct (Hm _ _ _ E) as [l1 ->].
  - injection H as _ <-. eauto.
  - destruct (Hh e _ _ _ H) as [l2 ->]. exists (l1 ++ l2). symmetry. apply app_assoc.
Qed.

Lemma extends_generateJSON (w : World) (p : prompt) : extends (generateJSON w p).
Proof.
  intros t r t' H. destruct (generateJSON_run w p t) as [r' E].
  rewrite E in H. injection H as _ <-. eauto.
Qed.

Lemma extends_promise_all {A} (l : list (M A)) :
  Forall extends l -> extends (promise_all l).
Proof.
  induction 1 as [|m l Hm _ IH]; [apply extends_ret|].
  intros t r t' H. simpl in H.
  destruct (m t) as [r1 t1] eqn:E1. destruct (Hm _ _ _ E1) as [l1 ->].
  destruct (promise_all l (t ++ l1)) as [rs t2] eqn:E2.
  destruct (IH _ _ _ E2) as [l2 ->].
  injection H as _ <-. exists (l1 ++ l2). symmetry. apply app_assoc.
Qed.

Create HintDb extends.
#[local] Hint Resolve extends_ret extends_throw extends_lift extends_generateJSON
  : extends.

Ltac extends_step :=
  match goal with
  | |- extends (bind _ _) => apply extends_bind; [|intro]
  | |- extends (try_catch _ _) => apply extends_try_catch; [|intro]
  | |- extends (if ?b then _ else _) => destruct b
  | |- extends (match ?x with _ => _ end) => destruct x
  | |- extends _ => solve [auto with extends]
  end.

Lemma extends_analyzeMultipleDecks (w : World) (decks : list ExtractedDeck) :
  extends (analyzeMultipleDecks w decks).
Proof.
  assert (Hc : forall ds acc, extends (collect_narratives w acc ds)).
  { induction ds as [|d ds IH]; intro acc; simpl; [auto with extends|].
    apply extends_bind; [|intro; apply IH].
    unfold analyzeDeck. repeat extends_step. }
  unfold analyzeMultipleDecks. destruct decks; [auto with extends|].
  apply extends_bind; [apply Hc|intro]. repeat extends_step.
Qed.

Lemma extends_with_decks (w : World) (ops : DeckOps) (result : json)
    (decks : option (list jsstring)) :
  extends (PillarsRoute.with_decks w ops result decks).
Proof.
  unfold PillarsRoute.with_decks.
  destruct decks as [[|d ds]|]; auto with extends.
  destruct (PillarsRoute.parse_decks ops (d :: ds)); [auto with extends|].
  apply extends_bind; [apply extends_analyzeMultipleDecks|intro].
  repeat extends_step.
Qed.

(* ------------------------------------------------------------------ *)
(** *** The posts the pillars route analyses *)

Lemma filter_posts_strings (submitted : list jsstring) :
  PillarsRoute.filter_posts (map JString submitted)
  = Ok (filter long_enough submitted).
Proof.
  induction submitted as [|p l IH]; [reflexivity|].
  cbn [map PillarsRoute.filter_posts filter]. rewrite IH. reflexivity.
Qed.

Lemma firstn_length_ge3 {A} (l : list A) :
  3 <= List.length l -> (List.length (firstn 20 l) <? 3) = false.
Proof.
  intro H. apply Nat.ltb_ge. rewrite length_firstn. lia.
Qed.

(** C2, as the code has it.  Of the submitted posts the route keeps, in
    order, those that pass its length filter: every post longer than 50
    characters once trimmed is kept and every post shorter than 50 is
    dropped.  With fewer than 3 kept posts it answers 400 'Posts are too
    short. Each post should be at least 50 characters.' without calling
    the model; otherwise the first 20 kept posts are what pillar
    discovery receives. *)
Theorem pillars_posts_filtered (w : World) (ops : DeckOps)
    (body : PillarsRoute.Body) (submitted : list jsstring) (t : trace) :
  PillarsRoute.posts body = Some (JArray (map JString submitted)) ->
  3 <= List.length submitted ->
  exists (keep : jsstring -> bool) (validPosts : list jsstring),
    validPosts = filter keep submitted /\
    (forall p, 50 < JsString.length (trim p) -> keep p = true) /\
    (forall p, JsString.length (trim p) < 50 -> keep p = false) /\
    (List.length validPosts < 3 ->
     PillarsRoute.POST w ops (Some body) t
     = (Ok (mkResponse 400 PNull
              (Some (lit "Posts are too short. Each post should be at least 50 characters."))),
        t)) /\
    (3 <= List.length validPosts ->
     exists r l,
       PillarsRoute.POST w ops (Some body) t
       = (r, t ++ DiscoverPillarsPrompt (firstn 20 validPosts) :: l)).
Proof.
  intros Hposts Hlen.
  exists long_enough, (filter long_enough submitted).
  split; [reflexivity|]. split; [|split; [|split]].
  - intros p H. apply Nat.ltb_lt. exact H.
  - intros p H. apply Nat.ltb_ge. lia.
  - intro H.
    unfold PillarsRoute.POST, PillarsRoute.handler, try_catch.
    unfold bind at 1. unfold request_json, ret at 1. rewrite Hposts.
    rewrite length_map. apply Nat.ltb_ge in Hlen. rewrite Hlen.
    unfold bind at 1, lift at 1. rewrite filter_posts_strings.
    apply Nat.ltb_lt in H. rewrite H. reflexivity.
  - intro H.
    unfold PillarsRoute.POST, PillarsRoute.handler.
    unfold bind at 1. unfold request_json, ret at 1. rewrite Hposts.
    rewrite length_map. apply Nat.ltb_ge in Hlen. rewrite Hlen.
    unfold bind at 1, lift at 1. rewrite filter_posts_strings.
    pose proof (firstn_length_ge3 _ H) as Hfirst.
    apply Nat.ltb_ge in H. rewrite H.
    set (posts := firstn 20 (filter long_enough submitted)) in *.
    set (rest := fun result : json => _).
    unfold try_catch, bind, discoverPillars. rewrite Hfirst.
    destruct (generateJSON_run w (DiscoverPillarsPrompt posts) t) as (r & ->).
    destruct r as [result|e].
    + assert (Hrest : extends (rest result)).
      { subst rest. cbv beta. destruct (negb (truthy result)); [auto with extends|].
        apply extends_bind; [apply extends_with_decks|intro].
        repeat extends_step. }
      destruct (rest result (t ++ [DiscoverPillarsPrompt posts])) as [r t'] eqn:E.
      destruct (Hrest _ _ _ E) as [l ->]. rewrite <- app_assoc.
      destruct r; [do 2 eexists; reflexivity|].
      unfold ret. do 2 eexists; reflexivity.
    + unfold ret. exists (Ok (fail 500 "Failed to discover pillars. Please try again.")), [].
      reflexivity.
Qed.

Lemma pillars_posts_filtered_witness :
  exists (keep : jsstring -> bool) (validPosts : list jsstring),
    validPosts = filter keep (repeat (Examples.post_of_length 60) 3) /\
    (forall p, 50 < JsString.length (trim p) -> keep p = true) /\
    (forall p, JsString.length (trim p) < 50 -> keep p = false) /\
    (List.length validPosts < 3 ->
     PillarsRoute.POST Examples.offline Examples.no_decks
       (Some (Examples.posts_only (repeat (Examples.post_of_length 60) 3))) []
     = (Ok (mkResponse 400 PNull
              (Some (lit "Posts are too short. Each post should be at least 50 characters."))),
        [])) /\
    (3 <= List.length validPosts ->
     exists r l,
       PillarsRoute.POST Examples.offline Examples.no_decks
         (Some (Examples.posts_only (repeat (Examples.post_of_length 60) 3))) []
       = (r, [] ++ DiscoverPillarsPrompt (firstn 20 validPosts) :: l)).
Proof.
  apply (pillars_posts_filtered Examples.offline Examples.no_decks
           (Examples.posts_only (repeat (Examples.post_of_length 60) 3))
           (repeat (Examples.post_of_length 60) 3) []).
  - reflexivity.
  - simpl. lia.
Defined.

(** C2 as stated fails: of 21 submitted posts of 60 and 61 characters,
    pillar discovery receives the first 20 only; the last one, 61
    characters long, is not passed on. *)
Lemma pillars_only_first_twenty :
  snd (PillarsRoute.POST Examples.offline Examples.no_decks
         (Some (Examples.posts_only Examples.twenty_one_posts)) [])
  = [DiscoverPillarsPrompt (repeat (Examples.post_of_length 60) 20)] /\
  nth_error Examples.twenty_one_posts 20 = Some (Examples.post_of_length 61) /\
  JsString.length (Examples.post_of_length 61) = 61 /\
  existsb (JsString.eqb (Examples.post_of_length 61))
    (repeat (Examples.post_of_length 60) 20) = false.
Proof.
  repeat split.
Qed.

(* ------------------------------------------------------------------ *)
(** *** What the content generator returns *)

Lemma generateJSON_Ok (w : World) (p : prompt) (t : trace) (reply : json)
    (t1 : trace) :
  generateJSON w p t = (Ok reply, t1) ->
  exists content,
    model w (List.length t) p = Message content /\
    reply = parse_reply w (first_text content) /\
    t1 = t ++ [p].
Proof.
  unfold generateJSON, bind, generateText, ret.
  destruct (model w (List.length t) p) as [content|]; intro H; [|discriminate].
  injection H as <- <-. eauto.
Qed.

Lemma scoreVoiceMatch_inv (w : World) (c : jsval) (profile : json) t s t1 :
  scoreVoiceMatch w c profile t = (Ok s, t1) ->
  t1 = t ++ [ScoreVoiceMatchPrompt c profile] /\
  exists reply_content,
    model w (List.length t) (ScoreVoiceMatchPrompt c profile) = Message reply_content /\
    let reply := parse_reply w (first_text reply_content) in
    if truthy reply
    then member (Some reply) "overall" = Ok (overall s) /\
         member (Some reply) "structure" = Ok (structure (breakdown s)) /\
         member (Some reply) "tone" = Ok (tone (breakdown s)) /\
         member (Some reply) "vocabulary" = Ok (vocabulary (breakdown s))
    else s = score_fallback.
Proof.
  unfold scoreVoiceMatch. intro H.
  apply bind_Ok in H as (u & t2 & Hu & H).
  unfold lift in Hu. injection Hu as _ <-.
  apply bind_Ok in H as (reply & t3 & Hr & H).
  apply generateJSON_Ok in Hr as (reply_content & Hmodel & -> & ->).
  cbn zeta.
  destruct (truthy (parse_reply w (first_text reply_content))) eqn:Ht;
    cbn [negb] in H.
  - apply bind_Ok in H as (o & ? & Ho & H).
    apply bind_Ok in H as (a & ? & Ha & H).
    apply bind_Ok in H as (b & ? & Hb & H).
    apply bind_Ok in H as (d & ? & Hd & H).
    unfold lift in *. injection Ho as Ho <-. injection Ha as Ha <-.
    injection Hb as Hb <-. injection Hd as Hd <-. injection H as <- <-.
    split; [reflexivity|]. exists reply_content. split; [exact Hmodel|].
    rewrite Ht. cbn. auto.
  - injection H as <- <-. split; [reflexivity|].
    exists reply_content. split; [exact Hmodel|]. rewrite Ht. reflexivity.
Qed.

Lemma score_variation_inv (w : World) (profile item : json) t v t1 :
  score_variation w profile item t = (Ok v, t1) ->
  built_from w (List.length t) profile item v /\
  t1 = t ++ scoring_prompts profile [v].
Proof.
  unfold score_variation, built_from, scoring_prompts. intro H.
  apply bind_Ok in H as (s & t2 & Hs & H).
  apply bind_Ok in H as (i & ? & Hi & H).
  apply bind_Ok in H as (c & ? & Hc & H).
  unfold lift in Hi, Hc. injection Hi as Hi <-. injection Hc as Hc <-.
  injection H as <- <-. cbn [id content voice_match_score voice_match_breakdown].
  destruct (truthy profile).
  - apply bind_Ok in Hs as (c' & ? & Hc' & Hs).
    unfold lift in Hc'. injection Hc' as Hc' <-.
    assert (c' = c) as -> by congruence.
    apply scoreVoiceMatch_inv in Hs as (-> & reply_content & Hmodel & Hscore).
    split; [|reflexivity]. split; [exact Hi|]. split; [exact Hc|].
    exists reply_content. cbn [content]. split; [exact Hmodel|].
    cbn zeta in *. cbn [voice_match_score voice_match_breakdown].
    destruct (truthy (parse_reply w (first_text reply_content)));
      [exact Hscore | subst s; split; reflexivity].
  - injection Hs as <- <-. rewrite app_nil_r.
    repeat split; assumption.
Qed.

Lemma built_in_order_no_profile (w : World) (profile : json) (k k' : nat)
    (items : list json) (vars : list Variation) :
  truthy profile = false ->
  built_in_order w profile k items vars -> built_in_order w profile k' items vars.
Proof.
  intro Hp. revert k k' vars.
  induction items as [|item items IH]; intros k k' [|v vars] H; try exact H.
  cbn [built_in_order] in *. destruct H as [Hv H]. split; [|eapply IH; exact H].
  unfold built_from in *. rewrite Hp in *. exact Hv.
Qed.

Lemma built_in_order_length (w : World) (profile : json) (k : nat)
    (items : list json) (vars : list Variation) :
  built_in_order w profile k items vars -> List.length vars = List.length items.
Proof.
  revert k vars. induction items as [|item items IH]; intros k [|v vars] H;
    try contradiction; [reflexivity|].
  cbn [built_in_order] in H. destruct H as [_ H].
  cbn [List.length]. f_equal. eapply IH. exact H.
Qed.

Lemma promise_all_built_in_order (w : World) (profile : json) (items : list json) :
  forall t vars t',
    promise_all (map (score_variation w profile) items) t = (Ok vars, t') ->
    built_in_order w profile (List.length t) items vars /\
    t' = t ++ scoring_prompts profile vars.
Proof.
  induction items as [|item items IH]; intros t vars t' H; simpl in H.
  - injection H as <- <-. split; [exact I|].
    unfold scoring_prompts. destruct (truthy profile); symmetry; apply app_nil_r.
  - destruct (score_variation w profile item t) as [r t1] eqn:E1.
    destruct (promise_all (map (score_variation w profile) items) t1)
      as [rs t2] eqn:E2.
    destruct r as [v|e]; [|discriminate].
    destruct rs as [vl|e]; [|discriminate].
    injection H as <- <-.
    apply score_variation_inv in E1 as [Hv ->].
    apply IH in E2 as [Hvl ->].
    cbn [built_in_order]. unfold scoring_prompts in *.
    destruct (truthy profile) eqn:Hp.
    + split; [split; [exact Hv|]|].
      * rewrite length_app, Nat.add_1_r in Hvl. exact Hvl.
      * rewrite <- app_assoc. reflexivity.
    + rewrite app_nil_r in *. split; [split; [exact Hv|] | reflexivity].
      eapply built_in_order_no_profile; [exact Hp | exact Hvl].
Qed.

Lemma generateContent_inv (w : World) (input : GenerationInput) t out t' :
  generateContent w input t = (Ok out, t') ->
  let p := GenerateContentPrompt (ContentGenerator.topic input)
             (ContentGenerator.contentType input)
             (ContentGenerator.creativityLevel input) (voiceProfile input)
             (ContentGenerator.samplePosts input) (ContentGenerator.trends input) in
  exists content items,
    model w (List.length t) p = Message content /\
    member (Some (parse_reply w (first_text content))) "variations"
    = Ok (Some (JArray items)) /\
    built_in_order w (voiceProfile input) (S (List.length t)) items (variations out) /\
    t' = t ++ p :: scoring_prompts (voiceProfile input) (variations out).
Proof.
  unfold generateContent. intro H. cbn zeta.
  apply bind_Ok in H as (u & t0 & H0 & H).
  assert (E0 : t0 = t).
  { destruct (truthy (voiceProfile input)); unfold lift, ret in H0; congruence. }
  subst t0. clear u H0.
  apply bind_Ok in H as (reply & t1 & Hreply & H).
  apply generateJSON_Ok in Hreply as (reply_content & Hmodel & -> & ->).
  destruct (truthy (parse_reply w (first_text reply_content))) eqn:Ht;
    cbn [negb] in H; [|discriminate].
  apply bind_Ok in H as (vs & ? & Hvs & H).
  unfold lift in Hvs. injection Hvs as Hvs <-.
  destruct (truthy_val vs) eqn:Hvt; cbn [negb] in H; [|discriminate].
  apply bind_Ok in H as (items & ? & Hitems & H).
  unfold lift in Hitems. injection Hitems as Hitems <-.
  apply bind_Ok in H as (scored & t2 & Hall & H).
  injection H as <- <-.
  destruct vs as [[| | | |l|]|]; try discriminate. injection Hitems as ->.
  apply promise_all_built_in_order in Hall as [Hbuilt ->].
  rewrite length_app, Nat.add_1_r in Hbuilt.
  exists reply_content, items. cbn [variations].
  split; [exact Hmodel|]. split; [exact Hvs|]. split; [exact Hbuilt|].
  rewrite <- app_assoc. reflexivity.
Qed.

(** C1, as the code has it.  A successful (HTTP 200) response of POST
    /api/generate carries no error and one variation per element of the
    [variations] array that [generateJSON] reads out of the model's reply
    to the generation prompt, in order (the count is the model's, not
    necessarily 3).  Each variation takes its id and content from its
    element and has a score and a structure/tone/vocabulary breakdown: 75
    throughout when no voice profile is used; with a profile, what the
    model's reply to the scoring prompt of that variation gives, 70
    throughout when no truthy JSON value is read out of it and otherwise
    its [overall], [structure], [tone] and [vocabulary] members as they
    are.  The calls are numbered: the analysis of the sample posts when
    there are any, the generation prompt, then one scoring prompt per
    variation. *)
Theorem generate_variations_follow_reply (w : World)
    (request : option GenerateRoute.Body) (t : trace) (resp : HttpResponse)
    (t' : trace) :
  GenerateRoute.POST w request t = (Ok resp, t') ->
  status resp = 200 ->
  error resp = None /\
  exists body topic,
    request = Some body /\
    GenerateRoute.topic body = Some (JString topic) /\
    let posts := default [] (GenerateRoute.samplePosts body) in
    let profile := analysed w (List.length t) posts in
    let k := generation_call t posts in
    let p := GenerateContentPrompt (trim topic)
               (default long (GenerateRoute.contentType body))
               (default 30%float (GenerateRoute.creativityLevel body))
               profile posts (default [] (GenerateRoute.trends body)) in
    exists content items vars ms,
      model w k p = Message content /\
      member (Some (parse_reply w (first_text content))) "variations"
      = Ok (Some (JArray items)) /\
      data resp = PGenerate vars ms (truthy profile) /\
      List.length vars = List.length items /\
      built_in_order w profile (S k) items vars /\
      sent t t'
      = match posts with [] => [] | _ :: _ => [AnalyzeVoicePrompt posts] end
        ++ p :: scoring_prompts profile vars.
Proof.
  unfold GenerateRoute.POST, try_catch. intros H Hst.
  destruct (GenerateRoute.handler w request t) as [[r|e] t1] eqn:E;
    [|injection H as <- _; discriminate Hst].
  injection H as -> ->.
  unfold GenerateRoute.handler in E.
  apply bind_Ok in E as (body & t2 & Hbody & E).
  destruct request as [body'|]; [|discriminate Hbody].
  injection Hbody as -> <-.
  destruct (GenerateRoute.topic body) as [v|] eqn:Htopic;
    [|injection E as <- _; discriminate Hst].
  destruct (negb (truthy v)); [injection E as <- _; discriminate Hst|].
  destruct v as [| | |s| |]; try discriminate E.
  destruct (JsString.length (trim s) =? 0);
    [injection E as <- _; discriminate Hst|].
  apply bind_Ok in E as (profile & t3 & Hprofile & E).
  apply bind_Ok in E as (out & t4 & Hgen & E).
  injection E as <- <-. cbn [error data respond]. split; [reflexivity|].
  exists body, s. split; [reflexivity|]. split; [exact Htopic|]. cbn zeta.
  assert (Hanalysed :
    profile = analysed w (List.length t) (default [] (GenerateRoute.samplePosts body)) /\
    List.length t3 = generation_call t (default [] (GenerateRoute.samplePosts body)) /\
    t3 = t ++ match default [] (GenerateRoute.samplePosts body) with
              | [] => []
              | _ :: _ => [AnalyzeVoicePrompt (default [] (GenerateRoute.samplePosts body))]
              end).
  { unfold analysed, generation_call.
    destruct (default [] (GenerateRoute.samplePosts body)) as [|post posts].
    - cbn in Hprofile. injection Hprofile as <- <-.
      rewrite Nat.add_0_r, app_nil_r. auto.
    - cbn [List.length Nat.ltb Nat.leb analyzeVoice] in Hprofile.
      apply generateJSON_Ok in Hprofile as (c0 & -> & -> & ->).
      rewrite length_app. auto. }
  destruct Hanalysed as (-> & Hk & Ht3).
  apply generateContent_inv in Hgen.
  cbn [voiceProfile ContentGenerator.topic ContentGenerator.contentType
       ContentGenerator.creativityLevel ContentGenerator.samplePosts
       ContentGenerator.trends] in Hgen. cbn zeta in Hgen.
  destruct Hgen as (content & items & Hmodel & Hvs & Hbuilt & ->).
  rewrite Hk in Hmodel, Hbuilt.
  exists content, items, (variations out), (generationTimeMs out).
  split; [exact Hmodel|]. split; [exact Hvs|]. split; [reflexivity|].
  split; [eapply built_in_order_length; exact Hbuilt|].
  split; [exact Hbuilt|].
  rewrite Ht3, <- app_assoc. apply sent_app.
Qed.

Lemma generate_variations_follow_reply_witness :
  let w := Examples.generous_scorer in
  let request := Some (Examples.topic_with_sample "AI") in
  exists resp t',
    GenerateRoute.POST w request [] = (Ok resp, t') /\
    status resp = 200 /\
    error resp = None /\
    exists body topic,
      request = Some body /\
      GenerateRoute.topic body = Some (JString topic) /\
      let posts := default [] (GenerateRoute.samplePosts body) in
      let profile := analysed w 0 posts in
      let k := generation_call [] posts in
      let p := GenerateContentPrompt (trim topic)
                 (default long (GenerateRoute.contentType body))
                 (default 30%float (GenerateRoute.creativityLevel body))
                 profile posts (default [] (GenerateRoute.trends body)) in
      exists content items vars ms,
        model w k p = Message content /\
        member (Some (parse_reply w (first_text content))) "variations"
        = Ok (Some (JArray items)) /\
        data resp = PGenerate vars ms (truthy profile) /\
        List.length vars = List.length items /\
        built_in_order w profile (S k) items vars /\
        sent [] t'
        = match posts with [] => [] | _ :: _ => [AnalyzeVoicePrompt posts] end
          ++ p :: scoring_prompts profile vars.
Proof.
  intros w request. do 2 eexists. split; [vm_compute; reflexivity|].
  split; [reflexivity|].
  apply (generate_variations_follow_reply w request []); reflexivity.
Defined.

(** C1 as stated fails: the model may answer the generation prompt with
    a single variation, and the route answers 200 with that one
    variation. *)
Lemma generate_single_variation :
  exists vars ms used t',
    GenerateRoute.POST Examples.one_variation (Some (Examples.topic_only "AI")) []
    = (Ok (mkResponse 200 (PGenerate vars ms used) None), t') /\
    List.length vars = 1.
Proof.
  do 4 eexists. split; reflexivity.
Qed.

(* ------------------------------------------------------------------ *)
(** *** Failures of the model *)






(* ------------------------------------------------------------------ *)
(** *** The response envelope *)

Lemma envelope_fail (st : nat) (msg : string) : st <> 200 -> envelope (fail st msg).
Proof. intro H. right. repeat split; [exact H | discriminate]. Qed.

Lemma envelope_respond (d : payload) : is_null d = false -> envelope (respond 200 d).
Proof. intro H. left. repeat split. exact H. Qed.

Lemma overflow_or_data (j : json) :
  truthy j = true ->
  envelope (respond 200 (PJson j)) \/ overflowed (respond 200 (PJson j)).
Proof.
  intro H. destruct j as [|b|x|s|l|o]; try discriminate H;
    try (left; apply envelope_respond; reflexivity).
  destruct (PrimFloat.is_nan x || PrimFloat.is_infinity x) eqn:E.
  - right. repeat split. exists x. split; [reflexivity|].
    unfold PrimFloat.is_finite. rewrite E. reflexivity.
  - left. apply envelope_respond. exact E.
Qed.

Create HintDb envelope.
#[local] Hint Resolve envelope_fail envelope_respond : envelope.
#[local] Hint Extern 1 (_ <> _) => discriminate : envelope.
#[local] Hint Extern 1 (is_null _ = false) => reflexivity : envelope.

Ltac returned H :=
  injection H as <- _; solve [auto with envelope].

Lemma answers_by_catch (P : HttpResponse -> Prop) (m : M HttpResponse)
    (msg : string) (t : trace) :
  P (fail 500 msg) ->
  (forall resp t', m t = (Ok resp, t') -> P resp) ->
  exists resp t', try_catch m (fun _ => ret (fail 500 msg)) t = (Ok resp, t') /\
                  P resp.
Proof.
  intros H500 H. unfold try_catch. destruct (m t) as [[resp|e] t1] eqn:E.
  - exists resp, t1. split; [reflexivity | eapply H; reflexivity].
  - do 2 eexists. split; [reflexivity | exact H500].
Qed.

Lemma generate_handler_envelope (w : World) request t resp t' :
  GenerateRoute.handler w request t = (Ok resp, t') -> envelope resp.
Proof.
  unfold GenerateRoute.handler. intro E.
  apply bind_Ok in E as (body & t2 & Hb & E).
  destruct (GenerateRoute.topic body) as [v|]; [|returned E].
  destruct (negb (truthy v)); [returned E|].
  destruct v as [| | |s| |]; try discriminate E.
  destruct (JsString.length (trim s) =? 0); [returned E|].
  apply bind_Ok in E as (profile & t3 & Hp & E).
  apply bind_Ok in E as (out & t4 & Hgen & E).
  returned E.
Qed.

Lemma with_decks_envelope (w : World) (ops : DeckOps) result decks t resp t' :
  PillarsRoute.with_decks w ops result decks t = (Ok (Some resp), t') ->
  envelope resp.
Proof.
  unfold PillarsRoute.with_decks. intro E.
  destruct decks as [[|d ds]|]; try discriminate E.
  destruct (PillarsRoute.parse_decks ops (d :: ds)); [discriminate E|].
  apply bind_Ok in E as (analysis & t1 & Ha & E).
  destruct analysis as [analysis|]; [|discriminate E].
  apply bind_Ok in E as (pillars & t2 & H1 & E).
  apply bind_Ok in E as (enriched & t3 & H2 & E).
  apply bind_Ok in E as (rs & t4 & H3 & E).
  apply bind_Ok in E as (u1 & t5 & H4 & E).
  apply bind_Ok in E as (dna & t6 & H5 & E).
  apply bind_Ok in E as (u2 & t7 & H6 & E).
  injection E as <- _. auto with envelope.
Qed.

Lemma pillars_handler_envelope (w : World) (ops : DeckOps) request t resp t' :
  PillarsRoute.handler w ops request t = (Ok resp, t') ->
  envelope resp \/ overflowed resp.
Proof.
  unfold PillarsRoute.handler. intro E.
  apply bind_Ok in E as (body & t2 & Hb & E).
  destruct (PillarsRoute.posts body) as [[| | | |submitted|]|];
    try solve [left; returned E].
  destruct (List.length submitted <? 3); [left; returned E|].
  apply bind_Ok in E as (validPosts & t3 & Hv & E).
  destruct (List.length validPosts <? 3); [left; returned E|].
  apply bind_Ok in E as (result & t4 & Hr & E).
  destruct (truthy result) eqn:Ht; cbn [negb] in E; [|left; returned E].
  apply bind_Ok in E as (early & t5 & He & E).
  destruct early as [response|].
  - injection E as <- _. left. eapply with_decks_envelope. exact He.
  - injection E as <- _. apply overflow_or_data. exact Ht.
Qed.

Lemma suggestTopics_truthy (w : World) pillars voiceSummary recentTopics count
    t topics t' :
  suggestTopics w pillars voiceSummary recentTopics count t = (Ok topics, t') ->
  truthy topics = true.
Proof.
  unfold suggestTopics. intro E.
  destruct pillars; [injection E as <- _; reflexivity|].
  apply bind_Ok in E as (result & t2 & Hr & E).
  assert (Hsome : forall v : jsval, forall t3,
    match v with
    | Some v => if truthy v then ret v else ret (JArray [])
    | None => ret (JArray [])
    end t3 = (Ok topics, t') -> truthy topics = true).
  { intros [v|] t3 H; [|injection H as <- _; reflexivity].
    destruct (truthy v) eqn:Hv; injection H as <- _; [exact Hv | reflexivity]. }
  destruct result; try (injection E as <- _; reflexivity);
    apply bind_Ok in E as (v & t3 & _ & E); eapply Hsome; exact E.
Qed.

Lemma topics_handler_envelope (w : World) request t resp t' :
  TopicsRoute.handler w request t = (Ok resp, t') ->
  envelope resp \/ overflowed resp.
Proof.
  unfold TopicsRoute.handler. intro E.
  apply bind_Ok in E as (body & t2 & Hb & E).
  destruct (TopicsRoute.pillars body) as [[|p ps]|]; try solve [left; returned E].
  destruct (TopicsRoute.voiceSummary body) as [[|c s]|];
    try solve [left; returned E].
  apply bind_Ok in E as (topics & t3 & Ht & E).
  injection E as <- _. apply overflow_or_data.
  eapply suggestTopics_truthy. exact Ht.
Qed.

Lemma trends_handler_envelope (w : World) request t resp t' :
  TrendsRoute.handler w request t = (Ok resp, t') -> envelope resp.
Proof.
  unfold TrendsRoute.handler. intro E.
  apply bind_Ok in E as (body & t2 & Hb & E).
  destruct (TrendsRoute.pillars body) as [[|p ps]|]; try solve [returned E].
  destruct (TrendsRoute.voiceSummary body) as [[|c s]|]; try solve [returned E].
  apply bind_Ok in E as (scored & t3 & Ht & E).
  returned E.
Qed.

Lemma overflowed_not_envelope (resp : HttpResponse) :
  overflowed resp -> ~ envelope resp.
Proof.
  intros (Hst & _ & x & Hdata & Hx) [(_ & _ & Hnull) | (Hne & _)];
    [|contradiction].
  rewrite Hdata in Hnull. cbn [is_null] in Hnull.
  unfold PrimFloat.is_finite in Hx. rewrite Hnull in Hx. discriminate Hx.
Qed.

(** C7 at the failing input.  Three long posts are submitted to POST
    /api/discover/pillars and the model answers [1e999], which
    [JSON.parse] reads as Infinity.  Infinity is truthy, so the guard
    [if (!result)] lets it through, and the route answers 200 with
    [data: Infinity, error: null]; serialised, the body is
    [{ data: null, error: null }]: both fields are null, which is no
    envelope. *)
Theorem pillars_overflow_breaks_envelope :
  let resp := mkResponse 200 (PJson (JNumber PrimFloat.infinity)) None in
  PillarsRoute.POST Examples.overflowing Examples.no_decks
    (Some Examples.three_posts) []
  = (Ok resp, [DiscoverPillarsPrompt (repeat (Examples.post_of_length 60) 3)]) /\
  status resp = 200 /\
  error resp = None /\
  is_null (data resp) = true /\
  ~ envelope resp.
Proof.
  cbn zeta. split; [vm_compute; reflexivity|].
  split; [reflexivity|]. split; [reflexivity|]. split; [reflexivity|].
  apply overflowed_not_envelope. repeat split.
  exists PrimFloat.infinity. split; reflexivity.
Qed.

(* ------------------------------------------------------------------ *)
(** *** The trend scorer *)

(** C8 on a concrete run.  The model scores the first mock trend 60 and
    the second 90 (the others 0); with the default minimum of 60 both are
    returned, in the order 60, 90.  A scored trend carries the model's
    [relevanceScore]; the member [relevance_score], which the sort
    compares, is undefined on it, so the sort leaves the order as it is. *)
Lemma trends_returned_unsorted :
  exists scored t',
    TrendsRoute.POST Examples.trend_scores (Some Examples.one_pillar) []
    = (Ok (mkResponse 200 (PTrends scored) None), t') /\
    map (lookup (lit "title")) scored
    = [Some (JString (lit "AI agents are replacing junior developers in 2026"));
       Some (JString (lit "Remote work exodus: Companies mandate 4-day office returns"))] /\
    map (lookup (lit "relevanceScore")) scored
    = [Some (JNumber 60); Some (JNumber 90)] /\
    map (lookup (lit "relevance_score")) scored = [None; None].
Proof.
  do 2 eexists. split; [vm_compute; reflexivity|]. repeat split.
Qed.

Lemma lookup_app (k : jsstring) (a b : object) :
  lookup k (a ++ b) = match lookup k a with Some v => Some v | None => lookup k b end.
Proof.
  induction a as [|[k' v] a IH]; [reflexivity|].
  simpl. destruct (JsString.eqb k k'); [reflexivity | exact IH].
Qed.

Lemma sort_without_relevance_score (w : World) (l : list object) :
  Forall lacks_relevance_score l -> sort (by_relevance_score w) l = Ok l.
Proof.
  induction 1 as [|a l Ha Hl IH]; [reflexivity|].
  unfold sort in *. cbn [fold_right]. rewrite IH. cbn [rbind].
  destruct Hl as [|b l Hb Hl]; [reflexivity|].
  cbn [insert_sorted]. unfold by_relevance_score.
  unfold lacks_relevance_score in Ha, Hb. rewrite Ha, Hb. reflexivity.
Qed.

Lemma score_loop_lacks (w : World) pillars voiceSummary minimum :
  replies_lack_relevance_score w ->
  forall ts acc t r t',
    Forall lacks_relevance_score acc ->
    score_loop w pillars voiceSummary minimum acc ts t = (r, t') ->
    exists l, r = Ok l /\ Forall lacks_relevance_score l.
Proof.
  intro Hw. induction ts as [|trend ts IH]; intros acc t r t' Hacc H.
  - injection H as <- _. eauto.
  - cbn [score_loop] in H. unfold bind at 1 in H.
    assert (Hone : exists acc' t1,
      score_one w pillars voiceSummary minimum acc trend t = (Ok acc', t1) /\
      Forall lacks_relevance_score acc').
    { unfold score_one, try_catch, bind at 1, scoreTrendRelevance, bind at 1,
        generateJSON, bind, generateText, ret, lift.
      specialize (Hw (List.length t)
                    (ScoreTrendPrompt (title trend) (summary trend) pillars voiceSummary)).
      destruct (model w (List.length t) _) as [content|]; [|eauto].
      set (reply := parse_reply w (first_text content)) in *.
      assert (Hscoring : lacks_relevance_score
                (own_members (if truthy reply then reply else default_scoring))).
      { destruct (truthy reply); [exact Hw | reflexivity]. }
      destruct (member _ "relevanceScore") as [score|e]; [|eauto].
      destruct (ge_number w score minimum) as [[|]|e]; [|eauto|eauto].
      do 2 eexists. split; [reflexivity|].
      apply Forall_app. split; [exact Hacc|]. constructor; [|constructor].
      unfold lacks_relevance_score, spread in *.
      rewrite !lookup_app, Hscoring. reflexivity. }
    destruct Hone as (acc' & t1 & Hone & Hacc'). rewrite Hone in H.
    eapply IH; eauto.
Qed.

(** The same happens on every run in which the model answers as the
    scoring prompt asks, with [relevanceScore]: the comparator is NaN on
    every pair, and the trends come back in the order they were scored. *)
Lemma trends_never_sorted (w : World) trends pillars voiceSummary minimum t :
  replies_lack_relevance_score w ->
  exists l t',
    score_loop w pillars voiceSummary
      (match minimum with Some m => m | None => 60%float end) [] trends t
    = (Ok l, t') /\
    scoreAndFilterTrends w trends pillars voiceSummary minimum t = (Ok l, t') /\
    Forall lacks_relevance_score l.
Proof.
  intro Hw. unfold scoreAndFilterTrends, bind.
  destruct (score_loop w pillars voiceSummary _ [] trends t) as [r t'] eqn:E.
  destruct (score_loop_lacks w _ _ _ Hw _ _ _ _ _ (Forall_nil _) E) as (l & -> & Hl).
  exists l, t'. unfold lift. rewrite (sort_without_relevance_score w l Hl). auto.
Qed.

(* ------------------------------------------------------------------ *)
(** *** Further runs *)

(** With a voice profile the score of a variation is the scoring reply's,
    unchecked: here 150. *)
Example generate_score_unchecked :
  exists v ms t',
    GenerateRoute.POST Examples.generous_scorer
      (Some (Examples.topic_with_sample "AI")) []
    = (Ok (mkResponse 200 (PGenerate [v] ms true) None), t') /\
    voice_match_score v = num 150 /\
    List.length t' = 3.
Proof.
  do 3 eexists. split; [vm_compute; reflexivity|]. split; reflexivity.
Qed.

(** Three posts of exactly 50 characters do not pass the length filter
    of the pillars route. *)
Example pillars_posts_of_50 :
  PillarsRoute.POST Examples.offline Examples.no_decks
    (Some (Examples.posts_only (repeat (Examples.post_of_length 50) 3))) []
  = (Ok (mkResponse 400 PNull
           (Some (lit "Posts are too short. Each post should be at least 50 characters."))),
     []).
Proof. reflexivity. Qed.

(** The message of the pillars route does say 'please try again'. *)
Example pillars_failure_says_try_again :
  says_try_again
    (fail 500 "Failed to discover pillars. Please try again.") = true.
Proof. reflexivity. Qed.

(** An unparsable reply in POST /api/discover/topics is answered 200
    with an empty list. *)
Example topics_unparsable_is_200 :
  exists t',
    TopicsRoute.POST (Examples.answering (lit "Sorry, I cannot help."))
      (Some Examples.one_topic_pillar) []
    = (Ok (mkResponse 200 (PJson (JArray [])) None), t').
Proof. eexists. reflexivity. Qed.

(** What the JSON reader of the examples makes of their texts. *)
Example parse_one_variation :
  JsonText.parse
    (Examples.text "{'variations':[{'id':'var-1','content':'Hello','approach':'direct'}]}")
  = Some (JObject
            [(lit "variations",
              JArray [JObject [(lit "id", JString (lit "var-1"));
                               (lit "content", JString (lit "Hello"));
                               (lit "approach", JString (lit "direct"))]])]).
Proof. reflexivity. Qed.

Example parse_relevance_score :
  JsonText.parse (Examples.text "{'relevanceScore':60}")
  = Some (JObject [(lit "relevanceScore", JNumber 60)]).
Proof. reflexivity. Qed.

Example parse_prose_fails :
  JsonText.parse (lit "Sorry, I cannot help.") = None /\
  JsonText.parse (lit "oops") = None.
Proof. split; reflexivity. Qed.

(* ================================================================== *)
(** ** Further properties of the code *)
(* ================================================================== *)

(* ------------------------------------------------------------------ *)
(** *** truncate *)

Lemma slice_to_length (s : jsstring) (e : Z) :
  (0 <= e)%Z ->
  Z.of_nat (List.length (FormattingText.slice_to s e))
  = Z.min e (Z.of_nat (List.length s)).
Proof.
  intro H. unfold FormattingText.slice_to.
  destruct (Z.ltb_spec e 0); [lia|]. rewrite length_firstn. lia.
Qed.

(** X1. With an integer limit of at least 3, [truncate] never returns
    more than [maxLength] characters: a text within the limit is returned
    as it is, and a longer text is cut to its first [maxLength - 3]
    characters followed by [...], exactly [maxLength] characters in
    all. *)
Theorem truncate_fits (text : jsstring) (maxLength : Z) :
  (3 <= maxLength)%Z ->
  (Z.of_nat (List.length (FormattingText.truncate text maxLength)) <= maxLength)%Z /\
  ((Z.of_nat (List.length text) <= maxLength)%Z ->
   FormattingText.truncate text maxLength = text) /\
  ((maxLength < Z.of_nat (List.length text))%Z ->
   FormattingText.truncate text maxLength
   = firstn (Z.to_nat (maxLength - 3)) text ++ lit "..." /\
   Z.of_nat (List.length (FormattingText.truncate text maxLength)) = maxLength).
Proof.
  intro H. unfold FormattingText.truncate.
  destruct (Z.leb_spec (Z.of_nat (List.length text)) maxLength) as [Hle|Hgt].
  - split; [exact Hle|]. split; [reflexivity | lia].
  - assert (Hlen : Z.of_nat (List.length
             (FormattingText.slice_to text (maxLength - 3) ++ lit "...")) = maxLength).
    { rewrite length_app, Nat2Z.inj_add, slice_to_length by lia.
      change (Z.of_nat (List.length (lit "..."))) with 3%Z. lia. }
    split; [lia|]. split; [lia|]. intros _. split; [|exact Hlen].
    unfold FormattingText.slice_to.
    destruct (Z.ltb_spec (maxLength - 3) 0); [lia|].
    rewrite Z.min_l by lia. reflexivity.
Qed.

Lemma truncate_fits_witness :
  FormattingText.truncate (lit "The quick brown fox") 10 = lit "The qui..." /\
  FormattingText.truncate (lit "The fox") 10 = lit "The fox".
Proof.
  split.
  - destruct (truncate_fits (lit "The quick brown fox") 10 ltac:(lia))
      as (_ & _ & H).
    destruct H as [H _]; [simpl; lia|].
    rewrite H. reflexivity.
  - destruct (truncate_fits (lit "The fox") 10 ltac:(lia)) as (_ & H & _).
    apply H. simpl. lia.
Defined.

(** X2. With a limit below 3, a text longer than the limit is not
    brought within it: the result always ends in [...] and is longer
    than [maxLength]. *)
Theorem truncate_overshoots (text : jsstring) (maxLength : Z) :
  (maxLength < 3)%Z ->
  (maxLength < Z.of_nat (List.length text))%Z ->
  exists kept,
    FormattingText.truncate text maxLength = kept ++ lit "..." /\
    (maxLength < Z.of_nat (List.length (FormattingText.truncate text maxLength)))%Z.
Proof.
  intros H3 Hlen. unfold FormattingText.truncate.
  destruct (Z.leb_spec (Z.of_nat (List.length text)) maxLength); [lia|].
  eexists. split; [reflexivity|].
  rewrite length_app, Nat2Z.inj_add.
  change (Z.of_nat (List.length (lit "..."))) with 3%Z. lia.
Qed.

Lemma truncate_overshoots_witness :
  exists kept,
    FormattingText.truncate (lit "abcdefghij") 2 = kept ++ lit "..." /\
    (2 < Z.of_nat (List.length (FormattingText.truncate (lit "abcdefghij") 2)))%Z.
Proof.
  apply truncate_overshoots; simpl; lia.
Defined.

(* ------------------------------------------------------------------ *)
(** *** generateTrendSources *)

Lemma pillar_keywords_origin (pillars : list Pillar) (k : jsstring) :
  In k (TrendSources.pillar_keywords pillars) ->
  exists p, In p pillars /\
            (k = pillar_name p \/ In k (firstn 2 (pillar_example_topics p))).
Proof.
  unfold TrendSources.pillar_keywords. intro H.
  apply in_flat_map in H as (p & Hp & [Hk|Hk]); eauto.
Qed.

Lemma In_firstn {A} (n : nat) (l : list A) (x : A) : In x (firstn n l) -> In x l.
Proof.
  revert l. induction n as [|n IH]; intros [|a l]; simpl; try tauto.
  intros [H|H]; auto.
Qed.

(** X3. Every search keyword that [generateTrendSources] hands out, for
    either platform, is the name of one of the pillars or one of the
    first two example topics of a pillar; without pillars every source
    has no keyword. *)
Theorem trend_keywords_come_from_pillars (toLowerCase : jsstring -> jsstring)
    (pillars : list Pillar) (platform : option TrendSources.Platform)
    (source : TrendSources.TrendSource) (k : jsstring) :
  In source (TrendSources.generateTrendSources toLowerCase pillars platform) ->
  In k (TrendSources.keywords source) ->
  exists p, In p pillars /\
            (k = pillar_name p \/ In k (firstn 2 (pillar_example_topics p))).
Proof.
  intros Hs Hk. apply pillar_keywords_origin.
  unfold TrendSources.generateTrendSources in Hs.
  assert (Hfirst : In k (firstn 5 (TrendSources.pillar_keywords pillars)) ->
                   In k (TrendSources.pillar_keywords pillars))
    by apply In_firstn.
  assert (Hfilter : In k (filter (TrendSources.is_tech_keyword toLowerCase)
                            (TrendSources.pillar_keywords pillars)) ->
                    In k (TrendSources.pillar_keywords pillars))
    by (intro H; apply filter_In in H; apply H).
  destruct platform as [[|]|]; simpl in Hs.
  - destruct Hs as [<-|[<-|[]]]; auto.
  - destruct Hs as [<-|[]]; auto.
  - destruct Hs as [<-|[<-|[]]]; auto.
Qed.

(** X4. For LinkedIn (the default) there are two sources, 'LinkedIn News'
    and 'Tech News', for Instagram one, 'Instagram Trends'; every source
    but 'Tech News' carries at most 5 keywords, and the keywords of 'Tech
    News' are exactly the pillar keywords that mention tech, startup or
    engineering. *)
Theorem trend_sources_shape (toLowerCase : jsstring -> jsstring)
    (pillars : list Pillar) (platform : option TrendSources.Platform) :
  map TrendSources.name
      (TrendSources.generateTrendSources toLowerCase pillars platform)
  = match platform with
    | Some TrendSources.instagram => [lit "Instagram Trends"]
    | _ => [lit "LinkedIn News"; lit "Tech News"]
    end /\
  Forall (fun s =>
            if JsString.eqb (TrendSources.name s) (lit "Tech News")
            then TrendSources.keywords s
                 = filter (TrendSources.is_tech_keyword toLowerCase)
                     (TrendSources.pillar_keywords pillars)
            else List.length (TrendSources.keywords s) <= 5)
         (TrendSources.generateTrendSources toLowerCase pillars platform).
Proof.
  unfold TrendSources.generateTrendSources.
  assert (H5 : forall l : list jsstring, List.length (firstn 5 l) <= 5)
    by (intro l; rewrite length_firstn; lia).
  destruct platform as [[|]|]; (split; [reflexivity|]);
    repeat first [apply Forall_cons | apply Forall_nil];
    first [apply H5 | reflexivity].
Qed.

Lemma trend_keywords_come_from_pillars_witness :
  exists p,
    In p [mkPillar (lit "Tech Hiring") (lit "Hiring engineers") [lit "Interviews"]] /\
    (lit "Interviews" = pillar_name p \/
     In (lit "Interviews") (firstn 2 (pillar_example_topics p))).
Proof.
  apply (trend_keywords_come_from_pillars toLowerCase_ascii
           [mkPillar (lit "Tech Hiring") (lit "Hiring engineers") [lit "Interviews"]]
           None
           (TrendSources.mkSource (lit "LinkedIn News")
              (lit "https://www.linkedin.com/news")
              [lit "Tech Hiring"; lit "Interviews"])).
  - left. reflexivity.
  - right. left. reflexivity.
Defined.

(* ------------------------------------------------------------------ *)
(** *** scanTrends *)

Lemma eqb_true_iff (a b : jsstring) : JsString.eqb a b = true <-> a = b.
Proof.
  unfold JsString.eqb. destruct (list_eq_dec N.eq_dec a b); split; congruence.
Qed.

Lemma map_set_keys {V} (k : jsstring) (v : V) (m : list (jsstring * V)) :
  map fst (TrendSources.map_set k v m)
  = if existsb (JsString.eqb k) (map fst m) then map fst m else map fst m ++ [k].
Proof.
  induction m as [|[k' v'] m IH]; [reflexivity|].
  simpl. destruct (JsString.eqb k k') eqn:E.
  - apply eqb_true_iff in E. subst. reflexivity.
  - simpl. rewrite IH. destruct (existsb _ _); reflexivity.
Qed.

Lemma map_set_In {V} (k : jsstring) (v : V) (m : list (jsstring * V)) kv :
  In kv (TrendSources.map_set k v m) -> kv = (k, v) \/ In kv m.
Proof.
  induction m as [|[k' v'] m IH]; simpl.
  - intros [H|[]]; auto.
  - destruct (JsString.eqb k k'); simpl; intros [H|H]; auto.
    destruct (IH H); auto.
Qed.

Lemma map_set_length {V} (k : jsstring) (v : V) (m : list (jsstring * V)) :
  List.length (TrendSources.map_set k v m) <= S (List.length m).
Proof.
  induction m as [|[k' v'] m IH]; simpl; [lia|].
  destruct (JsString.eqb k k'); simpl; lia.
Qed.

Lemma map_set_NoDup {V} (k : jsstring) (v : V) (m : list (jsstring * V)) :
  NoDup (map fst m) -> NoDup (map fst (TrendSources.map_set k v m)).
Proof.
  intro H. rewrite map_set_keys.
  destruct (existsb (JsString.eqb k) (map fst m)) eqn:E; [exact H|].
  apply NoDup_app; [exact H | repeat constructor; intros [] | ].
  intros x Hx [Ex|[]]. subst x.
  assert (existsb (JsString.eqb k) (map fst m) = true); [|congruence].
  apply existsb_exists. exists k. split; [exact Hx | apply eqb_true_iff; reflexivity].
Qed.

(** What the map of [uniqueTrends] holds after any number of trends:
    distinct keys, each the lowercased title of its value, and values
    taken from the trends given. *)
Lemma uniqueTrends_map (toLowerCase : jsstring -> jsstring)
    (allTrends : list ScannedTrend) (m0 : list (jsstring * ScannedTrend)) :
  let m := fold_left
             (fun m t => TrendSources.map_set (toLowerCase (title t)) t m)
             allTrends m0 in
  (NoDup (map fst m0) -> NoDup (map fst m)) /\
  (Forall (fun kv => fst kv = toLowerCase (title (snd kv))) m0 ->
   Forall (fun kv => fst kv = toLowerCase (title (snd kv))) m) /\
  (forall kv, In kv m -> In kv m0 \/ In (snd kv) allTrends) /\
  List.length m <= List.length m0 + List.length allTrends.
Proof.
  revert m0. induction allTrends as [|t l IH]; intro m0; cbn zeta.
  - simpl. repeat split; auto. lia.
  - cbn [fold_left].
    destruct (IH (TrendSources.map_set (toLowerCase (title t)) t m0))
      as (Hd & Hk & Hin & Hlen).
    split; [|split; [|split]].
    + intro H. apply Hd, map_set_NoDup, H.
    + intro H. apply Hk. apply Forall_forall. intros kv Hkv.
      apply map_set_In in Hkv as [-> | Hkv]; [reflexivity|].
      rewrite Forall_forall in H. apply H, Hkv.
    + intros kv Hkv. destruct (Hin kv Hkv) as [H|H].
      * apply map_set_In in H as [-> | H]; [right; left; reflexivity | left; exact H].
      * right. right. exact H.
    + pose proof (map_set_length (toLowerCase (title t)) t m0). simpl. lia.
Qed.

(** X5. The trends [scanTrends] returns have pairwise distinct titles,
    compared without regard to case: no two of them have the same
    lowercased title. *)
Theorem scanTrends_titles_distinct (toLowerCase : jsstring -> jsstring)
    (firecrawlSearch : nat -> jsstring -> option (list TrendSources.SearchResult))
    (toISOString_after : nat -> jsstring)
    (sources : list TrendSources.TrendSource) :
  NoDup (map (fun t => toLowerCase (title t))
           (fst (TrendSources.scanTrends toLowerCase firecrawlSearch
                   toISOString_after sources))).
Proof.
  unfold TrendSources.scanTrends.
  destruct (TrendSources.scan_sources _ _ sources 0 []) as [n allTrends].
  cbn [fst]. unfold TrendSources.uniqueTrends.
  destruct (uniqueTrends_map toLowerCase allTrends []) as (Hd & Hk & _ & _).
  cbn zeta in Hd, Hk.
  set (m := fold_left _ allTrends []) in *.
  rewrite map_map.
  replace (map (fun x => toLowerCase (title (snd x))) m) with (map fst m).
  - apply Hd. constructor.
  - specialize (Hk (Forall_nil _)). clear Hd. clearbody m.
    induction Hk as [|kv m Hkv _ IH]; [reflexivity|].
    cbn [map]. rewrite Hkv, IH. reflexivity.
Qed.

Section ScanTrends.

Variable toLowerCase : jsstring -> jsstring.
Variable firecrawlSearch : nat -> jsstring -> option (list TrendSources.SearchResult).
Variable toISOString_after : nat -> jsstring.

Let scan_keywords := TrendSources.scan_keywords firecrawlSearch toISOString_after.
Let scan_sources := TrendSources.scan_sources firecrawlSearch toISOString_after.

Lemma scan_keywords_bound (source : TrendSources.TrendSource)
    (kws : list jsstring) (n : nat) (allTrends : list ScannedTrend) :
  let (n', allTrends') := scan_keywords source kws n allTrends in
  n <= n' <= n + List.length kws /\
  List.length allTrends' <= List.length allTrends + 5 * (n' - n).
Proof.
  revert n allTrends. induction kws as [|k kws IH]; intros n allTrends.
  - simpl. lia.
  - unfold scan_keywords. cbn [TrendSources.scan_keywords].
    destruct (firecrawlSearch n k) as [results|]; [|simpl; lia].
    specialize (IH (S n)
      (allTrends ++ map (TrendSources.to_trend toISOString_after source k (S n))
                      (firstn 5 results))).
    unfold scan_keywords in IH.
    destruct (TrendSources.scan_keywords _ _ source kws (S n) _) as [n' all'].
    rewrite length_app, length_map, length_firstn in IH. simpl. lia.
Qed.

Lemma scan_sources_bound (sources : list TrendSources.TrendSource)
    (n : nat) (allTrends : list ScannedTrend) :
  let (n', allTrends') := scan_sources sources n allTrends in
  n <= n' <= n + 3 * List.length sources /\
  List.length allTrends' <= List.length allTrends + 5 * (n' - n).
Proof.
  revert n allTrends. induction sources as [|s sources IH]; intros n allTrends.
  - simpl. lia.
  - unfold scan_sources. cbn [TrendSources.scan_sources].
    pose proof (scan_keywords_bound s (firstn 3 (TrendSources.keywords s)) n allTrends) as Hk.
    unfold scan_keywords in Hk.
    destruct (TrendSources.scan_keywords _ _ s _ n allTrends) as [n1 all1].
    specialize (IH n1 all1). unfold scan_sources in IH.
    destruct (TrendSources.scan_sources _ _ sources n1 all1) as [n' all'].
    rewrite length_firstn in Hk. simpl. lia.
Qed.

(** X6. A scan makes at most 3 searches per source and returns at most 5
    trends per search made (so at most 15 per source). *)
Theorem scanTrends_bounded (sources : list TrendSources.TrendSource) :
  let (found, searches) :=
    TrendSources.scanTrends toLowerCase firecrawlSearch toISOString_after sources in
  searches <= 3 * List.length sources /\
  List.length found <= 5 * searches.
Proof.
  unfold TrendSources.scanTrends.
  pose proof (scan_sources_bound sources 0 []) as H. unfold scan_sources in H.
  destruct (TrendSources.scan_sources _ _ sources 0 []) as [n allTrends].
  unfold TrendSources.uniqueTrends. rewrite length_map.
  destruct (uniqueTrends_map toLowerCase allTrends []) as (_ & _ & _ & Hlen).
  cbn zeta in Hlen. simpl in *. lia.
Qed.

Lemma scan_keywords_found (sources : list TrendSources.TrendSource)
    (source : TrendSources.TrendSource) (kws : list jsstring) (n : nat)
    (allTrends : list ScannedTrend) :
  In source sources ->
  incl kws (firstn 3 (TrendSources.keywords source)) ->
  Forall (found_in sources) allTrends ->
  Forall (found_in sources) (snd (scan_keywords source kws n allTrends)).
Proof.
  intro Hs. revert n allTrends.
  induction kws as [|k kws IH]; intros n allTrends Hk Hall; [exact Hall|].
  unfold scan_keywords. cbn [TrendSources.scan_keywords].
  destruct (firecrawlSearch n k) as [results|]; [|exact Hall].
  apply IH.
  - intros x Hx. apply Hk. right. exact Hx.
  - apply Forall_app. split; [exact Hall|].
    apply Forall_forall. intros t Ht.
    apply in_map_iff in Ht as (r & <- & _). split.
    + exists source, k. repeat split; auto. apply Hk. left. reflexivity.
    + cbn. destruct (TrendSources.result_summary r); [auto | discriminate].
Qed.

Lemma scan_sources_found (sources todo : list TrendSources.TrendSource) (n : nat)
    (allTrends : list ScannedTrend) :
  incl todo sources ->
  Forall (found_in sources) allTrends ->
  Forall (found_in sources) (snd (scan_sources todo n allTrends)).
Proof.
  revert n allTrends. induction todo as [|s todo IH]; intros n allTrends Hin Hall;
    [exact Hall|].
  unfold scan_sources. cbn [TrendSources.scan_sources].
  pose proof (scan_keywords_found sources s (firstn 3 (TrendSources.keywords s))
                n allTrends (Hin s (or_introl eq_refl)) (incl_refl _) Hall) as H.
  unfold scan_keywords in H.
  destruct (TrendSources.scan_keywords _ _ s _ n allTrends) as [n1 all1].
  apply IH; [|exact H]. intros x Hx. apply Hin. right. exact Hx.
Qed.

(** X7. Every trend a scan returns was found under one of the first
    three keywords of one of the given sources (it names that source and
    that keyword), and its summary falls back to its title: the summary
    is empty only when the title is empty too. *)
Theorem scanTrends_provenance (sources : list TrendSources.TrendSource) :
  Forall (found_in sources)
    (fst (TrendSources.scanTrends toLowerCase firecrawlSearch toISOString_after
            sources)).
Proof.
  unfold TrendSources.scanTrends.
  pose proof (scan_sources_found sources sources 0 [] (incl_refl _) (Forall_nil _)) as H.
  unfold scan_sources in H.
  destruct (TrendSources.scan_sources _ _ sources 0 []) as [n allTrends].
  cbn [fst snd] in *. unfold TrendSources.uniqueTrends.
  destruct (uniqueTrends_map toLowerCase allTrends []) as (_ & _ & Hin & _).
  cbn zeta in Hin. apply Forall_forall. intros t Ht.
  apply in_map_iff in Ht as (kv & <- & Hkv).
  destruct (Hin kv Hkv) as [[]|Hall].
  rewrite Forall_forall in H. apply H, Hall.
Qed.

End ScanTrends.

(* ------------------------------------------------------------------ *)
(** *** trim *)

Lemma trimStart_app_blank (a s : jsstring) :
  forallb is_whitespace a = true -> trimStart (a ++ s) = trimStart s.
Proof.
  induction a as [|c a IH]; simpl; intro H; [reflexivity|].
  apply andb_true_iff in H as [Hc Ha]. rewrite Hc. auto.
Qed.

Lemma trimStart_app_solid (x r : jsstring) (c : code_unit) :
  is_whitespace c = false -> trimStart (x ++ c :: r) = trimStart x ++ c :: r.
Proof.
  intro Hc. induction x as [|d x IH]; simpl.
  - rewrite Hc. reflexivity.
  - destruct (is_whitespace d); [exact IH | reflexivity].
Qed.

Lemma trimStart_suffix (s : jsstring) : exists a, s = a ++ trimStart s.
Proof.
  induction s as [|c s [a IH]]; [exists []; reflexivity|].
  simpl. destruct (is_whitespace c).
  - exists (c :: a). simpl. congruence.
  - exists []. reflexivity.
Qed.

Lemma trimStart_length (s : jsstring) : List.length (trimStart s) <= List.length s.
Proof.
  destruct (trimStart_suffix s) as [a H]. rewrite H at 2. rewrite length_app. lia.
Qed.

Lemma trimEnd_length (s : jsstring) : List.length (trimEnd s) <= List.length s.
Proof.
  unfold trimEnd. rewrite length_rev.
  pose proof (trimStart_length (rev s)) as H. rewrite length_rev in H. exact H.
Qed.

Lemma trimStart_fixed_head (c : code_unit) (s : jsstring) :
  trimStart (c :: s) = c :: s -> is_whitespace c = false.
Proof.
  simpl. destruct (is_whitespace c); [|reflexivity].
  intro H. pose proof (trimStart_length s) as Hlen. rewrite H in Hlen.
  simpl in Hlen. lia.
Qed.

Lemma trim_fixed (t : jsstring) :
  trim t = t -> trimStart t = t /\ trimEnd t = t.
Proof.
  intro H. assert (Hs : trimStart t = t).
  { destruct (trimStart_suffix t) as [a Ha].
    assert (List.length a = 0).
    { pose proof (trimEnd_length (trimStart t)) as H1. unfold trim in H.
      rewrite H in H1. apply (f_equal (@List.length _)) in Ha.
      rewrite length_app in Ha. lia. }
    destruct a; [symmetry; exact Ha | discriminate]. }
  split; [exact Hs|]. unfold trim in H. rewrite Hs in H. exact H.
Qed.

Lemma trimEnd_app_blank (s a : jsstring) :
  forallb is_whitespace a = true -> trimEnd (s ++ a) = trimEnd s.
Proof.
  intro H. unfold trimEnd. rewrite rev_app_distr, trimStart_app_blank; [reflexivity|].
  apply forallb_forall. intros x Hx. apply in_rev in Hx.
  rewrite forallb_forall in H. auto.
Qed.

(** White space around a trimmed text is what [trim] removes. *)
Lemma trim_pad (a t b : jsstring) :
  forallb is_whitespace a = true ->
  forallb is_whitespace b = true ->
  trim t = t ->
  trim (a ++ t ++ b) = t.
Proof.
  intros Ha Hb Ht. destruct (trim_fixed t Ht) as [Hs He].
  unfold trim. rewrite (trimStart_app_blank a _ Ha).
  destruct t as [|c t].
  - simpl. rewrite (trimStart_blank b Hb). reflexivity.
  - pose proof (trimStart_fixed_head c t Hs) as Hc.
    change ((c :: t) ++ b) with ([] ++ c :: (t ++ b)).
    rewrite (trimStart_app_solid [] (t ++ b) c Hc). simpl.
    change (c :: t ++ b) with ((c :: t) ++ b).
    rewrite (trimEnd_app_blank _ b Hb). exact He.
Qed.

Lemma trim_idem (s : jsstring) : trim (trim s) = trim s.
Proof.
  assert (Hend : forall x, trimEnd (trimEnd x) = trimEnd x).
  { intro x. unfold trimEnd. rewrite rev_involutive, trimStart_idem. reflexivity. }
  assert (Hstart : forall a, trimStart a = a -> trimStart (trimEnd a) = trimEnd a).
  { intros [|c a] Ha; [reflexivity|].
    pose proof (trimStart_fixed_head c a Ha) as Hc.
    unfold trimEnd. cbn [rev].
    rewrite (trimStart_app_solid (rev a) [] c Hc), rev_app_distr.
    cbn. rewrite Hc. reflexivity. }
  unfold trim. rewrite (Hstart (trimStart s) (trimStart_idem s)). apply Hend.
Qed.

(* ------------------------------------------------------------------ *)
(** *** parsePastedDeckText *)

Lemma span_app (f : code_unit -> bool) (a r : jsstring) (c : code_unit) :
  forallb f a = true -> f c = false ->
  Extractor.span f (a ++ c :: r) = (a, c :: r).
Proof.
  intros Ha Hc. induction a as [|d a IH]; simpl.
  - rewrite Hc. reflexivity.
  - simpl in Ha. apply andb_true_iff in Ha as [Hd Ha].
    rewrite Hd, (IH Ha). reflexivity.
Qed.

Lemma match_delimiter_plain (c : code_unit) (s : jsstring) :
  c <> Extractor.equals_sign -> Extractor.match_delimiter (c :: s) = None.
Proof.
  intro H. unfold Extractor.match_delimiter.
  assert (E : Extractor.span Extractor.is_equals (c :: s) = ([], c :: s)).
  { simpl. unfold Extractor.is_equals.
    destruct (N.eqb_spec c Extractor.equals_sign); [contradiction | reflexivity]. }
  rewrite E. reflexivity.
Qed.

Lemma match_delimiter_line (number rest : jsstring) :
  number <> [] ->
  forallb Extractor.is_digit number = true ->
  Extractor.match_delimiter (Extractor.delimiter number ++ 10%N :: rest)
  = Some (number, List.length (Extractor.delimiter number)).
Proof.
  intros Hne Hd. unfold Extractor.delimiter, Extractor.match_delimiter.
  rewrite <- !app_assoc. cbn -[Extractor.span Extractor.is_digit is_whitespace Nat.ltb].
  change (Extractor.span Extractor.is_equals
            (61 :: 61 :: 61 :: 32 :: 83 :: 108 :: 105 :: 100 :: 101 :: 32
               :: number ++ 32 :: 61 :: 61 :: 61 :: 10 :: rest)%N)
    with ([61; 61; 61]%N,
          (32 :: 83 :: 108 :: 105 :: 100 :: 101 :: 32
             :: number ++ 32 :: 61 :: 61 :: 61 :: 10 :: rest)%N).
  cbn -[Extractor.span Extractor.is_digit Nat.ltb].
  change (Extractor.span is_whitespace
            (32 :: 83 :: 108 :: 105 :: 100 :: 101 :: 32
               :: number ++ 32 :: 61 :: 61 :: 61 :: 10 :: rest)%N)
    with ([32%N],
          (83 :: 108 :: 105 :: 100 :: 101 :: 32
             :: number ++ 32 :: 61 :: 61 :: 61 :: 10 :: rest)%N).
  cbn -[Extractor.span Extractor.is_digit Nat.ltb].
  destruct number as [|d number]; [contradiction|].
  assert (Hd0 : is_whitespace d = false).
  { simpl in Hd. apply andb_true_iff in Hd as [Hd _].
    unfold Extractor.is_digit in Hd. apply andb_true_iff in Hd as [H1 H2].
    apply N.leb_le in H1, H2. unfold is_whitespace.
    repeat match goal with
           | |- context [N.leb ?a ?b] =>
               destruct (N.leb_spec a b); try lia
           | |- context [N.eqb ?a ?b] =>
               destruct (N.eqb_spec a b); try lia
           end; reflexivity. }
  change (Extractor.span is_whitespace
            (32%N :: (d :: number) ++ 32 :: 61 :: 61 :: 61 :: 10 :: rest)%N)
    with (let (run, r) :=
            Extractor.span is_whitespace
              ((d :: number) ++ 32 :: 61 :: 61 :: 61 :: 10 :: rest)%N in
          (32%N :: run, r)).
  cbn [app Extractor.span]. rewrite Hd0.
  change (d :: number ++ 32 :: 61 :: 61 :: 61 :: 10 :: rest)%N
    with ((d :: number) ++ 32 :: 61 :: 61 :: 61 :: 10 :: rest)%N.
  rewrite (span_app Extractor.is_digit (d :: number) _ 32%N Hd eq_refl).
  cbn. rewrite !length_app. cbn. f_equal. f_equal. lia.
Qed.

Lemma split_loop_skip (a s pending : jsstring) :
  Extractor.split_loop (List.length a) pending (a ++ s)
  = Extractor.split_loop 0 pending s.
Proof.
  induction a as [|c a IH]; [reflexivity | exact IH].
Qed.

Lemma split_loop_plain (a s pending : jsstring) :
  ~ In Extractor.equals_sign a ->
  Extractor.split_loop 0 pending (a ++ s)
  = Extractor.split_loop 0 (pending ++ a) s.
Proof.
  revert pending. induction a as [|c a IH]; intros pending H.
  - rewrite app_nil_r. reflexivity.
  - cbn [app Extractor.split_loop].
    rewrite match_delimiter_plain by (intro E; apply H; left; auto).
    rewrite IH by (intro E; apply H; right; auto).
    rewrite <- app_assoc. reflexivity.
Qed.

Lemma split_loop_pasted (slides : list (jsstring * jsstring)) (pending : jsstring) :
  Forall slide_ok slides ->
  Extractor.split_loop 0 pending (Extractor.pasted slides)
  = (pending, map (fun s => (fst s, padded (snd s))) slides).
Proof.
  intro H. revert pending.
  induction H as [|[number text] slides (Hne & Hd & Heq & _ & _) _ IH];
    intro pending; [reflexivity|].
  cbn [Extractor.pasted fst snd map] in *.
  pose proof (match_delimiter_line number
                (text ++ Extractor.paragraph_break ++ Extractor.pasted slides)
                Hne Hd) as Hm.
  change ([10%N] ++ text ++ Extractor.paragraph_break ++ Extractor.pasted slides)
    with (10%N :: text ++ Extractor.paragraph_break ++ Extractor.pasted slides).
  remember (Extractor.delimiter number) as line eqn:Hline.
  assert (Hhead : exists tail, line = Extractor.equals_sign :: tail)
    by (subst line; eexists; reflexivity).
  destruct Hhead as [tail ->].
  cbn [app Extractor.split_loop]. cbn [app] in Hm. rewrite Hm.
  cbn [List.length]. rewrite Nat.sub_succ, Nat.sub_0_r.
  rewrite split_loop_skip.
  change (10%N :: text ++ Extractor.paragraph_break ++ Extractor.pasted slides)
    with ((10%N :: text) ++ Extractor.paragraph_break ++ Extractor.pasted slides).
  rewrite app_assoc.
  rewrite split_loop_plain.
  - rewrite IH. reflexivity.
  - intro E. apply in_app_or in E as [[E|E]|E].
    + discriminate E.
    + contradiction.
    + destruct E as [E|[E|[]]]; discriminate E.
Qed.

Lemma slides_of_pasted (parseInt : jsstring -> float)
    (slides : list (jsstring * jsstring)) :
  Forall slide_ok slides ->
  Extractor.slides_of parseInt (map (fun s => (fst s, padded (snd s))) slides)
  = map (fun s => (parseInt (fst s), snd s, false)) slides.
Proof.
  induction 1 as [|[number text] slides (_ & _ & _ & Ht & Hne) _ IH]; [reflexivity|].
  cbn [map fst snd] in *. unfold Extractor.slides_of in *.
  cbn [flat_map fst snd]. rewrite IH.
  assert (E : trim (padded text) = text).
  { unfold padded. apply (trim_pad [10%N] text Extractor.paragraph_break);
      [reflexivity | reflexivity | exact Ht]. }
  rewrite E. destruct text; [contradiction | reflexivity].
Qed.

(** The deck read from [intro] followed by slides pasted in the expected
    format. *)
Lemma parse_intro_pasted (parseInt : jsstring -> float) (intro : jsstring)
    (slide : jsstring * jsstring) (slides : list (jsstring * jsstring))
    (fileName : option jsstring) :
  ~ In Extractor.equals_sign intro ->
  Forall slide_ok (slide :: slides) ->
  Extractor.parsePastedDeckText parseInt
    (intro ++ Extractor.pasted (slide :: slides)) fileName
  = mkDeck (default (lit "Manual Entry") fileName)
      (List.length (slide :: slides))
      (Extractor.join Extractor.paragraph_break (map snd (slide :: slides)))
      (map (fun s => (parseInt (fst s), snd s, false)) (slide :: slides)).
Proof.
  intros Hintro Hok. unfold Extractor.parsePastedDeckText, Extractor.split.
  rewrite (split_loop_plain intro _ [] Hintro), (split_loop_pasted _ _ Hok).
  cbn [snd]. rewrite (slides_of_pasted parseInt _ Hok).
  cbn [map List.length fst snd]. rewrite ?length_map, ?map_map.
  reflexivity.
Qed.

Lemma parse_without_delimiter_text (parseInt : jsstring -> float)
    (content : jsstring) (fileName : option jsstring) :
  ~ In Extractor.equals_sign content ->
  Extractor.parsePastedDeckText parseInt content fileName
  = mkDeck (default (lit "Manual Entry") fileName) 1 (trim content)
      [(1%float, trim content, false)].
Proof.
  intro H. unfold Extractor.parsePastedDeckText, Extractor.split.
  assert (E : Extractor.split_loop 0 [] content = (content, [])).
  { rewrite <- (app_nil_r content) at 1.
    rewrite (split_loop_plain content [] [] H). reflexivity. }
  rewrite E. reflexivity.
Qed.

(** X8. A pasted text without any [=] has no slide delimiter: the deck
    is a single slide numbered 1 holding the trimmed text, which is also
    the extracted text. *)
Theorem parse_without_delimiter (parseInt : jsstring -> float)
    (content : jsstring) (fileName : option jsstring) :
  ~ In Extractor.equals_sign content ->
  Extractor.parsePastedDeckText parseInt content fileName
  = mkDeck (default (lit "Manual Entry") fileName) 1 (trim content)
      [(1%float, trim content, false)].
Proof.
  apply parse_without_delimiter_text.
Qed.

Lemma parse_without_delimiter_witness :
  Extractor.parsePastedDeckText (fun _ => 0%float) (lit "  Our roadmap for 2026  ") None
  = mkDeck (lit "Manual Entry") 1 (lit "Our roadmap for 2026")
      [(1%float, lit "Our roadmap for 2026", false)].
Proof.
  rewrite parse_without_delimiter; [reflexivity|].
  vm_compute. intuition discriminate.
Defined.

(** X9. Whatever is pasted, the deck has at least one slide and
    [slideCount] counts them; every slide text is trimmed, and it is
    empty only when the whole pasted text is blank. *)
Theorem parsed_deck_has_slides (parseInt : jsstring -> float)
    (content : jsstring) (fileName : option jsstring) :
  let deck := Extractor.parsePastedDeckText parseInt content fileName in
  slideCount deck = List.length (slides deck) /\
  1 <= slideCount deck /\
  Forall (fun s => trim (snd (fst s)) = snd (fst s) /\
                   (snd (fst s) = [] -> trim content = []))
         (slides deck).
Proof.
  cbn zeta. unfold Extractor.parsePastedDeckText.
  set (parts := snd (Extractor.split content)).
  assert (Hfound : Forall (fun s => trim (snd (fst s)) = snd (fst s) /\
                                    snd (fst s) <> [])
                          (Extractor.slides_of parseInt parts)).
  { unfold Extractor.slides_of. clearbody parts.
    induction parts as [|part parts IH]; [constructor|].
    cbn [flat_map]. apply Forall_app. split; [|exact IH].
    destruct (trim (snd part)) as [|c text] eqn:E; constructor; [|constructor].
    cbn [fst snd]. split; [|discriminate]. rewrite <- E. apply trim_idem. }
  destruct (Extractor.slides_of parseInt parts) as [|s found] eqn:E;
    cbn [slideCount slides List.length].
  - split; [reflexivity|]. split; [lia|].
    constructor; [|constructor]. cbn [fst snd]. split; [apply trim_idem | auto].
  - split; [reflexivity|]. split; [lia|].
    eapply Forall_impl; [|exact Hfound]. cbn beta.
    intros x [Ht Hne]. split; [exact Ht | contradiction].
Qed.

(** X10. Round trip: slides pasted in the documented format (a line
    [=== Slide n ===], the text, an empty line) are read back one for
    one, in order, each with its number and its text, and the extracted
    text is the slide texts joined by empty lines. *)
Theorem parse_pasted_round_trip (parseInt : jsstring -> float)
    (slide : jsstring * jsstring) (slides : list (jsstring * jsstring))
    (fileName : option jsstring) :
  Forall slide_ok (slide :: slides) ->
  Extractor.parsePastedDeckText parseInt (Extractor.pasted (slide :: slides)) fileName
  = mkDeck (default (lit "Manual Entry") fileName)
      (List.length (slide :: slides))
      (Extractor.join Extractor.paragraph_break (map snd (slide :: slides)))
      (map (fun s => (parseInt (fst s), snd s, false)) (slide :: slides)).
Proof.
  intro H. apply (parse_intro_pasted parseInt [] slide slides fileName); auto.
Qed.

Lemma parse_pasted_round_trip_witness :
  Extractor.parsePastedDeckText (fun _ => 0%float)
    (Extractor.pasted [(lit "1", lit "Title"); (lit "2", lit "Body text")])
    (Some (lit "Deck 1"))
  = mkDeck (lit "Deck 1") 2
      (lit "Title" ++ Extractor.paragraph_break ++ lit "Body text")
      [(0%float, lit "Title", false); (0%float, lit "Body text", false)].
Proof.
  rewrite parse_pasted_round_trip; [reflexivity|].
  repeat constructor; cbn; try discriminate; intuition discriminate.
Defined.

(** X11. Text pasted before the first slide delimiter is dropped: with
    well-formed slides after it, the deck is the same as without it. *)
Theorem parse_drops_leading_text (parseInt : jsstring -> float) (intro : jsstring)
    (slide : jsstring * jsstring) (slides : list (jsstring * jsstring))
    (fileName : option jsstring) :
  ~ In Extractor.equals_sign intro ->
  Forall slide_ok (slide :: slides) ->
  Extractor.parsePastedDeckText parseInt
    (intro ++ Extractor.pasted (slide :: slides)) fileName
  = Extractor.parsePastedDeckText parseInt (Extractor.pasted (slide :: slides))
      fileName.
Proof.
  intros Hintro Hok.
  rewrite (parse_intro_pasted parseInt intro slide slides fileName Hintro Hok).
  symmetry. apply (parse_intro_pasted parseInt [] slide slides fileName); auto.
Qed.

Lemma parse_drops_leading_text_witness :
  Extractor.parsePastedDeckText (fun _ => 0%float)
    (lit "Quarterly review, draft 3. " ++ Extractor.pasted [(lit "1", lit "Title")])
    None
  = Extractor.parsePastedDeckText (fun _ => 0%float)
      (Extractor.pasted [(lit "1", lit "Title")]) None.
Proof.
  apply parse_drops_leading_text.
  - vm_compute. intuition discriminate.
  - repeat constructor; cbn; try discriminate; intuition discriminate.
Defined.

(* ------------------------------------------------------------------ *)
(** *** scoreAndFilterTrends and the trends route *)

Lemma leb_nan (x : float) : PrimFloat.leb x nan = false.
Proof.
  rewrite leb_spec. unfold SpecFloat.SFleb, SpecFloat.SFcompare.
  change (Prim2SF nan) with SpecFloat.S754_nan.
  destruct (Prim2SF x) as [| | |? ? ?]; try destruct s; reflexivity.
Qed.

Lemma member_relevanceScore (w : World) (scoring : json) (score : jsval)
    (minimum : float) :
  member (Some scoring) "relevanceScore" = Ok score ->
  ge_number w score minimum = Ok true ->
  exists v, score = Some v /\
            lookup (lit "relevanceScore") (own_members scoring) = Some v.
Proof.
  intros Hm Hge.
  assert (Hsome : exists v, score = Some v).
  { destruct score as [v|]; [eauto|].
    unfold ge_number in Hge. cbn [ToNumber rbind] in Hge.
    rewrite leb_nan in Hge. discriminate. }
  destruct Hsome as [v ->]. exists v. split; [reflexivity|].
  destruct scoring; try discriminate Hm. injection Hm as Hm. exact Hm.
Qed.

Lemma ToNumber_Throw (w : World) (v : jsval) (e : exn) :
  ToNumber w v = Throw e -> e = TypeError.
Proof.
  destruct v as [[|b|x|s|l|o]|]; cbn [ToNumber]; try discriminate.
  - destruct (no_primitive (JArray l)); [congruence | discriminate].
  - destruct (no_primitive (JObject o)); [congruence | discriminate].
Qed.

Lemma ToNumber_sortable (w : World) (o : object) :
  sortable o -> exists x, ToNumber w (lookup (lit "relevance_score") o) = Ok x.
Proof.
  unfold sortable.
  destruct (lookup (lit "relevance_score") o) as [[|b|x|s|l|m]|];
    cbn [ToNumber]; intro H; try rewrite H; eauto.
Qed.

Lemma by_relevance_score_Throw (w : World) (a b : object) (e : exn) :
  by_relevance_score w a b = Throw e -> e = TypeError.
Proof.
  unfold by_relevance_score.
  destruct (ToNumber w (lookup (lit "relevance_score") b)) as [y|e1] eqn:Eb;
    cbn [rbind].
  - destruct (ToNumber w (lookup (lit "relevance_score") a)) as [x|e2] eqn:Ea;
      cbn [rbind]; [discriminate|].
    intros [= <-]. eapply ToNumber_Throw. exact Ea.
  - intros [= <-]. eapply ToNumber_Throw. exact Eb.
Qed.

Lemma by_relevance_score_Ok (w : World) (a b : object) :
  sortable a -> sortable b -> exists c, by_relevance_score w a b = Ok c.
Proof.
  intros Ha Hb. unfold by_relevance_score.
  destruct (ToNumber_sortable w a Ha) as [x ->].
  destruct (ToNumber_sortable w b Hb) as [y ->].
  cbn [rbind]. eauto.
Qed.

(** What [sort] keeps, whatever the comparator: the length and every
    property of the elements; it throws only what the comparator throws,
    and does not throw when the comparator does not. *)
Lemma insert_sorted_Ok {A} (cmp : A -> A -> result float) (P : A -> Prop)
    (x : A) (l l' : list A) :
  insert_sorted cmp x l = Ok l' ->
  List.length l' = S (List.length l) /\ (P x -> Forall P l -> Forall P l').
Proof.
  revert l'. induction l as [|y l IH]; intros l'; cbn [insert_sorted].
  - intros [= <-]. split; [reflexivity|]. intros; constructor; auto.
  - destruct (cmp x y) as [c|e]; cbn [rbind]; [|discriminate].
    destruct (PrimFloat.ltb 0 c).
    + destruct (insert_sorted cmp x l) as [l''|e]; cbn [rbind]; [|discriminate].
      intros [= <-]. destruct (IH l'' eq_refl) as [Hlen Hall].
      split; [cbn [List.length]; rewrite Hlen; reflexivity|].
      intros Hx Hl. inversion Hl; subst. constructor; auto.
    + intros [= <-]. split; [reflexivity|]. intros; constructor; auto.
Qed.

Lemma sort_Ok {A} (cmp : A -> A -> result float) (P : A -> Prop) (l l' : list A) :
  sort cmp l = Ok l' ->
  List.length l' = List.length l /\ (Forall P l -> Forall P l').
Proof.
  revert l'. induction l as [|x l IH]; intros l'; unfold sort in *;
    cbn [fold_right].
  - intros [= <-]. auto.
  - destruct (fold_right _ (Ok []) l) as [sorted|e]; cbn [rbind]; [|discriminate].
    intro H. destruct (IH sorted eq_refl) as [Hlen Hall].
    destruct (insert_sorted_Ok cmp P x sorted l' H) as [Hlen' Hall'].
    split; [cbn [List.length]; rewrite Hlen', Hlen; reflexivity|].
    intro Hl. inversion Hl; subst. auto.
Qed.

Lemma insert_sorted_Throw {A} (cmp : A -> A -> result float) (x : A)
    (l : list A) (e : exn) :
  insert_sorted cmp x l = Throw e -> exists a b, cmp a b = Throw e.
Proof.
  induction l as [|y l IH]; cbn [insert_sorted]; [discriminate|].
  destruct (cmp x y) as [c|e1] eqn:E; cbn [rbind].
  - destruct (PrimFloat.ltb 0 c); [|discriminate].
    destruct (insert_sorted cmp x l) as [l''|e2]; cbn [rbind]; [discriminate|].
    intros [= <-]. apply IH. reflexivity.
  - intros [= <-]. eauto.
Qed.

Lemma sort_Throw {A} (cmp : A -> A -> result float) (l : list A) (e : exn) :
  sort cmp l = Throw e -> exists a b, cmp a b = Throw e.
Proof.
  induction l as [|x l IH]; unfold sort in *; cbn [fold_right]; [discriminate|].
  destruct (fold_right _ (Ok []) l) as [sorted|e1]; cbn [rbind].
  - apply insert_sorted_Throw.
  - intros [= <-]. apply IH. reflexivity.
Qed.

Lemma insert_sorted_total {A} (cmp : A -> A -> result float) (P : A -> Prop)
    (x : A) (l : list A) :
  (forall a b, P a -> P b -> exists c, cmp a b = Ok c) ->
  P x -> Forall P l -> exists l', insert_sorted cmp x l = Ok l'.
Proof.
  intros Hcmp Hx. induction 1 as [|y l Hy Hl IH]; cbn [insert_sorted]; [eauto|].
  destruct (Hcmp x y Hx Hy) as [c ->]. cbn [rbind].
  destruct (PrimFloat.ltb 0 c); [|eauto].
  destruct IH as [l' ->]. cbn [rbind]. eauto.
Qed.

Lemma sort_total {A} (cmp : A -> A -> result float) (P : A -> Prop) (l : list A) :
  (forall a b, P a -> P b -> exists c, cmp a b = Ok c) ->
  Forall P l -> exists l', sort cmp l = Ok l'.
Proof.
  intros Hcmp. induction 1 as [|x l Hx Hl IH]; [exists []; reflexivity|].
  destruct IH as [sorted Hs]. unfold sort in *. cbn [fold_right].
  rewrite Hs. cbn [rbind].
  apply (insert_sorted_total cmp P); [exact Hcmp | exact Hx|].
  apply (sort_Ok cmp P l sorted Hs). exact Hl.
Qed.

Lemma score_one_run (w : World) pillars voiceSummary minimum acc trend t :
  exists acc',
    score_one w pillars voiceSummary minimum acc trend t
    = (Ok acc', t ++ [score_prompt pillars voiceSummary trend]) /\
    (acc' = acc \/
     exists o, acc' = acc ++ [o] /\ kept_trend w minimum o /\
               (convertible_replies w -> sortable o)).
Proof.
  unfold score_one, try_catch, bind at 1, scoreTrendRelevance, bind at 1.
  unfold generateJSON, bind at 1, generateText, score_prompt.
  destruct (model w (List.length t) _) as [content|] eqn:Hmodel;
    [|unfold ret; eauto].
  unfold ret at 1 2. unfold bind, lift.
  set (reply := parse_reply w (first_text content)).
  set (scoring := if truthy reply then reply else default_scoring).
  destruct (member (Some scoring) "relevanceScore") as [score|e] eqn:Hm;
    [|unfold ret; eauto].
  destruct (ge_number w score minimum) as [[|]|e] eqn:Hge;
    [|unfold ret; eauto|unfold ret; eauto].
  unfold ret. eexists. split; [reflexivity|]. right. eexists. split; [reflexivity|].
  destruct (member_relevanceScore w scoring score minimum Hm Hge) as (v & -> & Hv).
  split.
  - exists v. unfold spread. rewrite !lookup_app, Hv.
    repeat split; [exact Hge].
  - intro Hw. unfold sortable, spread. rewrite !lookup_app.
    change (lookup (lit "relevance_score") [(lit "trending_score", JNumber 75)])
      with (@None json).
    change (lookup (lit "relevance_score") (trend_members trend)) with (@None json).
    assert (Hs : sortable (own_members scoring)).
    { subst scoring. destruct (truthy reply); [|exact I].
      exact (Hw _ _ _ Hmodel). }
    unfold sortable in Hs.
    destruct (lookup (lit "relevance_score") (own_members scoring)); exact Hs.
Qed.

Lemma score_loop_run (w : World) pillars voiceSummary minimum ts acc t :
  exists l,
    score_loop w pillars voiceSummary minimum acc ts t
    = (Ok l, t ++ map (score_prompt pillars voiceSummary) ts) /\
    List.length l <= List.length acc + List.length ts /\
    (Forall (kept_trend w minimum) acc -> Forall (kept_trend w minimum) l) /\
    (convertible_replies w -> Forall sortable acc -> Forall sortable l).
Proof.
  revert acc t. induction ts as [|trend ts IH]; intros acc t.
  - exists acc. cbn. rewrite app_nil_r. repeat split; auto. lia.
  - cbn [score_loop map]. unfold bind.
    destruct (score_one_run w pillars voiceSummary minimum acc trend t)
      as (acc' & -> & Hacc).
    destruct (IH acc' (t ++ [score_prompt pillars voiceSummary trend]))
      as (l & -> & Hlen & Hall & Hsort).
    exists l. rewrite <- app_assoc. split; [reflexivity|]. split; [|split].
    + destruct Hacc as [-> | (o & -> & _)];
        [|rewrite length_app in Hlen]; simpl in *; lia.
    + intro H. apply Hall. destruct Hacc as [-> | (o & -> & Ho & _)]; [exact H|].
      apply Forall_app. split; [exact H | constructor; [exact Ho | constructor]].
    + intros Hw H. apply (Hsort Hw).
      destruct Hacc as [-> | (o & -> & _ & Ho)]; [exact H|].
      apply Forall_app. split; [exact H | constructor; [exact (Ho Hw) | constructor]].
Qed.

Lemma scoreAndFilterTrends_run (w : World) (ts : list ScannedTrend)
    (pillars : list (jsstring * jsstring)) (voiceSummary : jsstring)
    (minimum : option float) (t : trace) :
  exists r,
    scoreAndFilterTrends w ts pillars voiceSummary minimum t
    = (r, t ++ map (score_prompt pillars voiceSummary) ts) /\
    (forall scored, r = Ok scored ->
       List.length scored <= List.length ts /\
       Forall (kept_trend w (match minimum with Some m => m | None => 60%float end))
              scored) /\
    (forall e, r = Throw e -> e = TypeError) /\
    (convertible_replies w -> exists scored, r = Ok scored).
Proof.
  unfold scoreAndFilterTrends, bind.
  destruct (score_loop_run w pillars voiceSummary
              (match minimum with Some m => m | None => 60%float end) ts [] t)
    as (l & -> & Hlen & Hall & Hsort).
  unfold lift. eexists. split; [reflexivity|]. split; [|split].
  - intros scored Hs.
    destruct (sort_Ok (by_relevance_score w)
                (kept_trend w (match minimum with Some m => m | None => 60%float end))
                l scored Hs) as [Hsl Hsa].
    split; [rewrite Hsl; exact Hlen | apply Hsa, Hall; constructor].
  - intros e He. apply sort_Throw in He as (a & b & He).
    eapply by_relevance_score_Throw. exact He.
  - intro Hw. apply (sort_total (by_relevance_score w) sortable).
    + intros a b. apply by_relevance_score_Ok.
    + apply (Hsort Hw). constructor.
Qed.




(** X13. Every trend of a list that [scoreAndFilterTrends] returns
    passed the filter: it carries a [relevanceScore] that is at least the
    minimum (60 when none is given), and [trending_score] 75. *)
Theorem scoreAndFilterTrends_filters (w : World) (ts : list ScannedTrend)
    (pillars : list (jsstring * jsstring)) (voiceSummary : jsstring)
    (minimum : option float) (t : trace) (scored : list object) (t' : trace) :
  scoreAndFilterTrends w ts pillars voiceSummary minimum t = (Ok scored, t') ->
  Forall (kept_trend w (match minimum with Some m => m | None => 60%float end))
         scored.
Proof.
  intro H.
  destruct (scoreAndFilterTrends_run w ts pillars voiceSummary minimum t)
    as (r & Hrun & Hok & _).
  rewrite Hrun in H. injection H as -> _. apply (Hok scored eq_refl).
Qed.

Lemma scoreAndFilterTrends_filters_witness :
  exists scored t',
    scoreAndFilterTrends Examples.trend_scores
      (getMockTrends Examples.trend_scores)
      [(lit "AI", lit "Artificial intelligence at work")]
      (lit "Direct and practical") None [] = (Ok scored, t') /\
    List.length scored = 2 /\
    Forall (kept_trend Examples.trend_scores 60%float) scored.
Proof.
  do 2 eexists. split; [vm_compute; reflexivity|]. split; [reflexivity|].
  eapply (scoreAndFilterTrends_filters Examples.trend_scores
            (getMockTrends Examples.trend_scores)
            [(lit "AI", lit "Artificial intelligence at work")]
            (lit "Direct and practical") None []).
  vm_compute. reflexivity.
Defined.

(** X14. For a request with at least one pillar and a voice summary,
    POST /api/discover/trends scores the mock trends with one call each,
    in order, whatever the model does, and answers either 200 with at
    most 5 trends or 500 'Failed to discover trends. Please try again.'.
    Rejected calls and unusable replies do not fail the request: it
    answers 200 whenever no reply of the model carries a member
    [relevance_score] that cannot be converted to a number. *)
Theorem trends_route_answers (w : World) (body : TrendsRoute.Body)
    (p : jsstring * jsstring) (ps : list (jsstring * jsstring))
    (voiceSummary : jsstring) (t : trace) :
  TrendsRoute.pillars body = Some (p :: ps) ->
  TrendsRoute.voiceSummary body = Some voiceSummary ->
  voiceSummary <> [] ->
  exists resp,
    TrendsRoute.POST w (Some body) t
    = (Ok resp, t ++ map (score_prompt (p :: ps) voiceSummary) (getMockTrends w)) /\
    ((exists scored,
        resp = mkResponse 200 (PTrends scored) None /\ List.length scored <= 5) \/
     resp = fail 500 "Failed to discover trends. Please try again.") /\
    (convertible_replies w -> status resp = 200).
Proof.
  intros Hp Hv Hne.
  unfold TrendsRoute.POST, TrendsRoute.handler, try_catch.
  unfold bind at 1. unfold request_json, ret at 1. rewrite Hp, Hv.
  destruct voiceSummary as [|c s]; [contradiction|].
  unfold bind.
  destruct (scoreAndFilterTrends_run w (getMockTrends w) (p :: ps) (c :: s)
              (Some (TrendsRoute.min_or_60 (TrendsRoute.minRelevanceScore body))) t)
    as (r & -> & Hok & _ & Hconv).
  destruct r as [scored|e].
  - eexists. split; [reflexivity|]. split; [|reflexivity].
    left. exists scored. split; [reflexivity|]. apply (Hok scored eq_refl).
  - eexists. split; [reflexivity|]. split; [right; reflexivity|].
    intro Hw. destruct (Hconv Hw) as (scored & Hs). discriminate Hs.
Qed.

Lemma trends_route_answers_witness :
  exists resp,
    TrendsRoute.POST Examples.offline (Some Examples.one_pillar) []
    = (Ok resp,
       [] ++ map (score_prompt [(lit "AI", lit "Artificial intelligence at work")]
                    (lit "Direct and practical"))
               (getMockTrends Examples.offline)) /\
    ((exists scored,
        resp = mkResponse 200 (PTrends scored) None /\ List.length scored <= 5) \/
     resp = fail 500 "Failed to discover trends. Please try again.") /\
    (convertible_replies Examples.offline -> status resp = 200).
Proof.
  apply (trends_route_answers Examples.offline Examples.one_pillar
           (lit "AI", lit "Artificial intelligence at work") []
           (lit "Direct and practical") []).
  - reflexivity.
  - reflexivity.
  - discriminate.
Defined.

(** The 500 does happen: the model scores every trend 70 and adds a
    member [relevance_score] that is an object with an own [toString];
    every trend is kept, the comparator of the final sort throws, and the
    route answers 500. *)
Example trends_sort_failure_is_500 :
  exists t',
    TrendsRoute.POST MoreExamples.odd_scores (Some Examples.one_pillar) []
    = (Ok (fail 500 "Failed to discover trends. Please try again."), t').
Proof. eexists. vm_compute. reflexivity. Qed.

(* ------------------------------------------------------------------ *)
(** *** Validation in the routes *)

Lemma answered_by_catch (m : M HttpResponse) (msg : string) (t : trace) :
  (forall resp t', m t = (Ok resp, t') -> answered t resp t') ->
  forall resp t',
    try_catch m (fun _ => ret (fail 500 msg)) t = (Ok resp, t') ->
    answered t resp t'.
Proof.
  intros H resp t'. unfold try_catch.
  destruct (m t) as [[r|e] t1] eqn:E; intro Hr; injection Hr as <- <-.
  - apply H. reflexivity.
  - split; [auto | discriminate].
Qed.

Lemma answered_400 (t : trace) (msg : string) : answered t (fail 400 msg) t.
Proof. split; auto. Qed.

Lemma answered_200 (t t' : trace) (d : payload) : answered t (respond 200 d) t'.
Proof. split; [auto | discriminate]. Qed.

Lemma answered_500 (t t' : trace) (msg : string) : answered t (fail 500 msg) t'.
Proof. split; [auto | discriminate]. Qed.

Lemma request_json_Ok {Body} (request : option Body) t body t1 :
  request_json request t = (Ok body, t1) -> t1 = t.
Proof.
  destruct request; intro H; [injection H as _ <-; reflexivity | discriminate].
Qed.

Ltac answer H :=
  injection H as <- <-;
  first [apply answered_400 | apply answered_200 | apply answered_500].

Lemma generate_handler_answered (w : World) request t resp t' :
  GenerateRoute.handler w request t = (Ok resp, t') -> answered t resp t'.
Proof.
  unfold GenerateRoute.handler. intro E.
  apply bind_Ok in E as (body & t2 & Hb & E).
  apply request_json_Ok in Hb. subst t2.
  destruct (GenerateRoute.topic body) as [v|]; [|answer E].
  destruct (negb (truthy v)); [answer E|].
  destruct v as [| | |s| |]; try discriminate E.
  destruct (JsString.length (trim s) =? 0); [answer E|].
  apply bind_Ok in E as (profile & t3 & Hp & E).
  apply bind_Ok in E as (out & t4 & Hgen & E).
  answer E.
Qed.

Lemma pillars_handler_answered (w : World) (ops : DeckOps) request t resp t' :
  PillarsRoute.handler w ops request t = (Ok resp, t') -> answered t resp t'.
Proof.
  unfold PillarsRoute.handler. intro E.
  apply bind_Ok in E as (body & t2 & Hb & E).
  apply request_json_Ok in Hb. subst t2.
  destruct (PillarsRoute.posts body) as [[| | | |submitted|]|]; try solve [answer E].
  destruct (List.length submitted <? 3); [answer E|].
  apply bind_Ok in E as (validPosts & t3 & Hv & E).
  unfold lift in Hv. injection Hv as Hv <-.
  destruct (List.length validPosts <? 3); [answer E|].
  apply bind_Ok in E as (result & t4 & Hr & E).
  destruct (truthy result) eqn:Ht; cbn [negb] in E; [|answer E].
  apply bind_Ok in E as (early & t5 & He & E).
  destruct early as [response|]; [|answer E].
  injection E as <- <-.
  unfold PillarsRoute.with_decks in He.
  destruct (PillarsRoute.decks body) as [[|d ds]|]; try discriminate He.
  destruct (PillarsRoute.parse_decks ops (d :: ds)); [discriminate He|].
  apply bind_Ok in He as (analysis & t6 & Ha & He).
  destruct analysis as [analysis|]; [|discriminate He].
  apply bind_Ok in He as (x1 & t7 & H1 & He).
  apply bind_Ok in He as (x2 & t8 & H2 & He).
  apply bind_Ok in He as (x3 & t9 & H3 & He).
  apply bind_Ok in He as (x4 & t10 & H4 & He).
  apply bind_Ok in He as (x5 & t11 & H5 & He).
  apply bind_Ok in He as (x6 & t12 & H6 & He).
  injection He as <- _. apply answered_200.
Qed.

Lemma topics_handler_answered (w : World) request t resp t' :
  TopicsRoute.handler w request t = (Ok resp, t') -> answered t resp t'.
Proof.
  unfold TopicsRoute.handler. intro E.
  apply bind_Ok in E as (body & t2 & Hb & E).
  apply request_json_Ok in Hb. subst t2.
  destruct (TopicsRoute.pillars body) as [[|p ps]|]; try solve [answer E].
  destruct (TopicsRoute.voiceSummary body) as [[|c s]|]; try solve [answer E].
  apply bind_Ok in E as (topics & t3 & Ht & E).
  answer E.
Qed.

Lemma trends_handler_answered (w : World) request t resp t' :
  TrendsRoute.handler w request t = (Ok resp, t') -> answered t resp t'.
Proof.
  unfold TrendsRoute.handler. intro E.
  apply bind_Ok in E as (body & t2 & Hb & E).
  apply request_json_Ok in Hb. subst t2.
  destruct (TrendsRoute.pillars body) as [[|p ps]|]; try solve [answer E].
  destruct (TrendsRoute.voiceSummary body) as [[|c s]|]; try solve [answer E].
  apply bind_Ok in E as (scored & t3 & Ht & E).
  answer E.
Qed.

(** X15. The four POST routes answer with status 200, 400 or 500 only,
    and a 400 is always decided before the model is called: on a 400 the
    trace of model calls is unchanged. *)
Theorem validation_precedes_model_calls (w : World) (ops : DeckOps) (t : trace)
    (resp : HttpResponse) (t' : trace) :
  (forall request,
      GenerateRoute.POST w request t = (Ok resp, t') -> answered t resp t') /\
  (forall request,
      PillarsRoute.POST w ops request t = (Ok resp, t') -> answered t resp t') /\
  (forall request,
      TopicsRoute.POST w request t = (Ok resp, t') -> answered t resp t') /\
  (forall request,
      TrendsRoute.POST w request t = (Ok resp, t') -> answered t resp t').
Proof.
  split; [|split; [|split]]; intro request.
  - unfold GenerateRoute.POST. apply answered_by_catch. intros r t1.
    apply generate_handler_answered.
  - unfold PillarsRoute.POST. apply answered_by_catch. intros r t1.
    apply pillars_handler_answered.
  - unfold TopicsRoute.POST. apply answered_by_catch. intros r t1.
    apply topics_handler_answered.
  - unfold TrendsRoute.POST. apply answered_by_catch. intros r t1.
    apply trends_handler_answered.
Qed.

Lemma validation_precedes_model_calls_witness :
  answered []
    (mkResponse 400 PNull (Some (lit "Topic is required"))) [].
Proof.
  apply (proj1 (validation_precedes_model_calls Examples.offline Examples.no_decks
                  [] (mkResponse 400 PNull (Some (lit "Topic is required"))) [])
           (Some (Examples.topic_only "   "))).
  reflexivity.
Defined.

(* ------------------------------------------------------------------ *)
(** *** Ill-typed fields *)

(** X16. A topic that is truthy but not a string (a number, [true], an
    array, an object) has no [trim]: POST /api/generate answers 500
    'Failed to generate content', not the 400 of a missing topic, and
    calls no model. *)
Theorem generate_topic_not_a_string (w : World) (body : GenerateRoute.Body)
    (v : json) (t : trace) :
  GenerateRoute.topic body = Some v ->
  truthy v = true ->
  not_a_string v ->
  GenerateRoute.POST w (Some body) t
  = (Ok (mkResponse 500 PNull (Some (lit "Failed to generate content"))), t).
Proof.
  intros Hv Ht Hs.
  unfold GenerateRoute.POST, GenerateRoute.handler, try_catch, bind,
         request_json, ret.
  rewrite Hv, Ht. destruct v; try contradiction; reflexivity.
Qed.

Lemma generate_topic_not_a_string_witness :
  GenerateRoute.POST Examples.offline
    (Some (GenerateRoute.mkBody (Some (JNumber 42)) None None None None)) []
  = (Ok (mkResponse 500 PNull (Some (lit "Failed to generate content"))), []).
Proof.
  apply (generate_topic_not_a_string Examples.offline _ (JNumber 42)).
  - reflexivity.
  - reflexivity.
  - exact I.
Defined.

Lemma filter_posts_throws (posts : list json) :
  Exists not_a_string posts -> PillarsRoute.filter_posts posts = Throw TypeError.
Proof.
  induction 1 as [x l Hx | x l _ IH].
  - destruct x; try contradiction; reflexivity.
  - destruct x; try reflexivity. cbn [PillarsRoute.filter_posts]. rewrite IH.
    reflexivity.
Qed.

(** X17. If any of three or more submitted posts is not a string, POST
    /api/discover/pillars answers 500 'Failed to discover pillars. Please
    try again.' without calling the model, however many valid posts
    there are. *)
Theorem pillars_post_not_a_string (w : World) (ops : DeckOps)
    (body : PillarsRoute.Body) (submitted : list json) (t : trace) :
  PillarsRoute.posts body = Some (JArray submitted) ->
  3 <= List.length submitted ->
  Exists not_a_string submitted ->
  PillarsRoute.POST w ops (Some body) t
  = (Ok (mkResponse 500 PNull
           (Some (lit "Failed to discover pillars. Please try again."))), t).
Proof.
  intros Hp Hlen Hex.
  unfold PillarsRoute.POST, PillarsRoute.handler, try_catch.
  unfold bind at 1. unfold request_json, ret at 1. rewrite Hp.
  apply Nat.ltb_ge in Hlen. rewrite Hlen.
  unfold bind, lift. rewrite (filter_posts_throws _ Hex). reflexivity.
Qed.

Lemma pillars_post_not_a_string_witness :
  PillarsRoute.POST Examples.offline Examples.no_decks
    (Some (PillarsRoute.mkBody
             (Some (JArray [JString (Examples.post_of_length 60);
                            JString (Examples.post_of_length 60);
                            JString (Examples.post_of_length 60);
                            JNull])) None)) []
  = (Ok (mkResponse 500 PNull
           (Some (lit "Failed to discover pillars. Please try again."))), []).
Proof.
  apply pillars_post_not_a_string with
    (submitted := [JString (Examples.post_of_length 60);
                   JString (Examples.post_of_length 60);
                   JString (Examples.post_of_length 60); JNull]).
  - reflexivity.
  - simpl. lia.
  - do 3 apply Exists_cons_tl. apply Exists_cons_hd. exact I.
Defined.

(* ------------------------------------------------------------------ *)
(** *** What the pillars route returns *)

Lemma pillars_plain_response (w : World) (ops : DeckOps)
    (body : PillarsRoute.Body) (submitted : list jsstring) (t : trace)
    (content : list content_block) :
  let p := DiscoverPillarsPrompt (firstn 20 (filter long_enough submitted)) in
  PillarsRoute.posts body = Some (JArray (map JString submitted)) ->
  3 <= List.length (filter long_enough submitted) ->
  PillarsRoute.parse_decks ops (default [] (PillarsRoute.decks body)) = [] ->
  model w (List.length t) p = Message content ->
  truthy (parse_reply w (first_text content)) = true ->
  PillarsRoute.POST w ops (Some body) t
  = (Ok (mkResponse 200 (PJson (parse_reply w (first_text content))) None),
     t ++ [p]).
Proof.
  intros p Hposts Hlen Hdecks Hmodel Htruthy. subst p.
  assert (Hsub : (List.length submitted <? 3) = false).
  { apply Nat.ltb_ge. pose proof (filter_length_le long_enough submitted). lia. }
  pose proof (firstn_length_ge3 _ Hlen) as Hfirst.
  unfold PillarsRoute.POST, PillarsRoute.handler, try_catch.
  unfold bind at 1. unfold request_json, ret at 1. rewrite Hposts.
  rewrite length_map, Hsub.
  unfold bind at 1, lift at 1. rewrite filter_posts_strings.
  apply Nat.ltb_ge in Hlen. rewrite Hlen.
  unfold bind at 1, discoverPillars. rewrite Hfirst.
  unfold generateJSON, bind at 1, generateText. rewrite Hmodel.
  unfold ret at 1. rewrite Htruthy. cbn [negb].
  unfold bind, PillarsRoute.with_decks.
  destruct (PillarsRoute.decks body) as [[|d ds]|]; try reflexivity.
  cbn [default] in Hdecks. rewrite Hdecks. reflexivity.
Qed.

(** X18. Without decks, POST /api/discover/pillars passes on whatever
    truthy JSON value the model's reply holds: the 200 response carries
    that value as [data], unchecked, after a single model call. *)
Theorem pillars_reply_passed_through (w : World) (ops : DeckOps)
    (body : PillarsRoute.Body) (submitted : list jsstring) (t : trace)
    (content : list content_block) :
  let p := DiscoverPillarsPrompt (firstn 20 (filter long_enough submitted)) in
  PillarsRoute.posts body = Some (JArray (map JString submitted)) ->
  3 <= List.length (filter long_enough submitted) ->
  PillarsRoute.decks body = None \/ PillarsRoute.decks body = Some [] ->
  model w (List.length t) p = Message content ->
  truthy (parse_reply w (first_text content)) = true ->
  PillarsRoute.POST w ops (Some body) t
  = (Ok (mkResponse 200 (PJson (parse_reply w (first_text content))) None),
     t ++ [p]).
Proof.
  intros p Hposts Hlen Hdecks. apply pillars_plain_response; auto.
  destruct Hdecks as [-> | ->]; reflexivity.
Qed.

Lemma pillars_reply_passed_through_witness :
  PillarsRoute.POST (Examples.answering (Examples.text "42")) Examples.no_decks
    (Some (Examples.posts_only (repeat (Examples.post_of_length 60) 3))) []
  = (Ok (mkResponse 200 (PJson (JNumber 42)) None),
     [] ++ [DiscoverPillarsPrompt (repeat (Examples.post_of_length 60) 3)]).
Proof.
  apply (pillars_reply_passed_through (Examples.answering (Examples.text "42"))
           Examples.no_decks
           (Examples.posts_only (repeat (Examples.post_of_length 60) 3))
           (repeat (Examples.post_of_length 60) 3) []
           [TextBlock (Examples.text "42")]).
  - reflexivity.
  - vm_compute. lia.
  - left. reflexivity.
  - reflexivity.
  - reflexivity.
Defined.

Lemma short_decks_parse_to_nothing (parseInt : jsstring -> float)
    (enrich : jsval -> object -> result (list json)) (decks : list jsstring) :
  Forall short_deck decks ->
  PillarsRoute.parse_decks (extractor_ops parseInt enrich) decks = [].
Proof.
  intro H. unfold PillarsRoute.parse_decks.
  assert (Hgen : forall (names : list nat),
    filter (fun d => 100 <? List.length (extractedText d))
      (map (fun p => parsePastedDeckText (extractor_ops parseInt enrich) (snd p)
                       (PillarsRoute.deck_name (fst p)))
         (combine names decks)) = []).
  { induction H as [|d ds [Hd Hl] _ IH]; intros [|n names]; try reflexivity.
    cbn [combine map filter fst snd parsePastedDeckText extractor_ops].
    rewrite (parse_without_delimiter_text parseInt d _ Hd).
    cbn [extractedText].
    destruct (Nat.ltb_spec 100 (List.length (trim d))); [unfold JsString.length in Hl; lia|].
    apply IH. }
  apply Hgen.
Qed.

(** X19. Pasted decks that have no slide delimiter and at most 100
    characters once trimmed are ignored by POST /api/discover/pillars:
    the answer is the model's pillars as they are, after the single
    pillar-discovery call, as if no deck had been sent. *)
Theorem pillars_short_decks_ignored (w : World) (parseInt : jsstring -> float)
    (enrich : jsval -> object -> result (list json))
    (body : PillarsRoute.Body) (submitted decks : list jsstring) (t : trace)
    (content : list content_block) :
  let p := DiscoverPillarsPrompt (firstn 20 (filter long_enough submitted)) in
  PillarsRoute.posts body = Some (JArray (map JString submitted)) ->
  3 <= List.length (filter long_enough submitted) ->
  PillarsRoute.decks body = Some decks ->
  Forall short_deck decks ->
  model w (List.length t) p = Message content ->
  truthy (parse_reply w (first_text content)) = true ->
  PillarsRoute.POST w (extractor_ops parseInt enrich) (Some body) t
  = (Ok (mkResponse 200 (PJson (parse_reply w (first_text content))) None),
     t ++ [p]).
Proof.
  intros p Hposts Hlen Hdecks Hshort. apply pillars_plain_response; auto.
  rewrite Hdecks. apply short_decks_parse_to_nothing. exact Hshort.
Qed.

Lemma pillars_short_decks_ignored_witness :
  PillarsRoute.POST (Examples.answering (Examples.text "42"))
    (extractor_ops (fun _ => 0%float) (fun _ _ => Throw TypeError))
    (Some (PillarsRoute.mkBody
             (Some (JArray (map JString (repeat (Examples.post_of_length 60) 3))))
             (Some [lit "  Our roadmap for 2026  "]))) []
  = (Ok (mkResponse 200 (PJson (JNumber 42)) None),
     [] ++ [DiscoverPillarsPrompt (repeat (Examples.post_of_length 60) 3)]).
Proof.
  apply (pillars_short_decks_ignored (Examples.answering (Examples.text "42"))
           (fun _ => 0%float) (fun _ _ => Throw TypeError) _
           (repeat (Examples.post_of_length 60) 3)
           [lit "  Our roadmap for 2026  "] []
           [TextBlock (Examples.text "42")]).
  - reflexivity.
  - vm_compute. lia.
  - reflexivity.
  - constructor; [|constructor]. split.
    + vm_compute. intuition discriminate.
    + vm_compute. lia.
  - reflexivity.
  - reflexivity.
Defined.

(* ------------------------------------------------------------------ *)
(** *** The discover routes *)

(** X20. POST /api/discover/topics and POST /api/discover/trends check
    their fields in the same order: a missing or empty [pillars] is
    answered 400 'Please provide at least one content pillar', and with
    pillars a missing or empty [voiceSummary] is answered 400 'Voice
    summary is required'; neither calls the model. *)
Theorem discover_routes_validate (w : World) (t : trace) :
  (forall body : TopicsRoute.Body,
      TopicsRoute.pillars body = None \/ TopicsRoute.pillars body = Some [] ->
      TopicsRoute.POST w (Some body) t
      = (Ok (mkResponse 400 PNull
               (Some (lit "Please provide at least one content pillar"))), t)) /\
  (forall (body : TopicsRoute.Body) p ps,
      TopicsRoute.pillars body = Some (p :: ps) ->
      TopicsRoute.voiceSummary body = None \/ TopicsRoute.voiceSummary body = Some [] ->
      TopicsRoute.POST w (Some body) t
      = (Ok (mkResponse 400 PNull (Some (lit "Voice summary is required"))), t)) /\
  (forall body : TrendsRoute.Body,
      TrendsRoute.pillars body = None \/ TrendsRoute.pillars body = Some [] ->
      TrendsRoute.POST w (Some body) t
      = (Ok (mkResponse 400 PNull
               (Some (lit "Please provide at least one content pillar"))), t)) /\
  (forall (body : TrendsRoute.Body) p ps,
      TrendsRoute.pillars body = Some (p :: ps) ->
      TrendsRoute.voiceSummary body = None \/ TrendsRoute.voiceSummary body = Some [] ->
      TrendsRoute.POST w (Some body) t
      = (Ok (mkResponse 400 PNull (Some (lit "Voice summary is required"))), t)).
Proof.
  split; [|split; [|split]].
  - intros body [H|H];
      unfold TopicsRoute.POST, TopicsRoute.handler, try_catch, bind, request_json, ret;
      rewrite H; reflexivity.
  - intros body p ps Hp [H|H];
      unfold TopicsRoute.POST, TopicsRoute.handler, try_catch, bind, request_json, ret;
      rewrite Hp, H; reflexivity.
  - intros body [H|H];
      unfold TrendsRoute.POST, TrendsRoute.handler, try_catch, bind, request_json, ret;
      rewrite H; reflexivity.
  - intros body p ps Hp [H|H];
      unfold TrendsRoute.POST, TrendsRoute.handler, try_catch, bind, request_json, ret;
      rewrite Hp, H; reflexivity.
Qed.

Lemma discover_routes_validate_witness :
  TopicsRoute.POST Examples.offline
    (Some (TopicsRoute.mkBody None (Some (lit "Direct")) None None)) []
  = (Ok (mkResponse 400 PNull
           (Some (lit "Please provide at least one content pillar"))), []) /\
  TrendsRoute.POST Examples.offline
    (Some (TrendsRoute.mkBody (Some [(lit "AI", lit "At work")]) (Some []) None)) []
  = (Ok (mkResponse 400 PNull (Some (lit "Voice summary is required"))), []).
Proof.
  destruct (discover_routes_validate Examples.offline []) as (H1 & _ & _ & H4).
  split.
  - apply H1. left. reflexivity.
  - apply (H4 _ (lit "AI", lit "At work") []); [reflexivity | right; reflexivity].
Defined.

(** X21. For a valid request, POST /api/discover/topics answers 200 to
    any reply of the model, after one call that asks for 10 topics unless
    a non-zero [count] is given: [data] is the [topics] member of the
    reply when that is truthy and the empty list otherwise (reply not
    JSON, null, or without topics). *)
Theorem topics_route_any_reply (w : World) (body : TopicsRoute.Body)
    (p : Pillar) (ps : list Pillar) (voiceSummary : jsstring) (t : trace)
    (content : list content_block) :
  let prompt :=
    SuggestTopicsPrompt (p :: ps) voiceSummary
      (default [] (TopicsRoute.recentTopics body))
      (TopicsRoute.count_or_10 (TopicsRoute.count body)) in
  TopicsRoute.pillars body = Some (p :: ps) ->
  TopicsRoute.voiceSummary body = Some voiceSummary ->
  voiceSummary <> [] ->
  model w (List.length t) prompt = Message content ->
  exists topics,
    TopicsRoute.POST w (Some body) t
    = (Ok (mkResponse 200 (PJson topics) None), t ++ [prompt]) /\
    ((truthy topics = true /\
      member (Some (parse_reply w (first_text content))) "topics" = Ok (Some topics))
     \/
     (topics = JArray [] /\
      forall v, member (Some (parse_reply w (first_text content))) "topics"
                = Ok (Some v) -> truthy v = false)).
Proof.
  intros prompt Hp Hv Hne Hmodel. subst prompt.
  unfold TopicsRoute.POST, TopicsRoute.handler, try_catch.
  unfold bind at 1. unfold request_json, ret at 1. rewrite Hp, Hv.
  destruct voiceSummary as [|c s]; [contradiction|].
  unfold bind at 1, suggestTopics, bind at 1, generateJSON, bind at 1, generateText.
  rewrite Hmodel. unfold ret at 1.
  set (reply := parse_reply w (first_text content)).
  destruct reply as [| | | | |o] eqn:Er;
    try (eexists; split; [reflexivity|]; right; split; [reflexivity|];
         intros v H; discriminate H).
  unfold bind, lift, member.
  destruct (lookup (lit "topics") o) as [v|] eqn:El.
  - destruct (truthy v) eqn:Et.
    + eexists. split; [reflexivity|]. left. auto.
    + eexists. split; [reflexivity|]. right. split; [reflexivity|].
      intros v' H. injection H as <-. exact Et.
  - eexists. split; [reflexivity|]. right. split; [reflexivity|].
    intros v' H. discriminate H.
Qed.

Lemma topics_route_any_reply_witness :
  exists topics,
    TopicsRoute.POST (Examples.answering (lit "Sorry, I cannot help."))
      (Some Examples.one_topic_pillar) []
    = (Ok (mkResponse 200 (PJson topics) None),
       [] ++ [SuggestTopicsPrompt
                [mkPillar (lit "AI") (lit "Artificial intelligence at work") []]
                (lit "Direct and practical") [] 10%float]) /\
    ((truthy topics = true /\
      member (Some (parse_reply (Examples.answering (lit "Sorry, I cannot help."))
                      (lit "Sorry, I cannot help."))) "topics" = Ok (Some topics))
     \/
     (topics = JArray [] /\
      forall v, member (Some (parse_reply
                                (Examples.answering (lit "Sorry, I cannot help."))
                                (lit "Sorry, I cannot help."))) "topics"
                = Ok (Some v) -> truthy v = false)).
Proof.
  apply (topics_route_any_reply (Examples.answering (lit "Sorry, I cannot help."))
           Examples.one_topic_pillar
           (mkPillar (lit "AI") (lit "Artificial intelligence at work") []) []
           (lit "Direct and practical") []
           [TextBlock (lit "Sorry, I cannot help.")]).
  - reflexivity.
  - reflexivity.
  - discriminate.
  - reflexivity.
Defined.

(* ------------------------------------------------------------------ *)
(** *** Deck analysis *)

Lemma collect_narratives_calls (w : World) (decks : list ExtractedDeck)
    (acc : list json) (t : trace) :
  exists r l,
    collect_narratives w acc decks t = (r, t ++ l) /\
    List.length l <= List.length decks.
Proof.
  revert acc t. induction decks as [|d decks IH]; intros acc t.
  - exists (Ok acc), []. rewrite app_nil_r. split; [reflexivity | simpl; lia].
  - cbn [collect_narratives]. unfold bind, analyzeDeck.
    destruct (List.length (extractedText d) <? 100).
    + unfold ret. cbn [truthy]. destruct (IH acc t) as (r & l & -> & Hl).
      exists r, l. split; [reflexivity | simpl; lia].
    + destruct (generateJSON_run w (AnalyzeDeckPrompt d) t) as (r & ->).
      destruct r as [narrative|e].
      * match goal with |- context [collect_narratives w ?a decks _] =>
          destruct (IH a (t ++ [AnalyzeDeckPrompt d])) as (r & l & -> & Hl) end.
        exists r, (AnalyzeDeckPrompt d :: l). rewrite <- app_assoc.
        split; [reflexivity | simpl; lia].
      * exists (Throw e), [AnalyzeDeckPrompt d]. split; [reflexivity | simpl; lia].
Qed.

Lemma collect_narratives_short (w : World) (decks : list ExtractedDeck)
    (acc : list json) (t : trace) :
  Forall (fun d => List.length (extractedText d) < 100) decks ->
  collect_narratives w acc decks t = (Ok acc, t).
Proof.
  induction 1 as [|d decks Hd _ IH]; [reflexivity|].
  cbn [collect_narratives]. unfold bind, analyzeDeck.
  apply Nat.ltb_lt in Hd. rewrite Hd. unfold ret. cbn [truthy]. exact IH.
Qed.

(** X22. Analysing [n] decks costs at most [n + 1] model calls (one per
    deck and one for the whole), and decks whose extracted text is
    shorter than 100 characters cost none: with only such decks the
    analysis is null and the model is not called. *)
Theorem deck_analysis_calls (w : World) (decks : list ExtractedDeck) (t : trace) :
  (exists r l,
      analyzeMultipleDecks w decks t = (r, t ++ l) /\
      List.length l <= List.length decks + 1) /\
  (Forall (fun d => List.length (extractedText d) < 100) decks ->
   analyzeMultipleDecks w decks t = (Ok None, t)).
Proof.
  split.
  - unfold analyzeMultipleDecks. destruct decks as [|d decks].
    + exists (Ok None), []. rewrite app_nil_r. split; [reflexivity | simpl; lia].
    + unfold bind at 1.
      destruct (collect_narratives_calls w (d :: decks) [] t) as (r & l & -> & Hl).
      destruct r as [narratives|e]; [|exists (Throw e), l; split; [reflexivity | simpl in *; lia]].
      destruct narratives as [|n ns];
        [exists (Ok None), l; split; [reflexivity | simpl in *; lia]|].
      unfold bind at 1, lift.
      destruct (rforall narrative_summary (n :: ns)) as [u|e];
        [|exists (Throw e), l; split; [reflexivity | simpl in *; lia]].
      unfold bind.
      destruct (generateJSON_run w (AnalyzeDecksPrompt (n :: ns)) (t ++ l)) as (r & ->).
      rewrite <- app_assoc.
      destruct r as [result|e].
      * destruct (negb (truthy result)); eexists; eexists;
          (split; [reflexivity | rewrite length_app; simpl in *; lia]).
      * eexists; eexists; (split; [reflexivity | rewrite length_app; simpl in *; lia]).
  - intro H. unfold analyzeMultipleDecks. destruct decks as [|d decks]; [reflexivity|].
    unfold bind. rewrite (collect_narratives_short w (d :: decks) [] t H).
    reflexivity.
Qed.

Lemma deck_analysis_calls_witness :
  analyzeMultipleDecks Examples.offline
    [mkDeck (lit "Deck 1") 1 (lit "Our roadmap for 2026")
       [(1%float, lit "Our roadmap for 2026", false)]] []
  = (Ok None, []).
Proof.
  apply (proj2 (deck_analysis_calls Examples.offline _ [])).
  constructor; [simpl; lia | constructor].
Defined.

(* ------------------------------------------------------------------ *)
(** *** Unterminated fences *)

Lemma split_at_first_fence_none (s : jsstring) :
  ~ In backquote s -> split_at_first fence s = None.
Proof.
  induction s as [|c s IH]; intro H; [reflexivity|].
  cbn [split_at_first].
  assert (Hs : strip_prefix fence (c :: s) = None).
  { change fence with (backquote :: [backquote; backquote]).
    apply strip_prefix_head. intro E. apply H. left. symmetry. exact E. }
  rewrite Hs, IH; [reflexivity|]. intro E. apply H. right. exact E.
Qed.

Lemma strip_prefix_In (p s r : jsstring) (x : code_unit) :
  strip_prefix p s = Some r -> In x r -> In x s.
Proof.
  revert s. induction p as [|a p IH]; intros s H Hx.
  - injection H as <-. exact Hx.
  - destruct s as [|b s]; [discriminate|]. simpl in H.
    destruct (N.eqb a b); [|discriminate]. right. eapply IH; eauto.
Qed.

(** X23. A reply that opens a code fence and never closes it yields
    null: when the reply as a whole is not JSON and has a single fence,
    [generateJSON]'s extraction finds no block. *)
Theorem unterminated_fence_is_null (w : World) (pre rest : jsstring) :
  JSON_parse w (pre ++ fence ++ rest) = None ->
  ~ In backquote pre ->
  ~ In backquote rest ->
  parse_reply w (pre ++ fence ++ rest) = JNull.
Proof.
  intros Hparse Hpre Hrest. unfold parse_reply. rewrite Hparse.
  unfold code_block. rewrite (split_at_first_fence pre rest Hpre).
  rewrite split_at_first_fence_none; [reflexivity|].
  intro H. apply trimStart_In in H. apply Hrest.
  destruct (strip_prefix (lit "json") rest) as [r|] eqn:E; [|exact H].
  eapply strip_prefix_In; eauto.
Qed.

Lemma unterminated_fence_is_null_witness :
  parse_reply (Examples.answering [])
    (Examples.text "Here it is: " ++ fence ++ Examples.text "json {'variations':[]}")
  = JNull.
Proof.
  apply unterminated_fence_is_null.
  - reflexivity.
  - vm_compute. intuition discriminate.
  - vm_compute. intuition discriminate.
Defined.

(* ------------------------------------------------------------------ *)
(** *** The model calls of the content generator *)

Lemma score_variation_call (w : World) (profile item : json) t v t1 :
  truthy profile = true ->
  score_variation w profile item t = (Ok v, t1) ->
  t1 = t ++ [ScoreVoiceMatchPrompt (content v) profile].
Proof.
  intros Hp H. unfold score_variation in H. rewrite Hp in H.
  apply bind_Ok in H as (s & t2 & Hs & H).
  apply bind_Ok in H as (i & t3 & Hi & H).
  apply bind_Ok in H as (c & t4 & Hc & H).
  unfold lift in Hi, Hc. injection Hi as Hi <-. injection Hc as Hc <-.
  injection H as <- <-. cbn [content].
  apply bind_Ok in Hs as (c' & t5 & Hc' & Hs).
  unfold lift in Hc'. injection Hc' as Hc' <-.
  assert (c' = c) as -> by congruence.
  unfold scoreVoiceMatch in Hs.
  apply bind_Ok in Hs as (u & t6 & Hu & Hs).
  unfold lift in Hu. injection Hu as Hu <-.
  apply bind_Ok in Hs as (reply & t7 & Hr & Hs).
  destruct (generateJSON_run w (ScoreVoiceMatchPrompt c profile) t) as (r & Hrun).
  rewrite Hrun in Hr. injection Hr as _ <-.
  destruct (negb (truthy reply)); [injection Hs as _ <-; reflexivity|].
  apply bind_Ok in Hs as (x1 & ? & H1 & Hs). unfold lift in H1. injection H1 as _ <-.
  apply bind_Ok in Hs as (x2 & ? & H2 & Hs). unfold lift in H2. injection H2 as _ <-.
  apply bind_Ok in Hs as (x3 & ? & H3 & Hs). unfold lift in H3. injection H3 as _ <-.
  apply bind_Ok in Hs as (x4 & ? & H4 & Hs). unfold lift in H4. injection H4 as _ <-.
  injection Hs as _ <-. reflexivity.
Qed.

Lemma promise_all_calls {A B} (f : A -> M B) (g : B -> prompt) :
  (forall a t b t1, f a t = (Ok b, t1) -> t1 = t ++ [g b]) ->
  forall items t bs t', promise_all (map f items) t = (Ok bs, t') ->
                        t' = t ++ map g bs.
Proof.
  intros Hf. induction items as [|a items IH]; intros t bs t' H; simpl in H.
  - injection H as <- <-. symmetry. apply app_nil_r.
  - destruct (f a t) as [r t1] eqn:E1.
    destruct (promise_all (map f items) t1) as [rs t2] eqn:E2.
    destruct r as [b|e]; [|discriminate].
    destruct rs as [bl|e]; [|discriminate].
    injection H as <- <-.
    rewrite (IH _ _ _ E2), (Hf _ _ _ _ E1), <- app_assoc. reflexivity.
Qed.

(** X24. With a voice profile, a successful [generateContent] calls the
    model once for the variations and then exactly once per variation
    returned, in order, to score that variation's content against the
    profile. *)
Theorem generateContent_scoring_calls (w : World) (input : GenerationInput)
    (t : trace) (out : GenerationOutput) (t' : trace) :
  generateContent w input t = (Ok out, t') ->
  truthy (voiceProfile input) = true ->
  sent t t'
  = GenerateContentPrompt (ContentGenerator.topic input)
      (ContentGenerator.contentType input)
      (ContentGenerator.creativityLevel input) (voiceProfile input)
      (ContentGenerator.samplePosts input) (ContentGenerator.trends input)
    :: map (fun v => ScoreVoiceMatchPrompt (content v) (voiceProfile input))
         (variations out).
Proof.
  intros H Hp. unfold generateContent in H. rewrite Hp in H.
  apply bind_Ok in H as (u & t0 & H0 & H).
  unfold lift in H0. injection H0 as H0 <-.
  apply bind_Ok in H as (reply & t1 & Hreply & H).
  match type of Hreply with generateJSON w ?p t = _ =>
    destruct (generateJSON_run w p t) as (r & Hrun)
  end.
  rewrite Hrun in Hreply. injection Hreply as _ <-.
  destruct (negb (truthy reply)); [discriminate|].
  apply bind_Ok in H as (vs & t2 & Hvs & H).
  unfold lift in Hvs. injection Hvs as Hvs <-.
  destruct (negb (truthy_val vs)); [discriminate|].
  apply bind_Ok in H as (items & t3 & Hitems & H).
  unfold lift in Hitems. injection Hitems as Hitems <-.
  apply bind_Ok in H as (scored & t4 & Hall & H).
  injection H as <- <-. cbn [variations].
  apply (promise_all_calls (score_variation w (voiceProfile input))
           (fun v => ScoreVoiceMatchPrompt (content v) (voiceProfile input))) in Hall.
  - rewrite Hall, <- app_assoc. apply sent_app.
  - intros a ta b tb. apply score_variation_call. exact Hp.
Qed.

Lemma generateContent_scoring_calls_witness :
  exists out t',
    generateContent Examples.generous_scorer MoreExamples.sample_input
      [Examples.a_prompt] = (Ok out, t') /\
    sent [Examples.a_prompt] t'
    = GenerateContentPrompt (lit "AI") long 30%float MoreExamples.sample_profile
        [lit "A post I wrote earlier."] []
      :: map (fun v => ScoreVoiceMatchPrompt (content v) MoreExamples.sample_profile)
           (variations out).
Proof.
  do 2 eexists. split; [vm_compute; reflexivity|].
  apply (generateContent_scoring_calls Examples.generous_scorer
           MoreExamples.sample_input [Examples.a_prompt]).
  - vm_compute. reflexivity.
  - reflexivity.
Defined.

Lemma promise_all_first_throws {A} (m : M A) (l : list (M A)) (t : trace) :
  (exists e t1, m t = (Throw e, t1)) ->
  exists e t', promise_all (m :: l) t = (Throw e, t').
Proof.
  intros (e & t1 & H). cbn [promise_all]. rewrite H.
  destruct (promise_all l t1) as [rs t2]. eauto.
Qed.

Lemma score_variation_rejected (w : World) (profile item : json) (t : trace) :
  scoring_rejected w ->
  truthy profile = true ->
  exists e t1, score_variation w profile item t = (Throw e, t1).
Proof.
  intros Hw Hp. unfold score_variation. rewrite Hp.
  unfold bind at 1. unfold bind at 1, lift at 1.
  destruct (member (Some item) "content") as [c|e]; [|eauto].
  unfold scoreVoiceMatch, bind at 1, lift at 1.
  destruct (scoreVoiceMatch_prompt c profile) as [u|e]; [|eauto].
  unfold bind at 1, generateJSON, bind at 1, generateText. rewrite Hw. eauto.
Qed.

(** X25. The fallback score 70 covers unusable scoring replies only: if
    the model rejects the scoring calls, [generateContent] with a voice
    profile and a reply of at least one variation throws; no variation
    is returned. *)
Theorem rejected_scoring_fails_generation (w : World) (input : GenerationInput)
    (t : trace) (content : list content_block) (item : json) (items : list json) :
  let p := GenerateContentPrompt (ContentGenerator.topic input)
             (ContentGenerator.contentType input)
             (ContentGenerator.creativityLevel input) (voiceProfile input)
             (ContentGenerator.samplePosts input) (ContentGenerator.trends input) in
  scoring_rejected w ->
  truthy (voiceProfile input) = true ->
  model w (List.length t) p = Message content ->
  member (Some (parse_reply w (first_text content))) "variations"
  = Ok (Some (JArray (item :: items))) ->
  exists e t', generateContent w input t = (Throw e, t').
Proof.
  intros p Hw Hp Hmodel Hvs. subst p. unfold generateContent. rewrite Hp.
  unfold bind at 1, lift at 1.
  destruct (buildVoiceContext (voiceProfile input)) as [u|e]; [|eauto].
  unfold bind at 1, generateJSON, bind at 1, generateText. rewrite Hmodel.
  unfold ret at 1.
  destruct (negb (truthy (parse_reply w (first_text content)))); [unfold throw; eauto|].
  unfold bind at 1, lift at 1. rewrite Hvs. cbn [truthy_val truthy negb].
  unfold bind at 1, lift at 1. cbn [as_array]. unfold bind at 1. cbn [map].
  match goal with |- context [promise_all (?m :: ?l) ?t0] =>
    destruct (promise_all_first_throws m l t0) as (e & t' & ->)
  end; [|eauto].
  apply score_variation_rejected; assumption.
Qed.

Lemma rejected_scoring_fails_generation_witness :
  exists e t',
    generateContent MoreExamples.scoring_down MoreExamples.sample_input
      [Examples.a_prompt] = (Throw e, t').
Proof.
  apply (rejected_scoring_fails_generation MoreExamples.scoring_down
           MoreExamples.sample_input [Examples.a_prompt]
           [TextBlock (Examples.text
              "{'variations':[{'id':'var-1','content':'Hello','approach':'direct'}]}")]
           (JObject [(lit "id", JString (lit "var-1"));
                     (lit "content", JString (lit "Hello"));
                     (lit "approach", JString (lit "direct"))]) []).
  - intros k c prof. reflexivity.
  - reflexivity.
  - reflexivity.
  - reflexivity.
Defined.

(* ------------------------------------------------------------------ *)
(** *** A voice analysis that yields nothing *)



(* ------------------------------------------------------------------ *)
(** *** The envelope of the responses *)

(** X27. Every request to the four POST routes is answered, whatever
    the request and the model do.  The responses of /api/generate and
    /api/discover/trends are [{ data, error }] envelopes with exactly one
    null field.  So are those of /api/discover/pillars and
    /api/discover/topics, with one exception: a success whose data is a
    number of the model that is not finite, which is serialised as
    [data: null] beside [error: null]. *)
Theorem responses_are_envelopes_up_to_overflow (w : World) (ops : DeckOps)
    (t : trace) :
  (forall request, exists resp t',
      GenerateRoute.POST w request t = (Ok resp, t') /\ envelope resp) /\
  (forall request, exists resp t',
      PillarsRoute.POST w ops request t = (Ok resp, t') /\
      (envelope resp \/ overflowed resp)) /\
  (forall request, exists resp t',
      TopicsRoute.POST w request t = (Ok resp, t') /\
      (envelope resp \/ overflowed resp)) /\
  (forall request, exists resp t',
      TrendsRoute.POST w request t = (Ok resp, t') /\ envelope resp).
Proof.
  split; [|split; [|split]]; intro request; apply answers_by_catch;
    try (apply envelope_fail; discriminate);
    try (left; apply envelope_fail; discriminate);
    intros resp t'.
  - apply generate_handler_envelope.
  - apply pillars_handler_envelope.
  - apply topics_handler_envelope.
  - apply trends_handler_envelope.
Qed.
